(** * module-to-cli: the introspection engine and the invocation guard

    A shallow embedding of [parse.ts] (class [ModuleParser]), of the
    specification generator ([spec.ts]) and of the dispatcher of [main.ts].

    Conventions.
    - A JavaScript string is a [string]: one [ascii] per code unit, so the
      model covers the strings whose code units are below 256.  In that range
      the white space removed by [trim] is 9-13, 32 and 160, and the line
      terminators that [.] refuses are 10 and 13.
    - The record [Record<string, EnhancedMethodInfo>] is a [gmap string
      MethodInfo]; assignment [methods[k] = v] is [<[k:=v]>].  The record
      and the object [parseArgs] returns are plain objects: a read
      [o[k]] or a test [k in o] that finds no property of the object's own
      finds the one [Object.prototype] has under that name
      ([Cli.objectPrototype]).  An assignment to the key [__proto__]
      creates no property; the model covers the keys other than that one.
    - The syntax tree is built by ts-morph and the comment blocks are parsed
      by comment-parser.  Neither is part of the repository: the tree is
      data (records holding what the getters used by the code return) and the
      two parsers are section variables.
    - A JavaScript exception is the [Throw] outcome of the monad [M]. *)

From Stdlib Require Import ZArith Ascii String Bool Lia.
From stdpp Require Import base option list gmap strings.

Local Open Scope Z_scope.
Local Open Scope nat_scope.

(* ================================================================== *)
(** ** JavaScript string primitives *)

Module JsString.

Definition len (s : string) : nat := String.length s.

Fixpoint take (n : nat) (s : string) : string :=
  match n, s with
  | S n', String c s' => String c (take n' s')
  | _, _ => EmptyString
  end.

Fixpoint drop (n : nat) (s : string) : string :=
  match n, s with
  | S n', String _ s' => drop n' s'
  | _, _ => s
  end.

(** [s.startsWith(p)] *)
Fixpoint startsWith (s p : string) : bool :=
  match p, s with
  | EmptyString, _ => true
  | String a p', String b s' => Ascii.eqb a b && startsWith s' p'
  | String _ _, EmptyString => false
  end.

(** [s.endsWith(p)] *)
Definition endsWith (s p : string) : bool :=
  (len p <=? len s) && String.eqb (drop (len s - len p) s) p.

(** [s.includes(p)] *)
Fixpoint includes (s p : string) : bool :=
  startsWith s p ||
  match s with
  | EmptyString => false
  | String _ s' => includes s' p
  end.

(** [s.replace(p, r)] with a string pattern: the first occurrence only. *)
Fixpoint replace (s p r : string) : string :=
  if startsWith s p then r +:+ drop (len p) s
  else match s with
       | EmptyString => EmptyString
       | String c s' => String c (replace s' p r)
       end.

(** White space and line terminators of ECMAScript, below 256. *)
Definition isWhiteSpace (c : ascii) : bool :=
  let n := nat_of_ascii c in
  ((9 <=? n) && (n <=? 13)) || (n =? 32) || (n =? 160).

Fixpoint trimStart (s : string) : string :=
  match s with
  | EmptyString => EmptyString
  | String c s' => if isWhiteSpace c then trimStart s' else s
  end.

Fixpoint trimEnd (s : string) : string :=
  match s with
  | EmptyString => EmptyString
  | String c s' =>
      match trimEnd s' with
      | EmptyString => if isWhiteSpace c then EmptyString
                       else String c EmptyString
      | t => String c t
      end
  end.

(** [s.trim()] *)
Definition trim (s : string) : string := trimEnd (trimStart s).

(** [s.slice(from, to)]: a negative index counts from the end. *)
Definition sliceIndex (n : nat) (i : Z) : nat :=
  if (i <? 0)%Z then Z.to_nat (Z.max (Z.of_nat n + i) 0)
  else Nat.min (Z.to_nat i) n.

Definition slice (s : string) (from to : Z) : string :=
  let a := sliceIndex (len s) from in
  let b := sliceIndex (len s) to in
  take (b - a) (drop a s).

(** [s.split(sep)] for a separator of one code unit. *)
Fixpoint split (sep : ascii) (s : string) : list string :=
  match s with
  | EmptyString => [EmptyString]
  | String c s' =>
      match split sep s' with
      | [] => []
      | h :: t => if Ascii.eqb c sep then EmptyString :: h :: t
                  else String c h :: t
      end
  end.

(** A string is truthy when it is not empty. *)
Definition truthy (s : string) : bool :=
  match s with EmptyString => false | _ => true end.

End JsString.

(* ================================================================== *)
(** ** The regular expressions of the source

    The fragment used by [parse.ts]: literals, a greedy [+] over a class of
    code units, capturing groups (never nested), sequence, alternation and
    the two anchors.  The matcher backtracks like the ECMAScript one: it is
    written in continuation-passing style, a greedy [+] first tries to take
    one more code unit, an alternation tries its left branch first, and the
    search tries the start positions from left to right. *)

Module Regex.
Import JsString.

Inductive regex : Type :=
| Lit (s : string)
| Plus (cls : ascii -> bool)
| Group (r : regex)
| Seq (r1 r2 : regex)
| Alt (r1 r2 : regex)
| Bol
| Eol.

(** Character classes. *)
Definition isLineTerminator (c : ascii) : bool :=
  let n := nat_of_ascii c in (n =? 10) || (n =? 13).

(** [.] *)
Definition dot (c : ascii) : bool := negb (isLineTerminator c).

(** [\w] *)
Definition word (c : ascii) : bool :=
  let n := nat_of_ascii c in
  ((48 <=? n) && (n <=? 57)) || ((65 <=? n) && (n <=? 90)) ||
  ((97 <=? n) && (n <=? 122)) || (n =? 95).

(** [[^x]] *)
Definition notChar (x : ascii) (c : ascii) : bool := negb (Ascii.eqb c x).

Section Matcher.
Context {R : Type}.

(** The continuation receives the position reached, the rest of the
    input and the captures so far. *)
Definition cont : Type := nat -> string -> list string -> option R.

Fixpoint plus (cls : ascii -> bool) (pos : nat) (s : string)
    (k : nat -> string -> option R) : option R :=
  match s with
  | EmptyString => None
  | String c s' =>
      if cls c then
        match plus cls (S pos) s' k with
        | Some r => Some r
        | None => k (S pos) s'
        end
      else None
  end.

Fixpoint run (r : regex) (pos : nat) (s : string) (caps : list string)
    (k : cont) : option R :=
  match r with
  | Lit l =>
      if startsWith s l then k (pos + len l) (drop (len l) s) caps
      else None
  | Plus cls => plus cls pos s (fun pos' s' => k pos' s' caps)
  | Group r1 =>
      run r1 pos s caps
        (fun pos' s' caps' => k pos' s' (caps' ++ [take (pos' - pos) s]))
  | Seq r1 r2 =>
      run r1 pos s caps (fun pos' s' caps' => run r2 pos' s' caps' k)
  | Alt r1 r2 =>
      match run r1 pos s caps k with
      | Some x => Some x
      | None => run r2 pos s caps k
      end
  | Bol => if pos =? 0 then k pos s caps else None
  | Eol => match s with EmptyString => k pos s caps | _ => None end
  end.
End Matcher.

(** The result of [exec]: where the match starts and stops, and the
    captures [m[1]], [m[2]], ... *)
Record MatchResult : Type := mkMatch {
  mStart : nat;
  mEnd : nat;
  mGroups : list string
}.

Fixpoint searchFrom (r : regex) (pos : nat) (s : string)
    : option MatchResult :=
  match run r pos s [] (fun pos' _ caps => Some (mkMatch pos pos' caps)) with
  | Some m => Some m
  | None =>
      match s with
      | EmptyString => None
      | String _ s' => searchFrom r (S pos) s'
      end
  end.

(** [s.match(r)] for a regular expression without the [g] flag. *)
Definition exec (r : regex) (s : string) : option MatchResult :=
  searchFrom r 0 s.

(** [m[i]] for [i >= 1]; a missing group reads as the empty string. *)
Definition group (m : MatchResult) (i : nat) : string :=
  default EmptyString (mGroups m !! (i - 1)).

(** [s.replace(r, '')] for a regular expression without the [g] flag. *)
Definition remove (r : regex) (s : string) : string :=
  match exec r s with
  | Some m => take (mStart m) s +:+ drop (mEnd m) s
  | None => s
  end.

(** [/Promise<(.+)>/] *)
Definition rePromise : regex :=
  Seq (Lit "Promise<") (Seq (Group (Plus dot)) (Lit ">")).
(** [/Array<(.+)>/] *)
Definition reArray : regex :=
  Seq (Lit "Array<") (Seq (Group (Plus dot)) (Lit ">")).
(** [/(\w+)<(.+)>/] *)
Definition reGeneric : regex :=
  Seq (Group (Plus word)) (Seq (Lit "<") (Seq (Group (Plus dot)) (Lit ">"))).
(** [/\{([^}]+)\}/] *)
Definition reBraces : regex :=
  Seq (Lit "{") (Seq (Group (Plus (notChar "}"%char))) (Lit "}")).
(** [/^_/] *)
Definition reLeadingUnderscore : regex := Seq Bol (Lit "_").
(** [/\.(ts|js|tsx|jsx)$/] *)
Definition reExtension : regex :=
  Seq (Lit ".")
    (Seq (Group (Alt (Lit "ts") (Alt (Lit "js") (Alt (Lit "tsx") (Lit "jsx")))))
         Eol).

End Regex.

(* ================================================================== *)
(** ** Data model ([types.ts]) *)

Module Types.

#[warnings="-register-all"]
Inductive TypeInfo : Type := mkTypeInfo {
  baseType : string;
  typeArguments : option (list TypeInfo);
  unionTypes : option (list TypeInfo);
  intersectionTypes : option (list TypeInfo);
  isOptional : bool;
  isNullable : bool;
  rawType : string
}.

Record ParamInfo : Type := mkParamInfo {
  paramName : string;
  paramType : TypeInfo;
  paramDescription : string;
  paramOptional : bool
}.

Record ReturnInfo : Type := mkReturnInfo {
  returnType : TypeInfo;
  returnDescription : string
}.

Inductive MethodKind : Type :=
| KInstance | KStatic | KProperty | KGetter | KSetter | KFunction
| KConstructor.

Inductive Visibility : Type := Public | Private | Protected.

Record MethodInfo : Type := mkMethodInfo {
  name : string;
  description : string;
  params : list ParamInfo;
  returns : option ReturnInfo;
  methodKind : MethodKind;
  isAsync : bool;
  visibility : Visibility
}.

Record ImportInfo : Type := mkImportInfo {
  moduleName : string;
  importIsDefault : bool;
  isNamespace : bool;
  namedImports : list string
}.

Record ExportInfo : Type := mkExportInfo {
  exportName : string;
  exportIsDefault : bool;
  isReexport : bool;
  sourceModule : option string
}.

Record ModuleInfo : Type := mkModuleInfo {
  moduleInfoName : string;
  moduleDescription : string;
  fileName : string;
  imports : list ImportInfo;
  exports : list ExportInfo
}.

Record ParsedModuleResult : Type := mkParsedModuleResult {
  methods : gmap string MethodInfo;
  module : ModuleInfo
}.

Record ASTParserConfig : Type := mkConfig {
  captureInstanceMethods : bool;
  captureStaticMethods : bool;
  capturePropertyMethods : bool;
  captureGetAccessors : bool;
  captureSetAccessors : bool;
  captureArrowFunctions : bool;
  captureComplexTypes : bool
}.

Definition DEFAULT_AST_CONFIG : ASTParserConfig :=
  mkConfig true true true true true true true.

Definition visibility_eqb (a b : Visibility) : bool :=
  match a, b with
  | Public, Public | Private, Private | Protected, Protected => true
  | _, _ => false
  end.

End Types.

(* ================================================================== *)
(** ** The type normalizer ([ModuleParser.parseType]) *)

Module TypeParser.
Import JsString Regex Types.

(** The loop of [splitGenericArgs]: [result], [currentArg] and [depth] are
    the three variables of the source. *)
Fixpoint splitLoop (chars : string) (result : list string)
    (currentArg : string) (depth : Z) : list string * string :=
  match chars with
  | EmptyString => (result, currentArg)
  | String char rest =>
      if Ascii.eqb char "<" then
        splitLoop rest result (currentArg +:+ String char "") (depth + 1)%Z
      else if Ascii.eqb char ">" then
        splitLoop rest result (currentArg +:+ String char "") (depth - 1)%Z
      else if Ascii.eqb char "," && (depth =? 0)%Z then
        splitLoop rest (result ++ [trim currentArg]) "" depth
      else
        splitLoop rest result (currentArg +:+ String char "") depth
  end.

Definition splitGenericArgs (argsString : string) : list string :=
  let '(result, currentArg) := splitLoop argsString [] "" 0%Z in
  if truthy (trim currentArg) then result ++ [trim currentArg] else result.

(** [cleanType]: the three [replace] calls and the [trim]. *)
Definition cleanTypeOf (typeString : string) : string :=
  trim (replace (replace (replace typeString "?" "") "|undefined" "")
          "|null" "").

(** [s.includes(lit) ? s.match(re) : null] *)
Definition guardedMatch (lit : string) (re : regex) (s : string)
    : option MatchResult :=
  if includes s lit then exec re s else None.

Section Body.
Variable config : ASTParserConfig.
(** The recursive calls [this.parseType(...)]; [None] is a call that
    did not return. *)
Variable self : string -> option TypeInfo.

Definition parseTypeBody (typeString : string) : option TypeInfo :=
  if negb (truthy typeString) || negb (captureComplexTypes config) then
    Some (mkTypeInfo typeString None None None false false typeString)
  else
    let isOptional :=
      endsWith typeString "?" || includes typeString "|undefined" in
    let isNullable := includes typeString "|null" in
    let cleanType := cleanTypeOf typeString in
    match guardedMatch "Promise<" rePromise cleanType with
    | Some m =>
        arg ← self (group m 1);
        Some (mkTypeInfo "Promise" (Some [arg]) None None
                isOptional isNullable typeString)
    | None =>
    if endsWith cleanType "[]" then
      let elementType := slice cleanType 0 (-2) in
      arg ← self elementType;
      Some (mkTypeInfo "Array" (Some [arg]) None None
              isOptional isNullable typeString)
    else
    match guardedMatch "Array<" reArray cleanType with
    | Some m =>
        arg ← self (group m 1);
        Some (mkTypeInfo "Array" (Some [arg]) None None
                isOptional isNullable typeString)
    | None =>
    match exec reGeneric cleanType with
    | Some genericMatch =>
        let baseType := group genericMatch 1 in
        let argsString := group genericMatch 2 in
        let args := splitGenericArgs argsString in
        targs ← mapM self args;
        Some (mkTypeInfo baseType (Some targs) None None
                isOptional isNullable typeString)
    | None =>
    if startsWith cleanType "[" && endsWith cleanType "]"
       && truthy (trim (slice cleanType 1 (-1))) then
      Some (mkTypeInfo cleanType None None None
              isOptional isNullable typeString)
    else if includes cleanType "|" then
      let types := map trim (split "|" cleanType) in
      us ← mapM self types;
      Some (mkTypeInfo (default "" (head types)) None (Some us) None
              isOptional isNullable typeString)
    else if includes cleanType "&" then
      let types := map trim (split "&" cleanType) in
      its ← mapM self types;
      Some (mkTypeInfo (default "" (head types)) None None (Some its)
              isOptional isNullable typeString)
    else
      Some (mkTypeInfo cleanType None None None
              isOptional isNullable typeString)
    end end end.
End Body.

(** The recursion of [parseType], bounded by [fuel] nested calls. *)
Fixpoint parseTypeF (config : ASTParserConfig) (fuel : nat)
    : string -> option TypeInfo :=
  match fuel with
  | O => fun _ => None
  | S n => parseTypeBody config (parseTypeF config n)
  end.

(** Every recursive call is on a strictly shorter string, so one more
    call than the length of the string is enough (lemma
    [parseTypeF_enough]). *)
Definition parseType (config : ASTParserConfig) (typeString : string)
    : TypeInfo :=
  default (mkTypeInfo typeString None None None false false typeString)
          (parseTypeF config (S (len typeString)) typeString).

End TypeParser.

(* ================================================================== *)
(** ** Exceptions and the mutated method record *)

Module Effects.
Import Types.

(** The outcome of a JavaScript call: a value, or a thrown error. *)
Inductive outcome (A : Type) : Type :=
| Ok (a : A)
| Throw (error : string).
Arguments Ok {A} a.
Arguments Throw {A} error.

#[export] Instance outcome_ret : MRet outcome := fun A a => Ok a.
#[export] Instance outcome_bind : MBind outcome := fun A B f m =>
  match m with
  | Ok a => f a
  | Throw e => Throw e
  end.

(** [try { body } catch (error) { handler }] *)
Definition tryCatch {A : Type} (body : outcome A)
    (handler : string -> outcome A) : outcome A :=
  match body with
  | Ok a => Ok a
  | Throw e => handler e
  end.

(** A method of the walker: it mutates the record [methods] it is given
    and may throw; what it wrote before throwing stays written. *)
Definition M (A : Type) : Type :=
  gmap string MethodInfo -> outcome A * gmap string MethodInfo.

#[export] Instance M_ret : MRet M := fun A a methods => (Ok a, methods).
#[export] Instance M_bind : MBind M := fun A B f m methods =>
  match m methods with
  | (Ok a, methods') => f a methods'
  | (Throw e, methods') => (Throw e, methods')
  end.

Definition lift {A : Type} (o : outcome A) : M A :=
  fun methods => (o, methods).

(** [methods[key] = info] *)
Definition assign (key : string) (info : MethodInfo) : M unit :=
  fun methods => (Ok tt, <[key := info]> methods).

(** [try { body } catch (err) { /* No-op */ }] *)
Definition tryNoOp (body : M unit) : M unit :=
  fun methods =>
    match body methods with
    | (Throw _, methods') => (Ok tt, methods')
    | r => r
    end.

(** [list.forEach(f)] and [for (const x of list) f(x)] *)
Definition forEach {A : Type} (f : A -> M unit) : list A -> M unit :=
  fix go (l : list A) : M unit :=
    match l with
    | [] => mret tt
    | x :: l' => f x ≫= fun _ => go l'
    end.

Definition when (b : bool) (body : M unit) : M unit :=
  if b then body else mret tt.

(** A computation that returns normally from every record. *)
Definition succeeds (c : M unit) : Prop :=
  forall methods, exists methods', c methods = (Ok tt, methods').

(** [for (const x of list) { vars = step(vars, x) }] on local variables. *)
Definition forOf {A V : Type} (step : V -> A -> outcome V)
    : V -> list A -> outcome V :=
  fix go (vars : V) (l : list A) : outcome V :=
    match l with
    | [] => Ok vars
    | x :: l' => step vars x ≫= fun vars' => go vars' l'
    end.

End Effects.

(* ================================================================== *)
(** ** The syntax tree handed over by ts-morph

    Each record holds what the getters called by [parse.ts] return for the
    node. *)

Module Syntax.

Inductive SyntaxKind : Type :=
| PrivateKeyword | ProtectedKeyword | PublicKeyword | StaticKeyword
| AsyncKeyword | ExportKeyword | DefaultKeyword | ReadonlyKeyword.

Definition SyntaxKind_eqb (a b : SyntaxKind) : bool :=
  match a, b with
  | PrivateKeyword, PrivateKeyword | ProtectedKeyword, ProtectedKeyword
  | PublicKeyword, PublicKeyword | StaticKeyword, StaticKeyword
  | AsyncKeyword, AsyncKeyword | ExportKeyword, ExportKeyword
  | DefaultKeyword, DefaultKeyword | ReadonlyKeyword, ReadonlyKeyword => true
  | _, _ => false
  end.

(** What [parseJSDoc] reads of a node: [getKindName()], the texts of
    [getJsDocs()] ([None] when the node has no such method, as on a
    variable declaration) and [getText()]. *)
Record Node : Type := mkNode {
  getKindName : string;
  getJsDocs : option (list string);
  getText : string
}.

Record FunctionDeclaration : Type := mkFunctionDeclaration {
  fnNode : Node;
  fnGetName : option string;
  fnIsAsync : bool;
  fnIsExported : bool;
  (** [getFirstDescendantByKind(SyntaxKind.ExportKeyword) !== undefined] *)
  fnHasExportKeyword : bool;
  (** [getFirstDescendantByKind(SyntaxKind.Identifier)?.getText()] *)
  fnFirstIdentifier : option string
}.

Record VariableDeclaration : Type := mkVariableDeclaration {
  varNode : Node;
  varGetName : string;
  (** [getInitializer()?.getText()] *)
  varInitializer : option string;
  varIsExported : bool;
  varFirstIdentifier : option string
}.

Record VariableStatement : Type := mkVariableStatement {
  stmtHasExportKeyword : bool;
  (** the declarations of the first [VariableDeclarationList], if any *)
  stmtDeclarations : option (list VariableDeclaration)
}.

Record MethodDeclaration : Type := mkMethodDeclaration {
  methNode : Node;
  methGetName : string;
  methIsStatic : bool;
  methIsAsync : bool;
  methModifiers : list SyntaxKind
}.

Record PropertyDeclaration : Type := mkPropertyDeclaration {
  propNode : Node;
  propGetName : string;
  propInitializer : option string;
  propModifiers : list SyntaxKind
}.

Record ParameterDeclaration : Type := mkParameterDeclaration {
  prmGetName : string;
  (** [getType().getText()] *)
  prmTypeText : string
}.

Record AccessorDeclaration : Type := mkAccessorDeclaration {
  accNode : Node;
  accGetName : string;
  accParameters : list ParameterDeclaration;
  accModifiers : list SyntaxKind
}.

Record ClassDeclaration : Type := mkClassDeclaration {
  clsGetName : option string;
  clsIsExported : bool;
  clsHasExportKeyword : bool;
  clsFirstIdentifier : option string;
  (** each constructor as the node [parseJSDoc] reads *)
  getConstructors : list Node;
  (** all methods, static or not *)
  getMethods : list MethodDeclaration;
  getProperties : list PropertyDeclaration;
  getGetAccessors : list AccessorDeclaration;
  getSetAccessors : list AccessorDeclaration
}.

(** [getStaticMethods()]: the static ones among [getMethods()]. *)
Definition getStaticMethods (c : ClassDeclaration) : list MethodDeclaration :=
  List.filter methIsStatic (getMethods c).

Definition hasModifier (modifiers : list SyntaxKind) (k : SyntaxKind) : bool :=
  existsb (SyntaxKind_eqb k) modifiers.

(** The [ModuleBlock] of a namespace: the descendants of each kind. *)
Record ModuleBlock (NS : Type) : Type := mkModuleBlock {
  blockFunctions : list FunctionDeclaration;
  blockClasses : list ClassDeclaration;
  blockVariableStatements : list VariableStatement;
  blockModules : list NS
}.
Arguments mkModuleBlock {NS}.
Arguments blockFunctions {NS}.
Arguments blockClasses {NS}.
Arguments blockVariableStatements {NS}.
Arguments blockModules {NS}.

#[warnings="-register-all"]
Inductive ModuleDeclaration : Type := mkModuleDeclaration {
  nsHasExportKeyword : bool;
  nsFirstIdentifier : option string;
  (** [getFirstDescendantByKind(SyntaxKind.ModuleBlock)] *)
  nsBody : option (ModuleBlock ModuleDeclaration)
}.

Record ImportDeclaration : Type := mkImportDeclaration {
  getModuleSpecifierValue : string;
  getDefaultImport : option string;
  getNamespaceImport : option string;
  getNamedImports : list string
}.

Record ExportDeclaration : Type := mkExportDeclaration {
  expModuleSpecifierValue : option string;
  getNamedExports : list string;
  expHasDefaultKeyword : bool
}.

Record ExportAssignment : Type := mkExportAssignment {
  isExportEquals : bool;
  getExpressionText : string
}.

Record SourceFile : Type := mkSourceFile {
  getBaseName : string;
  getFunctions : list FunctionDeclaration;
  getClasses : list ClassDeclaration;
  getVariableDeclarations : list VariableDeclaration;
  (** [getDescendantsOfKind(SyntaxKind.ModuleDeclaration)] *)
  getModuleDeclarations : list ModuleDeclaration;
  (** the texts of [getChildrenOfKind(SyntaxKind.JSDocComment)] *)
  getJSDocComments : list string;
  getImportDeclarations : list ImportDeclaration;
  getExportDeclarations : list ExportDeclaration;
  getExportAssignments : list ExportAssignment;
  (** the keys of [getExportedDeclarations()], as [String(key)] *)
  getExportedDeclarations : list string
}.

End Syntax.

(* ================================================================== *)
(** ** Blocks returned by comment-parser *)

Module Comment.

Record Tag : Type := mkTag {
  tag : string;
  tagName : string;
  tagType : string;
  tagDescription : string
}.

Record Block : Type := mkBlock {
  blockDescription : string;
  blockTags : list Tag
}.

(** The value [parseJSDoc] returns. *)
Record JSDocInfo : Type := mkJSDocInfo {
  docDescription : string;
  docTags : list Tag
}.

Definition emptyJSDoc : JSDocInfo := mkJSDocInfo "" [].

End Comment.

(* ================================================================== *)
(** ** [class ModuleParser] ([parse.ts]) *)

Module ModuleParser.
Import JsString Regex Types TypeParser Effects Syntax Comment.

(** [a || b] on strings *)
Definition orElse (a b : string) : string := if truthy a then a else b.

(** [Partial<ASTParserConfig>] *)
Record PartialConfig : Type := mkPartialConfig {
  optInstanceMethods : option bool;
  optStaticMethods : option bool;
  optPropertyMethods : option bool;
  optGetAccessors : option bool;
  optSetAccessors : option bool;
  optArrowFunctions : option bool;
  optComplexTypes : option bool
}.

(** [{}] *)
Definition emptyConfig : PartialConfig :=
  mkPartialConfig None None None None None None None.

(** [{ ...DEFAULT_AST_CONFIG, ...config }] *)
Definition mergeConfig (config : PartialConfig) : ASTParserConfig :=
  let d := DEFAULT_AST_CONFIG in
  mkConfig
    (default (captureInstanceMethods d) (optInstanceMethods config))
    (default (captureStaticMethods d) (optStaticMethods config))
    (default (capturePropertyMethods d) (optPropertyMethods config))
    (default (captureGetAccessors d) (optGetAccessors config))
    (default (captureSetAccessors d) (optSetAccessors config))
    (default (captureArrowFunctions d) (optArrowFunctions config))
    (default (captureComplexTypes d) (optComplexTypes config)).

(** [typeMatch ? typeMatch[1] : tag.type] *)
Definition extractedType (type : string) : string :=
  match exec reBraces type with
  | Some typeMatch => group typeMatch 1
  | None => type
  end.

Definition processTag (t : Tag) : Tag :=
  if String.eqb (tag t) "param" && truthy (tagType t) then
    mkTag (tag t) (tagName t) (extractedType (tagType t)) (tagDescription t)
  else if String.eqb (tag t) "returns" && truthy (tagType t) then
    mkTag (tag t) "" (extractedType (tagType t)) (tagDescription t)
  else
    mkTag (tag t) (tagName t) (tagType t) (tagDescription t).

Definition createMethodInfo (name description : string)
    (params : list ParamInfo) (returns : option ReturnInfo)
    (methodKind : MethodKind) (isAsync : bool) (visibility : Visibility)
    : MethodInfo :=
  mkMethodInfo name description params returns methodKind isAsync visibility.

(** The [let visibility = 'public'; if (...) ...; if (...) ...] idiom. *)
Definition visibilityOf (modifiers : list SyntaxKind) : Visibility :=
  let visibility := Public in
  let visibility :=
    if hasModifier modifiers PrivateKeyword then Private else visibility in
  if hasModifier modifiers ProtectedKeyword then Protected else visibility.

Section WithParser.
(** [commentParserDefault], imported from comment-parser: it returns
    the blocks of a comment text, or throws. *)
Variable commentParserDefault : string -> outcome (option (list Block)).
(** [this.config] *)
Variable config : ASTParserConfig.

Definition parseJSDoc (node : Node) : outcome JSDocInfo :=
  let jsDocs :=
    if negb (String.eqb (getKindName node) "JSDoc")
    then default [] (getJsDocs node)
    else [getText node] in
  match jsDocs with
  | [] => Ok emptyJSDoc
  | jsDocText :: _ =>
      tryCatch
        (parsed ← commentParserDefault jsDocText;
         match parsed with
         | None | Some [] => Ok emptyJSDoc
         | Some (first :: _) =>
             if existsb (fun t => String.eqb (tag t) "module")
                  (blockTags first)
             then Ok emptyJSDoc
             else Ok (mkJSDocInfo (blockDescription first)
                        (map processTag (blockTags first)))
         end)
        (fun _ => Ok emptyJSDoc)
  end.

Definition extractParams (jsDoc : JSDocInfo) : list ParamInfo :=
  let paramTags :=
    List.filter (fun t => String.eqb (tag t) "param") (docTags jsDoc) in
  map (fun t =>
         let name := remove reLeadingUnderscore (tagName t) in
         let isOptional :=
           startsWith (tagName t) "_" ||
           includes (tagDescription t) "(optional)" in
         mkParamInfo name (parseType config (tagType t))
           (tagDescription t) isOptional)
      paramTags.

Definition extractReturns (jsDoc : JSDocInfo) : option ReturnInfo :=
  match List.find (fun t => String.eqb (tag t) "returns") (docTags jsDoc) with
  | None => None
  | Some returnTag =>
      if negb (truthy (tagType returnTag)) then None
      else Some (mkReturnInfo (parseType config (tagType returnTag))
                   (tagDescription returnTag))
  end.

Definition processFunctionDeclaration (declaration : FunctionDeclaration)
    (namePrefix : option string) : M unit :=
  let funcName := default "" (fnGetName declaration) in
  let name := orElse (default "" namePrefix) funcName in
  jsDoc ← lift (parseJSDoc (fnNode declaration));
  let params := extractParams jsDoc in
  let returns := extractReturns jsDoc in
  let isAsync := fnIsAsync declaration in
  assign name
    (createMethodInfo name (docDescription jsDoc) params returns
       KFunction isAsync Public).

Definition processVariableDeclaration (declaration : VariableDeclaration)
    (namePrefix : option string) : M unit :=
  let name := orElse (default "" namePrefix) (varGetName declaration) in
  match varInitializer declaration with
  | None => mret tt
  | Some text =>
      if negb (includes text "=>") && negb (startsWith text "function")
         && negb (startsWith text "async function")
      then mret tt
      else
        jsDoc ← lift (parseJSDoc (varNode declaration));
        let params := extractParams jsDoc in
        let returns := extractReturns jsDoc in
        let isAsync := startsWith text "async" in
        assign name
          (createMethodInfo name (docDescription jsDoc) params returns
             KFunction isAsync Public)
  end.

Definition processMethod (method : MethodDeclaration) (className : string)
    (methodKind : MethodKind) (visibility : Visibility) : M unit :=
  let name := methGetName method in
  let fullName := className +:+ "." +:+ name in
  jsDoc ← lift (parseJSDoc (methNode method));
  let params := extractParams jsDoc in
  let returns := extractReturns jsDoc in
  let isAsync := methIsAsync method in
  assign fullName
    (createMethodInfo fullName (docDescription jsDoc) params returns
       methodKind isAsync visibility).

Definition processPropertyMethod (property : PropertyDeclaration)
    (className : string) : M unit :=
  let name := propGetName property in
  let fullName := className +:+ "." +:+ name in
  jsDoc ← lift (parseJSDoc (propNode property));
  let params := extractParams jsDoc in
  let returns := extractReturns jsDoc in
  let isAsync :=
    match propInitializer property with
    | Some text => startsWith text "async"
    | None => false
    end in
  let visibility := visibilityOf (propModifiers property) in
  assign fullName
    (createMethodInfo fullName (docDescription jsDoc) params returns
       KProperty isAsync visibility).

(** [methodKind] is [KGetter] or [KSetter]. *)
Definition processAccessor (accessor : AccessorDeclaration)
    (className : string) (methodKind : MethodKind) : M unit :=
  let name := accGetName accessor in
  let fullName := className +:+ "." +:+ name in
  jsDoc ← lift (parseJSDoc (accNode accessor));
  let params :=
    match methodKind, accParameters accessor with
    | KSetter, param :: _ =>
        let paramName := orElse (prmGetName param) "value" in
        let paramType := prmTypeText param in
        let paramDescription :=
          match List.find
                  (fun t => String.eqb (tag t) "param" &&
                            String.eqb (tagName t) paramName)
                  (docTags jsDoc) with
          | Some t => tagDescription t
          | None => ""
          end in
        [mkParamInfo paramName (parseType config paramType)
           paramDescription false]
    | _, _ => []
    end in
  let returns :=
    match methodKind with
    | KGetter => extractReturns jsDoc
    | _ => None
    end in
  let visibility := visibilityOf (accModifiers accessor) in
  assign fullName
    (createMethodInfo fullName (docDescription jsDoc) params returns
       methodKind false visibility).

(** The first block of [processClassDeclaration]: constructors. *)
Definition processConstructors (declaration : ClassDeclaration)
    (className : string) : M unit :=
  match getConstructors declaration with
  | [] => mret tt
  | constructor :: _ =>
      jsDoc ← lift (parseJSDoc constructor);
      let params := extractParams jsDoc in
      assign (className +:+ ".constructor")
        (createMethodInfo (className +:+ ".constructor")
           (docDescription jsDoc) params None KConstructor false Public)
  end.

Definition processClassDeclaration (declaration : ClassDeclaration)
    (className : string) : M unit :=
  processConstructors declaration className;;
  when (captureInstanceMethods config)
    (forEach (fun method =>
                if methIsStatic method then mret tt
                else processMethod method className KInstance
                       (visibilityOf (methModifiers method)))
       (getMethods declaration));;
  when (captureStaticMethods config)
    (forEach (fun method =>
                processMethod method className KStatic
                  (visibilityOf (methModifiers method)))
       (getStaticMethods declaration));;
  when (capturePropertyMethods config)
    (forEach (fun property =>
                match propInitializer property with
                | None => mret tt
                | Some initializerText =>
                    when (includes initializerText "=>" ||
                          includes initializerText "function")
                      (processPropertyMethod property className)
                end)
       (getProperties declaration));;
  when (captureGetAccessors config)
    (forEach (fun getter => processAccessor getter className KGetter)
       (getGetAccessors declaration));;
  when (captureSetAccessors config)
    (forEach (fun setter => processAccessor setter className KSetter)
       (getSetAccessors declaration)).

Fixpoint processNamespaceDeclaration (namespace : ModuleDeclaration)
    (namespaceName : string) {struct namespace} : M unit :=
  match namespace with
  | mkModuleDeclaration _ _ None => mret tt
  | mkModuleDeclaration _ _ (Some body) =>
      forEach (fun funcNode =>
                 tryNoOp
                   (when (fnHasExportKeyword funcNode)
                      (let funcName :=
                         default "" (fnFirstIdentifier funcNode) in
                       processFunctionDeclaration funcNode
                         (Some (namespaceName +:+ "." +:+ funcName)))))
        (blockFunctions body);;
      forEach (fun clsNode =>
                 tryNoOp
                   (when (clsHasExportKeyword clsNode)
                      (let className :=
                         default "" (clsFirstIdentifier clsNode) in
                       processClassDeclaration clsNode
                         (namespaceName +:+ "." +:+ className))))
        (blockClasses body);;
      forEach (fun stmtNode =>
                 tryNoOp
                   (when (stmtHasExportKeyword stmtNode)
                      (forEach (fun declaration =>
                                  let varName :=
                                    default ""
                                      (varFirstIdentifier declaration) in
                                  processVariableDeclaration declaration
                                    (Some (namespaceName +:+ "." +:+ varName)))
                         (default [] (stmtDeclarations stmtNode)))))
        (blockVariableStatements body);;
      forEach (fun nestedNode =>
                 tryNoOp
                   (when (nsHasExportKeyword nestedNode)
                      (let nestedName :=
                         default "" (nsFirstIdentifier nestedNode) in
                       processNamespaceDeclaration nestedNode
                         (namespaceName +:+ "." +:+ nestedName))))
        (blockModules body)
  end.

Definition extractImports (sourceFile : SourceFile) : list ImportInfo :=
  map (fun importDecl =>
         let defaultImport := default "" (getDefaultImport importDecl) in
         let namespaceImport :=
           default "" (getNamespaceImport importDecl) in
         mkImportInfo (getModuleSpecifierValue importDecl)
           (truthy defaultImport) (truthy namespaceImport)
           (getNamedImports importDecl))
      (getImportDeclarations sourceFile).

(** [moduleSpecifier || undefined] *)
Definition orUndefined (s : option string) : option string :=
  match s with
  | Some x => if truthy x then Some x else None
  | None => None
  end.

Definition extractExports (sourceFile : SourceFile) : list ExportInfo :=
  concat
    (map (fun exportDecl =>
            let moduleSpecifier := expModuleSpecifierValue exportDecl in
            let isReexport := truthy (default "" moduleSpecifier) in
            match getNamedExports exportDecl with
            | [] =>
                if expHasDefaultKeyword exportDecl
                then [mkExportInfo "default" true isReexport
                        (orUndefined moduleSpecifier)]
                else []
            | namedExports =>
                map (fun named =>
                       mkExportInfo named false isReexport
                         (orUndefined moduleSpecifier))
                    namedExports
            end)
         (getExportDeclarations sourceFile))
  ++ map (fun exportAssign =>
            mkExportInfo (getExpressionText exportAssign)
              (negb (isExportEquals exportAssign)) false None)
         (getExportAssignments sourceFile)
  ++ map (fun keyStr =>
            mkExportInfo keyStr (String.eqb keyStr "default") false None)
         (getExportedDeclarations sourceFile).

(** One turn of the loop of [extractModuleInfo] on the pair of local
    variables [(name, description)]. *)
Definition moduleInfoStep (vars : string * string) (jsDocText : string)
    : outcome (string * string) :=
  tryCatch
    (parsedComments ← commentParserDefault jsDocText;
     match parsedComments with
     | Some (parsedComment :: _) =>
         let moduleTag :=
           List.find (fun t => String.eqb (tag t) "module")
             (blockTags parsedComment) in
         let name :=
           match moduleTag with
           | Some t => if truthy (tagName t) then tagName t else vars.1
           | None => vars.1
           end in
         Ok (name, blockDescription parsedComment)
     | _ => Ok vars
     end)
    (fun _ => Ok vars).

Definition extractModuleInfo (sourceFile : SourceFile)
    : outcome ModuleInfo :=
  let fileName := getBaseName sourceFile in
  let name := remove reExtension fileName in
  let description := "" in
  vars ← forOf moduleInfoStep (name, description)
           (getJSDocComments sourceFile);
  let imports := extractImports sourceFile in
  let exports := extractExports sourceFile in
  Ok (mkModuleInfo vars.1 vars.2 fileName imports exports).

(** The four loops of [parseSourceFile] over the record [methods]. *)
Definition walk (sourceFile : SourceFile) : M unit :=
  forEach (fun func =>
             when (fnIsExported func)
               (processFunctionDeclaration func None))
    (getFunctions sourceFile);;
  forEach (fun cls =>
             when (clsIsExported cls)
               (let className := default "" (clsGetName cls) in
                processClassDeclaration cls className))
    (getClasses sourceFile);;
  forEach (fun declaration =>
             when (varIsExported declaration)
               (processVariableDeclaration declaration None))
    (getVariableDeclarations sourceFile);;
  forEach (fun namespaceNode =>
             tryNoOp
               (when (nsHasExportKeyword namespaceNode)
                  (let namespaceName :=
                     default "" (nsFirstIdentifier namespaceNode) in
                   processNamespaceDeclaration namespaceNode
                     namespaceName)))
    (getModuleDeclarations sourceFile).

Definition parseSourceFile (sourceFile : SourceFile)
    : outcome ParsedModuleResult :=
  let '(done, methods) := walk sourceFile ∅ in
  _ ← done;
  moduleInfo ← extractModuleInfo sourceFile;
  Ok (mkParsedModuleResult methods moduleInfo).

End WithParser.

(** What the runtime provides: [Deno.cwd()] and [Deno.readTextFile]. *)
Record Deno : Type := mkDeno {
  cwd : string;
  readTextFile : string -> outcome string
}.

Section WithProject.
Variable commentParserDefault : string -> outcome (option (list Block)).
(** ts-morph's [Project]: [new Project({})] and
    [project.createSourceFile(filePath, text)], which parses the text
    and adds the file to the project. *)
Variable Project : Type.
Variable newProject : Project.
Variable createSourceFile :
  Project -> string -> string -> outcome SourceFile * Project.
(** [isAbsolute] and [join] of [@std/path]. *)
Variable isAbsolute : string -> bool.
Variable join : string -> string -> string.

(** The fields of a [ModuleParser] object. *)
Record Parser : Type := mkParser {
  filePath : string;
  project : Project;
  config : ASTParserConfig
}.

(** [new ModuleParser(filePath, config)] *)
Definition new (filePath : string) (config : PartialConfig) : Parser :=
  mkParser filePath newProject (mergeConfig config).

(** [parse()]: the [catch] clause rethrows. *)
Definition parse (this : Parser) (deno : Deno)
    : outcome ParsedModuleResult * Parser :=
  let absolutePath := filePath this in
  let absolutePath :=
    if negb (isAbsolute absolutePath)
    then join (cwd deno) absolutePath
    else absolutePath in
  match readTextFile deno absolutePath with
  | Throw error => (Throw error, this)
  | Ok fileContent =>
      let '(created, project') :=
        createSourceFile (project this) "temp.ts" fileContent in
      let this' := mkParser (filePath this) project' (config this) in
      match created with
      | Throw error => (Throw error, this')
      | Ok sourceFile =>
          (parseSourceFile commentParserDefault (config this) sourceFile,
           this')
      end
  end.

(** The path [parse] reads for a parser made on [filePath]. *)
Definition resolved (deno : Deno) (filePath : string) : string :=
  if negb (isAbsolute filePath) then join (cwd deno) filePath else filePath.

(** [new ModuleToCLI(filePath, config).get()] *)
Definition get (filePath : string) (config : PartialConfig) (deno : Deno)
    : outcome ParsedModuleResult :=
  (parse (new filePath config) deno).1.

End WithProject.

End ModuleParser.

(* ================================================================== *)
(** ** Simplified shapes ([types.ts]) and their converters ([print.ts]) *)

Module Print.
Import Types.

Record SimplifiedParam : Type := mkSimplifiedParam {
  spName : string;
  spType : string;
  spDescription : string;
  spOptional : bool
}.

Record SimplifiedTypeInfo : Type := mkSimplifiedTypeInfo {
  stType : string;
  stDescription : string
}.

Record SimplifiedMethodInfo : Type := mkSimplifiedMethodInfo {
  smName : string;
  smParams : list SimplifiedParam;
  smDescription : string;
  smReturns : option SimplifiedTypeInfo;
  smMethodKind : MethodKind
}.

Record SimplifiedImportInfo : Type := mkSimplifiedImportInfo {
  siModule : string;
  siIsDefault : bool;
  siIsNamespace : bool;
  siNamedImports : list string
}.

Record SimplifiedExportInfo : Type := mkSimplifiedExportInfo {
  seName : string;
  seIsDefault : bool;
  seIsReexport : bool;
  seSourceModule : option string
}.

Record SimplifiedModuleInfo : Type := mkSimplifiedModuleInfo {
  simpleName : string;
  simpleDescription : string;
  simpleFileName : string;
  simpleImports : list SimplifiedImportInfo;
  simpleExports : list SimplifiedExportInfo
}.

(** [ModuleSpec] *)
Record ModuleSpec : Type := mkModuleSpec {
  specMethods : gmap string MethodInfo;
  specModule : SimplifiedModuleInfo
}.

Definition printSimpleMethodInfo (methods : gmap string MethodInfo)
    : gmap string SimplifiedMethodInfo :=
  (fun method =>
     mkSimplifiedMethodInfo (name method)
       (map (fun p => mkSimplifiedParam (paramName p)
                        (rawType (paramType p)) (paramDescription p)
                        (paramOptional p))
            (params method))
       (description method)
       (match returns method with
        | Some r => Some (mkSimplifiedTypeInfo (rawType (returnType r))
                            (returnDescription r))
        | None => None
        end)
       (methodKind method)) <$> methods.

Definition printSimpleModuleInfo (moduleInfo : ModuleInfo)
    : SimplifiedModuleInfo :=
  mkSimplifiedModuleInfo (moduleInfoName moduleInfo)
    (moduleDescription moduleInfo) (fileName moduleInfo)
    (map (fun i => mkSimplifiedImportInfo (moduleName i) (importIsDefault i)
                     (isNamespace i) (namedImports i))
         (imports moduleInfo))
    (map (fun e => mkSimplifiedExportInfo (exportName e) (exportIsDefault e)
                     (isReexport e) (sourceModule e))
         (exports moduleInfo)).

End Print.

(* ================================================================== *)
(** ** The command line: [spec.ts] and [main.ts]

    A run is the list of the effects it performs, in order, and the way it
    ends.  The values that cross the boundary with the imported module are
    [JsValue]s; what the imported module does when called is given by the
    [Runtime]. *)

Module Cli.
Import JsString Types Effects Print.

#[warnings="-register-all"]
Inductive JsValue : Type :=
| JUndefined
| JNull
| JString (s : string)
| JBool (b : bool)
(** [Number(text)] *)
| JNumber (text : string)
| JArray (items : list JsValue)
(** a value built by [JSON.parse] or by the imported module *)
| JForeign (repr : string).

(** A value of the imported module that can be called, constructed or
    indexed; [objMember] is [None] for a falsy member. *)
#[warnings="-register-all"]
Inductive JsObject : Type := mkJsObject {
  objCall : list JsValue -> outcome JsValue;
  objConstruct : list JsValue -> outcome JsObject;
  objMember : string -> option JsObject
}.

(** A property of the object returned by [parseArgs], other than [_]. *)
Inductive FlagValue : Type :=
| FBool (b : bool)
(** a string or a number, as [String(v)] renders it *)
| FText (s : string).

Record Flags : Type := mkFlags {
  named : gmap string FlagValue;
  (** [flags._], each entry as [String] renders it *)
  positional : list string;
  (** the arguments [parseArgs] passed to its [unknown] callback *)
  unknown : list string
}.

Record ParseOptions : Type := mkParseOptions {
  boolean : list string;
  alias : list (string * string)
}.

Record Runtime : Type := mkRuntime {
  (** [parseArgs] of [@std/cli] *)
  parseArgs : list string -> ParseOptions -> Flags;
  (** [JSON.parse]; [None] when it throws *)
  jsonParse : string -> option JsValue;
  (** [await import(moduleName)]: the exports by name *)
  dynamicImport : string -> outcome (string -> option JsObject)
}.

Inductive JsonOutput : Type :=
| JsonFull (result : ParsedModuleResult)
| JsonSimple (methods : gmap string SimplifiedMethodInfo)
             (module : SimplifiedModuleInfo).

Inductive Event : Type :=
(** [console.log(JSON.stringify(output, null, 2))] *)
| EConsoleLogJson (output : JsonOutput)
| EConsoleLog (text : string)
| EConsoleWarn (text : string)
| EConsoleError (text : string)
| EPrintModuleInfo (moduleInfo : ModuleInfo) (useSimpleFormat : bool)
| EPrintModuleMethods (methods : gmap string MethodInfo)
                      (useSimpleFormat : bool)
| EPrintMenu
| EPrintMenuForModule (spec : ModuleSpec)
| EPrintMenuForSpecificationGenerator
| EPrintError (message error : string)
(** [await import(moduleName)] *)
| EImport (moduleName : string)
(** [new module[className](...args)] *)
| ENew (className : string) (args : list JsValue)
(** a call of a function or method of the imported module *)
| ECall (callee : list string) (args : list JsValue)
(** [console.log(Deno.inspect(result, ...))] *)
| EInspect (result : JsValue).

Inductive completion : Type :=
| Returned
| Exited (code : Z)
| Thrown (error : string).

(** The effects that touch the target module: importing it, constructing
    one of its classes, calling one of its functions or methods. *)
Definition isExecution (e : Event) : bool :=
  match e with
  | EImport _ | ENew _ _ | ECall _ _ => true
  | _ => false
  end.

(** [flags.k] for a boolean option [k] *)
Definition flagBool (flags : Flags) (k : string) : bool :=
  match named flags !! k with
  | Some (FBool b) => b
  | Some (FText s) => truthy s
  | None => false
  end.

(** The properties every plain object inherits from [Object.prototype],
    each with what [String] makes of its value: eleven functions, and the
    accessor [__proto__], whose value is [Object.prototype] itself. *)
Definition objectPrototype : list (string * string) :=
  let native (name : string) :=
    "function " +:+ name +:+ "() { [native code] }" in
  [("constructor", native "Object");
   ("__defineGetter__", native "__defineGetter__");
   ("__defineSetter__", native "__defineSetter__");
   ("hasOwnProperty", native "hasOwnProperty");
   ("__lookupGetter__", native "__lookupGetter__");
   ("__lookupSetter__", native "__lookupSetter__");
   ("isPrototypeOf", native "isPrototypeOf");
   ("propertyIsEnumerable", native "propertyIsEnumerable");
   ("toString", native "toString");
   ("valueOf", native "valueOf");
   ("__proto__", "[object Object]");
   ("toLocaleString", native "toLocaleString")].

(** [String(Object.prototype[k])] when [k in Object.prototype] *)
Definition inheritedProperty (k : string) : option string :=
  snd <$> List.find (fun entry => String.eqb (fst entry) k) objectPrototype.

(** [k in flags]: an own property of the object, or an inherited one. *)
Definition flagIn (flags : Flags) (k : string) : bool :=
  String.eqb k "_" || bool_decide (is_Some (named flags !! k))
  || bool_decide (is_Some (inheritedProperty k)).

(** [String(flags[k])] when [flags[k] !== undefined] *)
Definition flagText (flags : Flags) (k : string) : option string :=
  if String.eqb k "_" then Some (String.concat "," (positional flags))
  else match named flags !! k with
       | Some (FBool b) => Some (if b then "true" else "false")
       | Some (FText s) => Some s
       | None => inheritedProperty k
       end.

Section WithRuntime.
Variable commentParserDefault :
  string -> outcome (option (list Comment.Block)).
Variable Project : Type.
Variable newProject : Project.
Variable createSourceFile :
  Project -> string -> string -> outcome Syntax.SourceFile * Project.
Variable isAbsolute : string -> bool.
Variable join : string -> string -> string.
Variable runtime : Runtime.
Variable deno : ModuleParser.Deno.

(** [new ModuleToCLI(filePath, {}).get()] *)
Definition moduleToCLI_get (filePath : string)
    : outcome ParsedModuleResult :=
  ModuleParser.get commentParserDefault Project newProject
    createSourceFile isAbsolute join filePath ModuleParser.emptyConfig deno.

(** *** [spec.ts] *)

Record ModuleProcessingConfig : Type := mkModuleProcessingConfig {
  cfgFilePath : string;
  outputJson : bool;
  useSimpleFormat : bool
}.

Record CommandLineResult : Type := mkCommandLineResult {
  cmdConfig : option ModuleProcessingConfig;
  exitCode : Z;
  helpDisplayed : bool
}.

Definition specOptions : ParseOptions :=
  mkParseOptions ["help"; "json"; "simple"]
    [("h", "help"); ("j", "json"); ("s", "simple")].

Definition parseCommandLineArgs (denoArgs : list string)
    : list Event * CommandLineResult :=
  let args :=
    match denoArgs with
    | first :: rest => if String.eqb first "generate" then rest else denoArgs
    | [] => denoArgs
    end in
  let flags := parseArgs runtime args specOptions in
  let warnings :=
    map (fun arg => EConsoleWarn ("Warning: Unknown option " +:+ arg))
        (List.filter (fun arg => startsWith arg "-") (unknown flags)) in
  if flagBool flags "help" then
    (warnings ++ [EPrintMenuForSpecificationGenerator],
     mkCommandLineResult None 0 true)
  else
    match positional flags with
    | [] =>
        (warnings ++ [EConsoleError "Error: Missing path to module";
                      EPrintMenuForSpecificationGenerator],
         mkCommandLineResult None 1 true)
    | first :: _ =>
        (warnings,
         mkCommandLineResult
           (Some (mkModuleProcessingConfig first (flagBool flags "json")
                    (flagBool flags "simple")))
           0 false)
    end.

(** The error is printed as its message. *)
Definition generateModuleSpecification (config : ModuleProcessingConfig)
    : list Event * completion :=
  match moduleToCLI_get (cfgFilePath config) with
  | Ok result =>
      if outputJson config then
        let output :=
          if useSimpleFormat config
          then JsonSimple (printSimpleMethodInfo (methods result))
                 (printSimpleModuleInfo (module result))
          else JsonFull result in
        ([EConsoleLogJson output], Exited 0)
      else
        ([EPrintModuleInfo (module result) (useSimpleFormat config);
          EConsoleLog "";
          EPrintModuleMethods (methods result) (useSimpleFormat config)],
         Returned)
  | Throw error => ([EConsoleError error], Thrown error)
  end.

(** [main] of [spec.ts], imported by [main.ts] as [cliMain]. *)
Definition cliMain (denoArgs : list string) : list Event * completion :=
  let '(events, result) := parseCommandLineArgs denoArgs in
  match cmdConfig result with
  | None => (events, Exited (exitCode result))
  | Some config =>
      let '(events', outcome) := generateModuleSpecification config in
      match outcome with
      | Thrown _ => (events ++ events', Exited 1)
      | _ => (events ++ events', outcome)
      end
  end.

(** *** [main.ts] *)

Definition convertValue (value : string) (type : TypeInfo) : JsValue :=
  if isNullable type &&
     (String.eqb value "null" || String.eqb value "undefined")
  then JNull
  else if String.eqb (baseType type) "number" then JNumber value
  else if String.eqb (baseType type) "boolean"
  then JBool (String.eqb value "true")
  else if String.eqb (baseType type) "object" then
    match jsonParse runtime value with
    | Some v => v
    | None => JString value
    end
  else if String.eqb (baseType type) "array" then
    match jsonParse runtime value with
    | Some v => v
    | None => JArray (map (fun item => JString (trim item))
                        (split "," value))
    end
  else JString value.

(** [main] does not call this one: it fills [constructorArgs] itself. *)
Definition getConstructorArgs (args : Flags)
    (constructorInfo : option MethodInfo) : list JsValue :=
  match constructorInfo with
  | None => []
  | Some info =>
      map (fun param =>
             let argKey := "constructor." +:+ paramName param in
             match flagText args argKey with
             | Some text => convertValue text (paramType param)
             | None => JUndefined
             end)
          (params info)
  end.

Definition getMethodArgs (args : Flags) (methodInfo : MethodInfo)
    : list JsValue :=
  map (fun param =>
         match flagText args (paramName param) with
         | Some text => convertValue text (paramType param)
         | None => JUndefined
         end)
      (params methodInfo).

Definition parseModule (modulePath : string)
    : list Event * option ModuleSpec :=
  match moduleToCLI_get modulePath with
  | Ok parsedModule =>
      ([], Some (mkModuleSpec (methods parsedModule)
                   (printSimpleModuleInfo (module parsedModule))))
  | Throw error =>
      ([EPrintError ("Failed to parse module: " +:+ modulePath) error],
       None)
  end.

Definition importModule (modulePath : string)
    : list Event * option (string -> option JsObject) :=
  let workingDir := ModuleParser.cwd deno in
  let moduleName :=
    if negb (startsWith modulePath "/")
    then workingDir +:+ "/" +:+ modulePath
    else modulePath in
  let moduleName := "file://" +:+ moduleName in
  match dynamicImport runtime moduleName with
  | Ok module => ([EImport moduleName], Some module)
  | Throw error =>
      ([EImport moduleName;
        EPrintError ("Failed to import module: " +:+ modulePath) error],
       None)
  end.

(** [parts[i]] of [methodName.split('.')] *)
Definition part (methodName : string) (i : nat) : option string :=
  split "." methodName !! i.

Definition executeFunctionMethod (module : string -> option JsObject)
    (methodName : string) (methodInfo : MethodInfo) (args : Flags)
    : list Event * JsValue :=
  let fnName := default "" (part methodName 0) in
  match module fnName with
  | None =>
      ([EConsoleError ("Function not found in module: " +:+ methodName)],
       JNull)
  | Some fn =>
      let methodArgs := getMethodArgs args methodInfo in
      match objCall fn methodArgs with
      | Ok result => ([ECall [fnName] methodArgs], result)
      | Throw error =>
          ([ECall [fnName] methodArgs;
            EPrintError ("Error executing function: " +:+ methodName)
              error],
           JNull)
      end
  end.

(** [f(...args)] where [f] may be undefined. *)
Definition callMember (f : option JsObject) (args : list JsValue)
    : outcome JsValue :=
  match f with
  | Some fn => objCall fn args
  | None => Throw "TypeError: not a function"
  end.

Definition executeInstanceMethod (module : string -> option JsObject)
    (methodName : string) (methodInfo : MethodInfo) (args : Flags)
    (spec : ModuleSpec) (constructorArgs : gmap string string)
    : list Event * JsValue :=
  match part methodName 0, part methodName 1 with
  | Some className, Some method =>
      match module className with
      | None =>
          ([EConsoleError ("Class not found in module: " +:+ className)],
           JNull)
      | Some ClassConstructor =>
          let constructorInfo :=
            specMethods spec !! (className +:+ ".constructor") in
          let constructorValues :=
            match constructorInfo with
            | Some info =>
                map (fun param =>
                       let argKey := "constructor." +:+ paramName param in
                       match constructorArgs !! argKey with
                       | Some v => convertValue v (paramType param)
                       | None => JUndefined
                       end)
                    (params info)
            | None => []
            end in
          let failed error :=
            EPrintError
              ("Error executing instance method: " +:+ methodName) error in
          match objConstruct ClassConstructor constructorValues with
          | Throw error =>
              ([ENew className constructorValues; failed error], JNull)
          | Ok instance =>
              let methodArgs := getMethodArgs args methodInfo in
              match callMember (objMember instance method) methodArgs with
              | Ok result =>
                  ([ENew className constructorValues;
                    ECall [className; method] methodArgs], result)
              | Throw error =>
                  ([ENew className constructorValues;
                    ECall [className; method] methodArgs; failed error],
                   JNull)
              end
          end
      end
  | _, _ =>
      ([EConsoleError ("Invalid class method name: " +:+ methodName)],
       JNull)
  end.

Definition executeStaticMethod (module : string -> option JsObject)
    (methodName : string) (methodInfo : MethodInfo) (args : Flags)
    : list Event * JsValue :=
  match part methodName 0, part methodName 1 with
  | Some className, Some method =>
      match module className with
      | None =>
          ([EConsoleError ("Class not found in module: " +:+ className)],
           JNull)
      | Some ClassConstructor =>
          let methodArgs := getMethodArgs args methodInfo in
          match callMember (objMember ClassConstructor method) methodArgs with
          | Ok result => ([ECall [className; method] methodArgs], result)
          | Throw error =>
              ([ECall [className; method] methodArgs;
                EPrintError
                  ("Error executing static method: " +:+ methodName) error],
               JNull)
          end
      end
  | _, _ =>
      ([EConsoleError ("Invalid static method name: " +:+ methodName)],
       JNull)
  end.

(** [param.name.charAt(0)] *)
Definition charAt0 (s : string) : string := take 1 s.

Definition getMissingParams (methodInfo : MethodInfo) (flags : Flags)
    : list string :=
  map paramName
    (List.filter
       (fun param =>
          negb (paramOptional param) &&
          negb (flagIn flags (paramName param)) &&
          negb (flagIn flags (charAt0 (paramName param))))
       (params methodInfo)).

Definition mainOptions : ParseOptions :=
  mkParseOptions ["help"] [("h", "help")].

(** The loop that fills [constructorArgs]. *)
Definition collectConstructorArgs (rawArgs : list string)
    : gmap string string :=
  foldl (fun constructorArgs arg =>
           if startsWith arg "--constructor." then
             match split "=" (drop 2 arg) with
             | key :: (_ :: _) as values =>
                 <[key := String.concat "=" values]> constructorArgs
             | _ => constructorArgs
             end
           else constructorArgs)
        ∅ rawArgs.

Definition methodKindName (k : MethodKind) : string :=
  match k with
  | KInstance => "instance" | KStatic => "static"
  | KProperty => "property" | KGetter => "getter" | KSetter => "setter"
  | KFunction => "function" | KConstructor => "constructor"
  end.

Definition signatureText (methodName : string) (methodInfo : MethodInfo)
    : string :=
  methodName +:+ "(" +:+
  String.concat ", "
    (map (fun p => paramName p +:+ (if paramOptional p then "?" else "")
                   +:+ ": " +:+ rawType (paramType p))
         (params methodInfo)) +:+ ")".

(** What [main] does once the method is known to be public and all its
    required parameters are given. *)
Definition dispatch (modulePath methodName : string)
    (methodInfo : MethodInfo) (flags : Flags) (spec : ModuleSpec)
    (constructorArgs : gmap string string) : list Event :=
  let '(imported, module) := importModule modulePath in
  match module with
  | None => imported
  | Some module =>
      let executed :=
        match methodKind methodInfo with
        | KFunction =>
            Some (executeFunctionMethod module methodName methodInfo flags)
        | KInstance =>
            Some (executeInstanceMethod module methodName methodInfo flags
                    spec constructorArgs)
        | KStatic =>
            Some (executeStaticMethod module methodName methodInfo flags)
        | _ => None
        end in
      match executed with
      | None =>
          imported ++
          [EConsoleError ("Unsupported method kind: " +:+
                          methodKindName (methodKind methodInfo))]
      | Some (events, result) =>
          imported ++ events ++
          match result with
          | JNull => []
          | _ => [EInspect result]
          end
      end
  end.

Definition main (denoArgs : list string) : list Event * completion :=
  if match denoArgs with
     | first :: _ => String.eqb first "generate"
     | [] => false
     end
  then cliMain denoArgs
  else
    let flags := parseArgs runtime denoArgs mainOptions in
    let rawArgs := denoArgs in
    let constructorArgs := collectConstructorArgs rawArgs in
    if flagBool flags "help" || (length (positional flags) <? 1)
    then ([EPrintMenu], Returned)
    else
      let modulePath := default "" (positional flags !! 0) in
      let methodName := positional flags !! 1 in
      let '(parsed, spec) := parseModule modulePath in
      match spec with
      | None => (parsed, Returned)
      | Some spec =>
          match methodName with
          | None => (parsed ++ [EPrintMenuForModule spec], Returned)
          | Some methodName =>
              if negb (truthy methodName) then
                (parsed ++ [EPrintMenuForModule spec], Returned)
              else
                match specMethods spec !! methodName with
                | None =>
                    (* [spec.methods[methodName]] is then the inherited
                       property, if there is one: a value that is not
                       falsy and has no [visibility] *)
                    if bool_decide (is_Some (inheritedProperty methodName))
                    then
                      (parsed ++
                       [EConsoleError ("Method " +:+ methodName +:+
                                       " is not public")], Returned)
                    else
                      (parsed ++
                       [EConsoleError ("Method not found: " +:+ methodName);
                        EPrintMenuForModule spec], Returned)
                | Some methodInfo =>
                    if negb (visibility_eqb (visibility methodInfo) Public)
                    then
                      (parsed ++
                       [EConsoleError ("Method " +:+ methodName +:+
                                       " is not public")], Returned)
                    else
                      match getMissingParams methodInfo flags with
                      | [] =>
                          (parsed ++
                           dispatch modulePath methodName methodInfo
                             flags spec constructorArgs, Returned)
                      | missingParams =>
                          (parsed ++
                           [EConsoleError
                              ("Error: Missing required parameters: "
                               +:+ String.concat ", " missingParams);
                            EConsoleError
                              ("Method signature: " +:+
                               signatureText methodName methodInfo)],
                           Returned)
                      end
                end
          end
      end.

End WithRuntime.

End Cli.

(* ================================================================== *)
(** ** Observations on descriptors *)

Module Observe.
Import Types.

(** The structural part of a descriptor: everything but the two markers
    and the raw text. *)
Definition structure (t : TypeInfo)
    : string * option (list TypeInfo) * option (list TypeInfo)
      * option (list TypeInfo) :=
  (baseType t, typeArguments t, unionTypes t, intersectionTypes t).

(** A descriptor with no composite field and no marker. *)
Definition scalar (text : string) : TypeInfo :=
  mkTypeInfo text None None None false false text.

(** The base name of a path: its last segment. *)
Definition baseNameOf (path : string) : string :=
  default "" (last (JsString.split "/" path)).

(** A generic descriptor with no marker. *)
Definition generic (base : string) (arguments : list TypeInfo)
    (raw : string) : TypeInfo :=
  mkTypeInfo base (Some arguments) None None false false raw.

End Observe.

(* ================================================================== *)
(** ** Members, one shape per kind of declaration the walker records *)

Module Members.
Import JsString Types TypeParser Effects Syntax Comment ModuleParser.

Inductive Member : Type :=
| MFunction (declaration : FunctionDeclaration) (namePrefix : option string)
| MVariable (declaration : VariableDeclaration) (namePrefix : option string)
| MConstructor (declaration : ClassDeclaration) (className : string)
| MMethod (method : MethodDeclaration) (className : string)
          (static : bool)
| MProperty (property : PropertyDeclaration) (className : string)
| MGetter (accessor : AccessorDeclaration) (className : string)
| MSetter (accessor : AccessorDeclaration) (className : string).

Definition memberKind (member : Member) : MethodKind :=
  match member with
  | MFunction _ _ | MVariable _ _ => KFunction
  | MConstructor _ _ => KConstructor
  | MMethod _ _ static => if static then KStatic else KInstance
  | MProperty _ _ => KProperty
  | MGetter _ _ => KGetter
  | MSetter _ _ => KSetter
  end.

(** The node whose documentation comment the walker reads. *)
Definition memberNode (member : Member) : option Node :=
  match member with
  | MFunction declaration _ => Some (fnNode declaration)
  | MVariable declaration _ => Some (varNode declaration)
  | MConstructor declaration _ => head (getConstructors declaration)
  | MMethod method _ _ => Some (methNode method)
  | MProperty property _ => Some (propNode property)
  | MGetter accessor _ | MSetter accessor _ => Some (accNode accessor)
  end.

(** A declaration node that carries no documentation comment. *)
Definition undocumented (node : Node) : Prop :=
  getKindName node <> "JSDoc" /\
  (getJsDocs node = None \/ getJsDocs node = Some []).

Section WithParser.
Variable commentParserDefault : string -> outcome (option (list Block)).
Variable config : ASTParserConfig.

(** The call the walker makes for the member. *)
Definition processMember (member : Member) : M unit :=
  match member with
  | MFunction declaration namePrefix =>
      processFunctionDeclaration commentParserDefault config
        declaration namePrefix
  | MVariable declaration namePrefix =>
      processVariableDeclaration commentParserDefault config
        declaration namePrefix
  | MConstructor declaration className =>
      processConstructors commentParserDefault config declaration className
  | MMethod method className static =>
      processMethod commentParserDefault config method className
        (if static then KStatic else KInstance)
        (visibilityOf (methModifiers method))
  | MProperty property className =>
      processPropertyMethod commentParserDefault config property className
  | MGetter accessor className =>
      processAccessor commentParserDefault config accessor className KGetter
  | MSetter accessor className =>
      processAccessor commentParserDefault config accessor className KSetter
  end.

(** The parsed documentation comment of a node ([parseJSDoc] never
    throws, lemma [parseJSDoc_Ok]). *)
Definition parsedDoc (node : Node) : JSDocInfo :=
  match parseJSDoc commentParserDefault node with
  | Ok doc => doc
  | Throw _ => emptyJSDoc
  end.

Definition memberDoc (member : Member) : JSDocInfo :=
  match memberNode member with
  | Some node => parsedDoc node
  | None => emptyJSDoc
  end.

(** What the documentation comment alone says of the parameters and of
    the return value, for each kind but the setter. *)
Definition documentedParams (kind : MethodKind) (doc : JSDocInfo)
    : list ParamInfo :=
  match kind with
  | KGetter => []
  | _ => extractParams config doc
  end.

Definition documentedReturns (kind : MethodKind) (doc : JSDocInfo)
    : option ReturnInfo :=
  match kind with
  | KConstructor => None
  | _ => extractReturns config doc
  end.

(** The parameter a setter takes from its declared signature. *)
Definition declaredSetterParams (accessor : AccessorDeclaration)
    (doc : JSDocInfo) : list ParamInfo :=
  match accParameters accessor with
  | [] => []
  | param :: _ =>
      let paramName := orElse (prmGetName param) "value" in
      [mkParamInfo paramName (parseType config (prmTypeText param))
         (match List.find
                  (fun t => String.eqb (tag t) "param" &&
                            String.eqb (tagName t) paramName)
                  (docTags doc) with
          | Some t => tagDescription t
          | None => ""
          end)
         false]
  end.
End WithParser.

(** The key under which a constructor is recorded. *)
Definition constructorKey (className : string) : string :=
  className +:+ ".constructor".

(** No captured method, property or accessor of the class is itself
    named [constructor] (in TypeScript a member of that name is the
    constructor). *)
Definition constructorNameReserved (declaration : ClassDeclaration) : Prop :=
  Forall (fun m => methGetName m <> "constructor") (getMethods declaration) /\
  Forall (fun p => propGetName p <> "constructor")
    (getProperties declaration) /\
  Forall (fun a => accGetName a <> "constructor")
    (getGetAccessors declaration) /\
  Forall (fun a => accGetName a <> "constructor")
    (getSetAccessors declaration).

(** Nothing the walker processes after the class writes under the key of
    its constructor: no exported class in [later] and no module
    declaration with an export keyword has a name that, followed by a dot,
    starts the key, and no exported variable is named as the key is.
    (For names without dots, as TypeScript identifiers are: no later
    exported class and no such namespace has the name of the class.) *)
Definition constructorKeyKept (sourceFile : SourceFile)
    (later : list ClassDeclaration) (className : string) : Prop :=
  Forall (fun c => clsIsExported c = true ->
                   startsWith (constructorKey className)
                     (default "" (clsGetName c) +:+ ".") = false) later /\
  Forall (fun v => varIsExported v = true ->
                   varGetName v <> constructorKey className)
    (getVariableDeclarations sourceFile) /\
  Forall (fun ns => nsHasExportKeyword ns = true ->
                    startsWith (constructorKey className)
                      (default "" (nsFirstIdentifier ns) +:+ ".") = false)
    (getModuleDeclarations sourceFile).

End Members.

(* ================================================================== *)
(** ** Sample inputs *)

Module Samples.
Import JsString Types Effects Syntax Comment ModuleParser Observe.

(** A comment parser that knows three comment texts and throws on a
    fourth. *)
Definition sampleCommentParser (text : string)
    : outcome (option (list Block)) :=
  if String.eqb text "/** @returns {number} the total */" then
    Ok (Some [mkBlock "" [mkTag "returns" "" "{number}" "the total"]])
  else if String.eqb text "/** @param {string} s */" then
    Ok (Some [mkBlock "" [mkTag "param" "s" "{string}" ""]])
  else if String.eqb text "/** @module Calc */" then
    Ok (Some [mkBlock "A calculator" [mkTag "module" "Calc" "" ""]])
  else if String.eqb text "/** @param {" then
    Throw "SyntaxError: unclosed type"
  else Ok (Some []).

Definition docNode (kind : string) (comments : list string) : Node :=
  mkNode kind (Some comments) "".

(** [set level(v: number) {}], without a documentation comment. *)
Definition bareSetter : AccessorDeclaration :=
  mkAccessorDeclaration (docNode "SetAccessor" []) "level"
    [mkParameterDeclaration "v" "number"] [].

(** [/** @param {string} s */ f(s: string) {}] *)
Definition documentedMethod : MethodDeclaration :=
  mkMethodDeclaration (docNode "MethodDeclaration" ["/** @param {string} s */"])
    "f" false false [].

(** A method whose comment block comment-parser rejects. *)
Definition brokenMethod : MethodDeclaration :=
  mkMethodDeclaration (docNode "MethodDeclaration" ["/** @param {"])
    "g" false false [].

(** [private secret() {}] *)
Definition privateMethod : MethodDeclaration :=
  mkMethodDeclaration (docNode "MethodDeclaration" []) "secret" false false
    [PrivateKeyword].

(** [class Total { /** @returns {number} the total */ constructor() {}
    ... }] with the three methods and the setter above. *)
Definition totalClass : ClassDeclaration :=
  mkClassDeclaration (Some "Total") true true (Some "Total")
    [docNode "Constructor" ["/** @returns {number} the total */"]]
    [documentedMethod; brokenMethod; privateMethod] [] [] [bareSetter].

(** A source file whose only content is the comment block
    [/** @module Calc */]. *)
Definition namedSourceFile (baseName : string) : SourceFile :=
  mkSourceFile baseName [] [] [] [] ["/** @module Calc */"] [] [] [] [].

(** A source file that holds [totalClass]. *)
Definition totalSourceFile (baseName : string) : SourceFile :=
  mkSourceFile baseName [] [totalClass] [] [] [] [] [] [] [].

(** A project as the list of the paths of its files; creating a file
    records its path and names the file after the last segment of the
    path. *)
Definition sampleCreateSourceFile (project : list string)
    (filePath text : string) : outcome SourceFile * list string :=
  (Ok (totalSourceFile (baseNameOf filePath)), filePath :: project).

Definition sampleIsAbsolute (path : string) : bool := startsWith path "/".
Definition sampleJoin (a b : string) : string := a +:+ "/" +:+ b.

(** A file system with one file, [/work/calc.ts]. *)
Definition sampleDeno : Deno :=
  mkDeno "/work"
    (fun path =>
       if String.eqb path "/work/calc.ts" then Ok "export class Total {}"
       else Throw "NotFound").

(** The same content under another name, in another directory. *)
Definition otherDeno : Deno :=
  mkDeno "/elsewhere"
    (fun path =>
       if String.eqb path "/elsewhere/sum.ts" then Ok "export class Total {}"
       else Throw "NotFound").

(** [new ModuleToCLI(filePath, {}).get()] on the samples. *)
Definition sampleGet (filePath : string) (deno : Deno)
    : outcome ParsedModuleResult :=
  get sampleCommentParser (list string) [] sampleCreateSourceFile
    sampleIsAbsolute sampleJoin filePath emptyConfig deno.

(** An argument parser that keeps the arguments without a dash as the
    positional ones, a [JSON.parse] that always throws and an [import]
    that always fails. *)
Definition sampleRuntime : Cli.Runtime :=
  Cli.mkRuntime
    (fun args _ =>
       Cli.mkFlags ∅ (List.filter (fun a => negb (startsWith a "-")) args) [])
    (fun _ => None)
    (fun _ => Throw "TypeError: module not found").

Definition sampleMain (denoArgs : list string)
    : list Cli.Event * Cli.completion :=
  Cli.main sampleCommentParser (list string) [] sampleCreateSourceFile
    sampleIsAbsolute sampleJoin sampleRuntime sampleDeno denoArgs.

(** An imported module that exports the class [Total]: its instances have
    the methods [g] and [secret]. *)
Definition totalInstance : Cli.JsObject :=
  let method (result : string) :=
    Cli.mkJsObject (fun _ => Ok (Cli.JForeign result))
      (fun _ => Throw "TypeError: not a constructor") (fun _ => None) in
  Cli.mkJsObject (fun _ => Throw "TypeError: not a function")
    (fun _ => Throw "TypeError: not a constructor")
    (fun name =>
       if String.eqb name "g" then Some (method "g was called")
       else if String.eqb name "secret" then Some (method "the secret")
       else None).

Definition totalExports (name : string) : option Cli.JsObject :=
  if String.eqb name "Total" then
    Some (Cli.mkJsObject (fun _ => Throw "TypeError: class constructor")
            (fun _ => Ok totalInstance) (fun _ => None))
  else None.

Definition importingRuntime : Cli.Runtime :=
  Cli.mkRuntime (Cli.parseArgs sampleRuntime) (Cli.jsonParse sampleRuntime)
    (fun _ => Ok totalExports).

Definition importingMain (denoArgs : list string)
    : list Cli.Event * Cli.completion :=
  Cli.main sampleCommentParser (list string) [] sampleCreateSourceFile
    sampleIsAbsolute sampleJoin importingRuntime sampleDeno denoArgs.

End Samples.

(* ================================================================== *)
(** ** [printTypeInfo] ([print.ts]) *)

Module Display.
Import JsString Types.

(** [printTypeInfo] on a descriptor; a missing composite field reads as
    the empty array, as the destructuring defaults make it. *)
Fixpoint printTypeInfoOf (typeInfo : TypeInfo) : string :=
  match typeInfo with
  | mkTypeInfo baseType typeArguments unionTypes intersectionTypes
      isOptional isNullable rawType =>
      if truthy rawType then rawType
      else
        let result := baseType in
        let result :=
          match typeArguments with
          | Some ((_ :: _) as arguments) =>
              result +:+ "<" +:+
              String.concat ", " (map printTypeInfoOf arguments) +:+ ">"
          | _ => result
          end in
        let result :=
          match unionTypes with
          | Some ((_ :: _) as members) =>
              String.concat " | " (map printTypeInfoOf members)
          | _ => result
          end in
        let result :=
          match intersectionTypes with
          | Some ((_ :: _) as members) =>
              String.concat " & " (map printTypeInfoOf members)
          | _ => result
          end in
        result +:+ (if isOptional then " | undefined" else "")
               +:+ (if isNullable then " | null" else "")
  end.

(** [printTypeInfo(typeInfo)]: [None] is a missing descriptor. *)
Definition printTypeInfo (typeInfo : option TypeInfo) : string :=
  match typeInfo with
  | None => "unknown"
  | Some t => printTypeInfoOf t
  end.

End Display.

(* ================================================================== *)
(** ** Predicates on strings, descriptors and records *)

Module Checks.
Import JsString Regex Types Syntax.

Fixpoint allChars (p : ascii -> bool) (s : string) : bool :=
  match s with
  | EmptyString => true
  | String c s' => p c && allChars p s'
  end.

(** The code unit [c] occurs in [s]. *)
Fixpoint mentions (c : ascii) (s : string) : bool :=
  match s with
  | EmptyString => false
  | String x s' => Ascii.eqb x c || mentions c s'
  end.

(** A non-empty run of [\w] code units. *)
Definition isIdentifier (s : string) : bool := truthy s && allChars word s.

(** At most one composite field is present, a union or an intersection has
    at least two members, and so on in every nested descriptor. *)
Fixpoint wellShaped (t : TypeInfo) : bool :=
  match t with
  | mkTypeInfo _ typeArguments unionTypes intersectionTypes _ _ _ =>
      let present (field : option (list TypeInfo)) :=
        match field with Some _ => 1 | None => 0 end in
      let nested (field : option (list TypeInfo)) :=
        match field with Some l => forallb wellShaped l | None => true end in
      let several (field : option (list TypeInfo)) :=
        match field with Some l => 2 <=? length l | None => true end in
      (present typeArguments + present unionTypes
       + present intersectionTypes <=? 1)
      && nested typeArguments && nested unionTypes && nested intersectionTypes
      && several unionTypes && several intersectionTypes
  end.

(** What holds of a descriptor by its kind. *)
Definition kindInvariant (info : MethodInfo) : Prop :=
  match methodKind info with
  | KFunction => visibility info = Public
  | KConstructor =>
      visibility info = Public /\ returns info = None /\ isAsync info = false
  | KGetter => params info = [] /\ isAsync info = false
  | KSetter =>
      returns info = None /\ isAsync info = false /\
      length (params info) <= 1 /\
      Forall (fun p => paramOptional p = false) (params info)
  | KInstance | KStatic | KProperty => True
  end.

(** The descriptor with its [rawType] emptied. *)
Definition withoutRawType (t : TypeInfo) : TypeInfo :=
  mkTypeInfo (baseType t) (typeArguments t) (unionTypes t)
    (intersectionTypes t) (isOptional t) (isNullable t) "".

(** The source file with the declarations left out of its four top-level
    lists that [parseSourceFile] passes over: the functions, classes and
    variable declarations that are not exported, and the module
    declarations with no export keyword anywhere below them. *)
Definition withoutSkipped (sourceFile : SourceFile) : SourceFile :=
  mkSourceFile (getBaseName sourceFile)
    (List.filter fnIsExported (getFunctions sourceFile))
    (List.filter clsIsExported (getClasses sourceFile))
    (List.filter varIsExported (getVariableDeclarations sourceFile))
    (List.filter nsHasExportKeyword (getModuleDeclarations sourceFile))
    (getJSDocComments sourceFile) (getImportDeclarations sourceFile)
    (getExportDeclarations sourceFile) (getExportAssignments sourceFile)
    (getExportedDeclarations sourceFile).

(** Whether the configuration lets a class add a descriptor of the kind. *)
Definition captured (config : ASTParserConfig) (kind : MethodKind) : bool :=
  match kind with
  | KInstance => captureInstanceMethods config
  | KStatic => captureStaticMethods config
  | KProperty => capturePropertyMethods config
  | KGetter => captureGetAccessors config
  | KSetter => captureSetAccessors config
  | KConstructor => true
  | KFunction => false
  end.

(** The two configurations differ at most in [captureArrowFunctions]. *)
Definition sameButArrowFunctions (a b : ASTParserConfig) : Prop :=
  captureInstanceMethods a = captureInstanceMethods b /\
  captureStaticMethods a = captureStaticMethods b /\
  capturePropertyMethods a = capturePropertyMethods b /\
  captureGetAccessors a = captureGetAccessors b /\
  captureSetAccessors a = captureSetAccessors b /\
  captureComplexTypes a = captureComplexTypes b.

End Checks.

(* ================================================================== *)
(** ** The shape of a run *)

Module Traces.
Import Cli.

(** The effects on the target module are, in this order: at most one
    import, then at most one construction, then at most one call; nothing
    is constructed or called without an import before it. *)
Definition orderly (events : list Event) : bool :=
  match List.filter isExecution events with
  | [] | [EImport _] | [EImport _; ENew _ _] | [EImport _; ECall _ _]
  | [EImport _; ENew _ _; ECall _ _] => true
  | _ => false
  end.

End Traces.

(* ================================================================== *)
(** ** More sample inputs *)

Module MoreSamples.
Import JsString Types Effects Syntax Comment ModuleParser Observe Samples.

(** [/** @param {string} s */ export function shout(s) {}] *)
Definition exportedFunction : FunctionDeclaration :=
  mkFunctionDeclaration
    (docNode "FunctionDeclaration" ["/** @param {string} s */"])
    (Some "shout") false true true (Some "shout").

(** [function helper() {}], not exported. *)
Definition helperFunction : FunctionDeclaration :=
  mkFunctionDeclaration (docNode "FunctionDeclaration" []) (Some "helper")
    false false false (Some "helper").

(** [export const twice = async (x) => x * 2] *)
Definition arrowVariable : VariableDeclaration :=
  mkVariableDeclaration (mkNode "VariableDeclaration" None "") "twice"
    (Some "async (x) => x * 2") true (Some "twice").

(** A function [export function name() {}] inside a namespace. *)
Definition namespaceFunction (name : string) : FunctionDeclaration :=
  mkFunctionDeclaration (docNode "FunctionDeclaration" []) (Some name)
    false false true (Some name).

(** [export namespace Inner { export function deeper() {} }] *)
Definition innerNamespace : ModuleDeclaration :=
  mkModuleDeclaration true (Some "Inner")
    (Some (mkModuleBlock [namespaceFunction "deeper"] [] [] [])).

(** [export namespace Outer { export function deep() {} ... }] with
    [innerNamespace] at the dots; the function declarations that descend
    from its block are [deep] and [deeper]. *)
Definition outerNamespace : ModuleDeclaration :=
  mkModuleDeclaration true (Some "Outer")
    (Some (mkModuleBlock [namespaceFunction "deep"; namespaceFunction "deeper"]
             [] [] [innerNamespace])).

(** A source file with the declarations above and [totalClass], two
    comment blocks, a re-export and a default export; the module
    declarations that descend from it are the two namespaces. *)
Definition richSourceFile : SourceFile :=
  mkSourceFile "rich.ts" [exportedFunction; helperFunction] [totalClass]
    [arrowVariable] [outerNamespace; innerNamespace]
    ["/** @module Calc */"; "/** @param {string} s */"] []
    [mkExportDeclaration (Some "./other.ts") ["a"; "b"] false;
     mkExportDeclaration None [] true]
    [mkExportAssignment false "shout"] ["shout"; "twice"].

(** What [parseSourceFile] returns on it. *)
Definition richParsed : ParsedModuleResult :=
  match parseSourceFile sampleCommentParser DEFAULT_AST_CONFIG
          richSourceFile with
  | Ok result => result
  | Throw _ => mkParsedModuleResult ∅ (mkModuleInfo "" "" "" [] [])
  end.

(** [namespace Hidden { export function f() {} }]: the namespace is not
    exported, and there is an export keyword below it. *)
Definition hiddenNamespace : ModuleDeclaration :=
  mkModuleDeclaration true (Some "Hidden")
    (Some (mkModuleBlock [namespaceFunction "f"] [] [] [])).

Definition hiddenSourceFile : SourceFile :=
  mkSourceFile "hidden.ts" [] [] [] [hiddenNamespace] [] [] [] [] [].

(** [export class W { constructor() {} get constructor() { return 1 } }]:
    the second member reaches the walker as a get accessor whose name is
    [constructor]. *)
Definition accessorText : string :=
  "export class W { constructor() {} get constructor() { return 1 } }".

Definition accessorNamedConstructor : ClassDeclaration :=
  mkClassDeclaration (Some "W") true true (Some "W")
    [docNode "Constructor" []] [] []
    [mkAccessorDeclaration (docNode "GetAccessor" []) "constructor" [] []]
    [].

Definition accessorNamedConstructorFile (baseName : string) : SourceFile :=
  mkSourceFile baseName [] [accessorNamedConstructor] [] [] [] [] [] []
    ["W"].

(** A class and a namespace of the same name, which TypeScript merges;
    the namespace exports a function named [constructor]. *)
Definition mergedText : string :=
  "export class W { constructor() {} } " +:+
  "export namespace W { export function constructor() {} }".

Definition mergedNamespaceFile (baseName : string) : SourceFile :=
  mkSourceFile baseName []
    [mkClassDeclaration (Some "W") true true (Some "W")
       [docNode "Constructor" []] [] [] [] []]
    []
    [mkModuleDeclaration true (Some "W")
       (Some (mkModuleBlock [namespaceFunction "constructor"] [] [] []))]
    [] [] [] [] ["W"].

(** A class whose constructor carries a [@returns] tag. *)
Definition counterText : string :=
  "export class Counter { /** @returns {number} the total */ " +:+
  "constructor() {} }".

Definition counterClass : ClassDeclaration :=
  mkClassDeclaration (Some "Counter") true true (Some "Counter")
    [docNode "Constructor" ["/** @returns {number} the total */"]] [] [] []
    [].

Definition counterSourceFile (baseName : string) : SourceFile :=
  mkSourceFile baseName [] [counterClass] [] [] [] [] [] [] ["Counter"].

(** The text [export function ping() { return 'pong' }] and its tree. *)
Definition pingText : string := "export function ping() { return 'pong' }".

Definition pingSourceFile (baseName : string) : SourceFile :=
  mkSourceFile baseName
    [mkFunctionDeclaration (docNode "FunctionDeclaration" []) (Some "ping")
       false true true (Some "ping")]
    [] [] [] [] [] [] [] ["ping"].

(** The tree of [export class Total {}]. *)
Definition emptyClassSourceFile (baseName : string) : SourceFile :=
  mkSourceFile baseName []
    [mkClassDeclaration (Some "Total") true true (Some "Total") [] [] [] []
       []]
    [] [] [] [] [] [] ["Total"].

(** The trees of the texts the sample project can parse. *)
Definition treeOf (text baseName : string) : option SourceFile :=
  if String.eqb text pingText then Some (pingSourceFile baseName)
  else if String.eqb text "export class Total {}"
  then Some (emptyClassSourceFile baseName)
  else if String.eqb text counterText then Some (counterSourceFile baseName)
  else if String.eqb text accessorText
  then Some (accessorNamedConstructorFile baseName)
  else if String.eqb text mergedText then Some (mergedNamespaceFile baseName)
  else None.

(** A project as the list of the paths of its files, made absolute in the
    working directory [/work] of the samples.  As
    [project.createSourceFile(path, text)] of ts-morph does when it is not
    given the [overwrite] option, it refuses a path the project already
    holds. *)
Definition strictCreateSourceFile (project : list string)
    (filePath text : string) : outcome SourceFile * list string :=
  let absolutePath :=
    if startsWith filePath "/" then filePath else "/work/" +:+ filePath in
  if existsb (String.eqb absolutePath) project then
    (Throw ("InvalidOperationError: A source file already exists at the " +:+
            "provided file path: " +:+ absolutePath), project)
  else
    match treeOf text (baseNameOf filePath) with
    | Some sourceFile => (Ok sourceFile, absolutePath :: project)
    | None => (Throw "SyntaxError: a text the sample project cannot parse",
               project)
    end.

(** A file system with the file [/work/ping.ts]. *)
Definition pingDeno : Deno :=
  mkDeno "/work"
    (fun path =>
       if String.eqb path "/work/ping.ts" then Ok pingText
       else Throw "NotFound").

(** An argument parser that keeps the arguments without a dash as the
    positional ones and sets the boolean option [help] and its alias [h]
    to [false], as [parseArgs] does for a boolean option that is not
    given; a [JSON.parse] that always throws; an [import] that knows the
    module of [/work/ping.ts]. *)
Definition pingRuntime : Cli.Runtime :=
  Cli.mkRuntime
    (fun args _ =>
       Cli.mkFlags
         (<["help" := Cli.FBool false]> (<["h" := Cli.FBool false]> ∅))
         (List.filter (fun a => negb (startsWith a "-")) args) [])
    (fun _ => None)
    (fun moduleName =>
       if String.eqb moduleName "file:///work/ping.ts" then
         Ok (fun name =>
               if String.eqb name "ping" then
                 Some (Cli.mkJsObject (fun _ => Ok (Cli.JString "pong"))
                         (fun _ => Throw "TypeError: not a constructor")
                         (fun _ => None))
               else None)
       else Throw "TypeError: module not found").

Definition pingGet (filePath : string) : outcome ParsedModuleResult :=
  get sampleCommentParser (list string) [] strictCreateSourceFile
    sampleIsAbsolute sampleJoin filePath emptyConfig pingDeno.

(** What it returns for [ping.ts]. *)
Definition pingParsed : ParsedModuleResult :=
  match pingGet "ping.ts" with
  | Ok result => result
  | Throw _ => mkParsedModuleResult ∅ (mkModuleInfo "" "" "" [] [])
  end.

(** A file system with the three files of classes above. *)
Definition classesDeno : Deno :=
  mkDeno "/work"
    (fun path =>
       if String.eqb path "/work/counter.ts" then Ok counterText
       else if String.eqb path "/work/accessor.ts" then Ok accessorText
       else if String.eqb path "/work/merged.ts" then Ok mergedText
       else Throw "NotFound").

Definition classesGet (filePath : string) : outcome ParsedModuleResult :=
  get sampleCommentParser (list string) [] strictCreateSourceFile
    sampleIsAbsolute sampleJoin filePath emptyConfig classesDeno.

(** What it returns for [counter.ts]. *)
Definition counterParsed : ParsedModuleResult :=
  match classesGet "counter.ts" with
  | Ok result => result
  | Throw _ => mkParsedModuleResult ∅ (mkModuleInfo "" "" "" [] [])
  end.

Definition pingMain (denoArgs : list string)
    : list Cli.Event * Cli.completion :=
  Cli.main sampleCommentParser (list string) [] strictCreateSourceFile
    sampleIsAbsolute sampleJoin pingRuntime pingDeno denoArgs.

End MoreSamples.

(* ================================================================== *)
(** * Facts *)

(** ** Lengths of the string primitives *)

Module JsStringFacts.
Import JsString.

#[local] Arguments len : simpl never.

Lemma len_nil : len "" = 0.
Proof. reflexivity. Qed.

Lemma len_cons (c : ascii) (s : string) : len (String c s) = S (len s).
Proof. reflexivity. Qed.

Lemma len_append (a b : string) : len (a +:+ b) = len a + len b.
Proof.
  induction a as [|c a IH]; [done|].
  change (len (String c (a +:+ b)) = len (String c a) + len b).
  rewrite !len_cons, IH. done.
Qed.

Lemma len_drop (n : nat) (s : string) : len (drop n s) = len s - n.
Proof.
  revert n; induction s as [|c s IH]; intros [|n]; simpl;
    rewrite ?len_cons, ?len_nil, ?IH; lia.
Qed.

Lemma len_take (n : nat) (s : string) : len (take n s) = Nat.min n (len s).
Proof.
  revert n; induction s as [|c s IH]; intros [|n]; simpl;
    rewrite ?len_cons, ?len_nil, ?IH; lia.
Qed.

Lemma startsWith_len (s p : string) :
  startsWith s p = true -> len p <= len s.
Proof.
  revert s; induction p as [|a p IH]; intros [|b s]; simpl;
    rewrite ?len_cons, ?len_nil; try done; try lia.
  intros [_ H]%andb_prop. apply IH in H. lia.
Qed.

Lemma endsWith_len (s p : string) :
  endsWith s p = true -> len p <= len s.
Proof.
  unfold endsWith. intros [H _]%andb_prop. by apply Nat.leb_le in H.
Qed.

Lemma includes_len (s p : string) :
  includes s p = true -> len p <= len s.
Proof.
  induction s as [|c s IH]; cbn [includes].
  - rewrite orb_false_r. apply startsWith_len.
  - intros [H|H]%orb_prop.
    + by apply startsWith_len in H.
    + apply IH in H. rewrite len_cons. lia.
Qed.

Lemma len_replace_le (s p : string) : len (replace s p "") <= len s.
Proof.
  induction s as [|c s IH]; cbn [replace].
  - destruct (startsWith "" p); [|done].
    rewrite len_append, len_drop, len_nil. lia.
  - destruct (startsWith (String c s) p).
    + rewrite len_append, len_drop, len_nil. lia.
    + rewrite !len_cons. lia.
Qed.

Lemma len_trimStart_le (s : string) : len (trimStart s) <= len s.
Proof.
  induction s as [|c s IH]; simpl; [done|].
  destruct (isWhiteSpace c); rewrite ?len_cons; lia.
Qed.

Lemma len_trimEnd_le (s : string) : len (trimEnd s) <= len s.
Proof.
  induction s as [|c s IH]; simpl; [done|].
  destruct (trimEnd s) eqn:E.
  - destruct (isWhiteSpace c); rewrite ?len_cons, ?len_nil; lia.
  - rewrite !len_cons in *. lia.
Qed.

Lemma len_trim_le (s : string) : len (trim s) <= len s.
Proof.
  unfold trim. etrans; [apply len_trimEnd_le|apply len_trimStart_le].
Qed.

Lemma len_slice_tail (s : string) (k : nat) :
  0 < k -> k <= len s -> len (slice s 0 (- Z.of_nat k)) < len s.
Proof.
  intros Hk Hle. unfold slice, sliceIndex.
  destruct (Z.ltb_spec (- Z.of_nat k) 0); [|lia].
  simpl. rewrite len_take.
  assert (0 <= Z.of_nat (len s) + - Z.of_nat k)%Z as H0 by lia.
  rewrite Z.max_l by exact H0.
  apply Nat.min_lt_iff. left. lia.
Qed.

(** The pieces of a split are shorter than the string when the separator
    occurs in it. *)
Lemma split_len_le (sep : ascii) (s : string) :
  Forall (fun piece => len piece <= len s) (split sep s).
Proof.
  induction s as [|c s IH]; simpl; [by apply Forall_singleton|].
  destruct (split sep s) as [|h t]; [constructor|].
  apply Forall_cons in IH as [Hh Ht]. cbv beta in Hh.
  assert (Forall (fun piece => len piece <= len (String c s)) t).
  { eapply Forall_impl; [exact Ht|]. intros x Hx. cbv beta in Hx. rewrite len_cons. lia. }
  destruct (Ascii.eqb c sep).
  - apply Forall_cons; split; [rewrite len_nil; lia|].
    apply Forall_cons; split; [rewrite len_cons; lia|done].
  - apply Forall_cons; split; [rewrite !len_cons; lia|done].
Qed.

Lemma split_len_lt (sep : ascii) (s : string) :
  includes s (String sep "") = true ->
  Forall (fun piece => len piece < len s) (split sep s).
Proof.
  induction s as [|c s IH]; simpl; [done|].
  pose proof (split_len_le sep s) as Hle.
  destruct (split sep s) as [|h t]; [constructor|].
  apply Forall_cons in Hle as [Hh Ht]. cbv beta in Hh.
  assert (Forall (fun piece => len piece < len (String c s)) t).
  { eapply Forall_impl; [exact Ht|]. intros x Hx. cbv beta in Hx. rewrite len_cons. lia. }
  rewrite (Ascii.eqb_sym sep c).
  destruct (Ascii.eqb c sep) eqn:E; simpl.
  - intros _. apply Forall_cons; split; [rewrite len_nil, len_cons; lia|].
    apply Forall_cons; split; [rewrite len_cons; lia|done].
  - intros Hin. apply IH in Hin. apply Forall_cons in Hin as [Hh' _].
    cbv beta in Hh'.
    apply Forall_cons; split; [rewrite !len_cons; lia|done].
Qed.

End JsStringFacts.

(** ** What a match of the regular expressions of the source consumes *)

Module RegexFacts.
Import JsString Regex JsStringFacts.

#[local] Arguments len : simpl never.

(** A greedy [+] hands over to its continuation after at least one code
    unit of the input. *)
Lemma plus_sound {R : Type} (cls : ascii -> bool) (pos : nat) (s : string)
    (k : nat -> string -> option R) (res : R) :
  plus cls pos s k = Some res ->
  exists n, 0 < n /\ n <= len s /\ k (pos + n) (drop n s) = Some res.
Proof.
  revert pos; induction s as [|c s IH]; intros pos; simpl; [done|].
  destruct (cls c); [|done].
  destruct (plus cls (S pos) s k) eqn:E.
  - intros [= ->]. apply IH in E as (n & Hn & Hle & Hk).
    exists (S n). rewrite len_cons. split_and!; [lia|lia|].
    simpl. by replace (pos + S n) with (S pos + n) by lia.
  - intros Hk. exists 1. rewrite len_cons. split_and!; [lia|lia|].
    simpl. replace (pos + 1) with (S pos) by lia.
    by destruct s.
Qed.

(** The search returns the match found at some start position. *)
Lemma searchFrom_sound (r : regex) (pos : nat) (s : string)
    (m : MatchResult) :
  searchFrom r pos s = Some m ->
  exists i, i <= len s /\
    run r (pos + i) (drop i s) []
      (fun pos' _ caps => Some (mkMatch (pos + i) pos' caps)) = Some m.
Proof.
  revert pos; induction s as [|c s IH]; intros pos; cbn [searchFrom].
  - destruct (run r pos "" [] _) eqn:E; [|done].
    intros [= ->]. exists 0. rewrite Nat.add_0_r. by split; [lia|].
  - destruct (run r pos (String c s) [] _) eqn:E.
    + intros [= ->]. exists 0. rewrite Nat.add_0_r. by split; [lia|].
    + intros (i & Hi & Hrun)%IH. exists (S i). rewrite len_cons.
      split; [lia|]. simpl.
      by replace (pos + S i) with (S pos + i) by lia.
Qed.

(** [/a(cls+)b/]: the capture lies between the two literals. *)
Lemma run_delimited (a b : string) (cls : ascii -> bool) (pos : nat)
    (s : string) (m : MatchResult) :
  run (Seq (Lit a) (Seq (Group (Plus cls)) (Lit b))) pos s []
    (fun pos' _ caps => Some (mkMatch pos pos' caps)) = Some m ->
  exists n, mGroups m = [take n (drop (len a) s)] /\
            len a + n + len b <= len s.
Proof.
  cbn [run]. destruct (startsWith s a) eqn:Ha; [|done].
  intros (n & Hn & Hle & H)%plus_sound. cbv beta in H.
  destruct (startsWith (drop n (drop (len a) s)) b) eqn:Hb; [|done].
  injection H as <-. exists n. simpl.
  apply startsWith_len in Ha, Hb. rewrite !len_drop in *.
  split; [|lia]. do 2 f_equal. lia.
Qed.

Lemma exec_delimited_len (a b : string) (cls : ascii -> bool) (s : string)
    (m : MatchResult) :
  exec (Seq (Lit a) (Seq (Group (Plus cls)) (Lit b))) s = Some m ->
  len (group m 1) + len a + len b <= len s.
Proof.
  intros (i & Hi & Hrun)%searchFrom_sound.
  apply run_delimited in Hrun as (n & Hg & Hle).
  unfold group. rewrite Hg. simpl. rewrite len_take, !len_drop in *. lia.
Qed.

(** [/(\w+)<(.+)>/] *)
Lemma run_generic (pos : nat) (s : string) (m : MatchResult) :
  run reGeneric pos s []
    (fun pos' _ caps => Some (mkMatch pos pos' caps)) = Some m ->
  exists n1 n2, 0 < n1 /\
    mGroups m = [take n1 s; take n2 (drop 1 (drop n1 s))] /\
    n1 + 1 + n2 + 1 <= len s.
Proof.
  unfold reGeneric. cbn [run].
  intros (n1 & Hn1 & Hle1 & H)%plus_sound. cbv beta in H.
  destruct (startsWith (drop n1 s) "<") eqn:Ha; [|done].
  apply plus_sound in H as (n2 & Hn2 & Hle2 & H). cbv beta in H.
  destruct (startsWith _ ">") eqn:Hb in H; [|done].
  injection H as <-. exists n1, n2. simpl.
  apply startsWith_len in Ha, Hb. rewrite !len_drop in *.
  change (len "<") with 1 in *. change (len ">") with 1 in *.
  split_and!; [done| |lia].
  f_equal; [f_equal; lia|]. do 2 f_equal. lia.
Qed.

Lemma exec_generic_len (s : string) (m : MatchResult) :
  exec reGeneric s = Some m -> len (group m 2) + 3 <= len s.
Proof.
  intros (i & Hi & Hrun)%searchFrom_sound.
  apply run_generic in Hrun as (n1 & n2 & Hn1 & Hg & Hle).
  unfold group. rewrite Hg. simpl. rewrite len_take, !len_drop in *. lia.
Qed.

End RegexFacts.

(** ** The type normalizer terminates *)

Module TypeParserFacts.
Import JsString Regex Types TypeParser JsStringFacts RegexFacts.

#[local] Arguments len : simpl never.

Lemma len_cleanTypeOf_le (typeString : string) :
  len (cleanTypeOf typeString) <= len typeString.
Proof.
  unfold cleanTypeOf.
  etrans; [apply len_trim_le|].
  etrans; [apply len_replace_le|].
  etrans; [apply len_replace_le|].
  apply len_replace_le.
Qed.

(** The loop of [splitGenericArgs] only moves code units of its input
    into the arguments it returns. *)
Lemma splitLoop_len (bound : nat) (chars : string) (result : list string)
    (currentArg : string) (depth : Z) :
  len currentArg + len chars <= bound ->
  Forall (fun arg => len arg <= bound) result ->
  Forall (fun arg => len arg <= bound)
    (splitLoop chars result currentArg depth).1 /\
  len (splitLoop chars result currentArg depth).2 <= bound.
Proof.
  revert result currentArg depth.
  induction chars as [|char rest IH]; intros result currentArg depth Hlen Hres.
  - simpl. rewrite len_nil in Hlen. split; [done|lia].
  - rewrite len_cons in Hlen. cbn [splitLoop].
    assert (len (currentArg +:+ String char "") + len rest <= bound) as Hnext.
    { rewrite len_append, len_cons, len_nil. lia. }
    destruct (Ascii.eqb char "<"); [by apply IH|].
    destruct (Ascii.eqb char ">"); [by apply IH|].
    destruct (Ascii.eqb char "," && (depth =? 0)%Z); [|by apply IH].
    apply IH; [rewrite len_nil; lia|].
    apply Forall_app; split; [done|]. apply Forall_singleton.
    pose proof (len_trim_le currentArg). lia.
Qed.

Lemma splitGenericArgs_len (argsString : string) :
  Forall (fun arg => len arg <= len argsString)
    (splitGenericArgs argsString).
Proof.
  unfold splitGenericArgs.
  destruct (splitLoop_len (len argsString) argsString [] "" 0) as [Hres Hcur];
    [rewrite len_nil; lia|constructor|].
  destruct (splitLoop argsString [] "" 0) as [result currentArg].
  simpl in Hres, Hcur.
  destruct (truthy (trim currentArg)); [|done].
  apply Forall_app; split; [done|]. apply Forall_singleton.
  pose proof (len_trim_le currentArg). lia.
Qed.

(** A trailing [?] is the one the cleaning removes when it is the only
    one: [T?] is then matched as [T] is. *)
Lemma replace_question_suffix (s : string) :
  includes s "?" = false -> replace (s +:+ "?") "?" "" = s.
Proof.
  induction s as [|c s IH]; [done|].
  cbn [includes]. intros [Hhead Htail]%orb_false_elim.
  change (String c s +:+ "?") with (String c (s +:+ "?")).
  cbn [replace].
  replace (startsWith (String c (s +:+ "?")) "?")
    with (startsWith (String c s) "?") by (by destruct s).
  rewrite Hhead. by rewrite (IH Htail).
Qed.

Lemma cleanTypeOf_question_suffix (s : string) :
  includes s "?" = false ->
  cleanTypeOf (s +:+ "?")
  = trim (replace (replace s "|undefined" "") "|null" "").
Proof.
  intros Hs. unfold cleanTypeOf. by rewrite (replace_question_suffix s Hs).
Qed.

Lemma guardedMatch_exec (lit : string) (re : regex) (s : string)
    (m : MatchResult) :
  guardedMatch lit re s = Some m -> exec re s = Some m.
Proof. unfold guardedMatch. by destruct (includes s lit). Qed.

(** *** Every recursive call is on a strictly shorter string *)

Lemma call_promise (c : string) (m : MatchResult) :
  guardedMatch "Promise<" rePromise c = Some m -> len (group m 1) < len c.
Proof.
  intros H%guardedMatch_exec%exec_delimited_len.
  change (len "Promise<") with 8 in H. lia.
Qed.

Lemma call_arrayGeneric (c : string) (m : MatchResult) :
  guardedMatch "Array<" reArray c = Some m -> len (group m 1) < len c.
Proof.
  intros H%guardedMatch_exec%exec_delimited_len.
  change (len "Array<") with 6 in H. lia.
Qed.

Lemma call_arraySuffix (c : string) :
  endsWith c "[]" = true -> len (slice c 0 (-2)) < len c.
Proof.
  intros H%endsWith_len. change (len "[]") with 2 in H.
  apply (len_slice_tail c 2); lia.
Qed.

Lemma call_generic (c : string) (m : MatchResult) :
  exec reGeneric c = Some m ->
  Forall (fun arg => len arg < len c) (splitGenericArgs (group m 2)).
Proof.
  intros H%exec_generic_len.
  eapply Forall_impl; [apply splitGenericArgs_len|].
  intros arg Harg. cbv beta in Harg. lia.
Qed.

Lemma call_members (sep : ascii) (c : string) :
  includes c (String sep "") = true ->
  Forall (fun t => len t < len c) (map trim (split sep c)).
Proof.
  intros H%split_len_lt. apply Forall_map.
  eapply Forall_impl; [exact H|].
  intros t Ht. cbv beta in *. pose proof (len_trim_le t). lia.
Qed.

Lemma mapM_ext_Forall {A B : Type} (f g : A -> option B) (l : list A) :
  Forall (fun x => f x = g x) l -> mapM f l = mapM g l.
Proof.
  induction 1 as [|x l Hx _ IH]; [done|]. simpl. by rewrite Hx, IH.
Qed.

Lemma Forall_shorter {P : string -> Prop} (n : nat) (l : list string) :
  (forall s', len s' < n -> P s') ->
  Forall (fun s' => len s' < n) l -> Forall P l.
Proof. intros HP Hl. eapply Forall_impl; [exact Hl|exact HP]. Qed.

Section Body.
Variable config : ASTParserConfig.

(** [parseTypeBody] asks [self] only about shorter strings. *)
Lemma parseTypeBody_ext (f g : string -> option TypeInfo)
    (typeString : string) :
  (forall s', len s' < len typeString -> f s' = g s') ->
  parseTypeBody config f typeString = parseTypeBody config g typeString.
Proof.
  intros Hfg. unfold parseTypeBody.
  destruct (negb (truthy typeString) || negb (captureComplexTypes config));
    [done|].
  pose proof (len_cleanTypeOf_le typeString) as Hc.
  assert (forall s', len s' < len (cleanTypeOf typeString) -> f s' = g s')
    as Hfg' by (intros; apply Hfg; lia).
  cbv zeta.
  destruct (guardedMatch "Promise<" rePromise _) eqn:E1.
  { by rewrite (Hfg' _ (call_promise _ _ E1)). }
  destruct (endsWith _ "[]") eqn:E2.
  { by rewrite (Hfg' _ (call_arraySuffix _ E2)). }
  destruct (guardedMatch "Array<" reArray _) eqn:E3.
  { by rewrite (Hfg' _ (call_arrayGeneric _ _ E3)). }
  destruct (exec reGeneric _) eqn:E4.
  { by rewrite (mapM_ext_Forall f g _
                  (Forall_shorter _ _ Hfg' (call_generic _ _ E4))). }
  destruct (startsWith _ "[" && endsWith _ "]" && _); [done|].
  destruct (includes _ "|") eqn:E5.
  { by rewrite (mapM_ext_Forall f g _
                  (Forall_shorter _ _ Hfg' (call_members "|" _ E5))). }
  destruct (includes _ "&") eqn:E6; [|done].
  by rewrite (mapM_ext_Forall f g _
                (Forall_shorter _ _ Hfg' (call_members "&" _ E6))).
Qed.

(** [parseTypeBody] returns when the calls it makes return. *)
Lemma parseTypeBody_is_Some (f : string -> option TypeInfo)
    (typeString : string) :
  (forall s', len s' < len typeString -> is_Some (f s')) ->
  is_Some (parseTypeBody config f typeString).
Proof.
  intros Hf. unfold parseTypeBody.
  destruct (negb (truthy typeString) || negb (captureComplexTypes config));
    [done|].
  pose proof (len_cleanTypeOf_le typeString) as Hc.
  assert (forall s', len s' < len (cleanTypeOf typeString) -> is_Some (f s'))
    as Hf' by (intros; apply Hf; lia).
  assert (forall l, Forall (fun s' => len s' < len (cleanTypeOf typeString)) l ->
                    is_Some (mapM f l)) as HmapM.
  { intros l Hl. apply mapM_is_Some.
    eapply Forall_impl; [exact Hl|]. intros s' Hs'. by apply Hf'. }
  cbv zeta.
  destruct (guardedMatch "Promise<" rePromise _) eqn:E1.
  { by destruct (Hf' _ (call_promise _ _ E1)) as [t ->]. }
  destruct (endsWith _ "[]") eqn:E2.
  { by destruct (Hf' _ (call_arraySuffix _ E2)) as [t ->]. }
  destruct (guardedMatch "Array<" reArray _) eqn:E3.
  { by destruct (Hf' _ (call_arrayGeneric _ _ E3)) as [t ->]. }
  destruct (exec reGeneric _) eqn:E4.
  { by destruct (HmapM _ (call_generic _ _ E4)) as [t ->]. }
  destruct (startsWith _ "[" && endsWith _ "]" && _); [done|].
  destruct (includes _ "|") eqn:E5.
  { by destruct (HmapM _ (call_members "|" _ E5)) as [t ->]. }
  destruct (includes _ "&") eqn:E6; [|done].
  by destruct (HmapM _ (call_members "&" _ E6)) as [t ->].
Qed.

(** Whatever branch returns, it returns the input as [rawType]. *)
Lemma parseTypeBody_rawType (f : string -> option TypeInfo)
    (typeString : string) (t : TypeInfo) :
  parseTypeBody config f typeString = Some t -> rawType t = typeString.
Proof.
  unfold parseTypeBody. cbv zeta.
  repeat lazymatch goal with
  | |- mbind _ ?m = Some _ -> _ =>
      destruct m; simpl; [by intros [= <-]|done]
  | |- Some _ = Some _ -> _ => by intros [= <-]
  | |- context [match ?x with _ => _ end] => destruct x
  end.
Qed.

(** The two markers are read off the input itself. *)
Lemma parseTypeBody_markers (f : string -> option TypeInfo)
    (typeString : string) (t : TypeInfo) :
  captureComplexTypes config = true ->
  parseTypeBody config f typeString = Some t ->
  isOptional t
  = endsWith typeString "?" || includes typeString "|undefined" /\
  isNullable t = includes typeString "|null".
Proof.
  intros Hcfg. unfold parseTypeBody. rewrite Hcfg.
  destruct typeString as [|c s]; [by intros [= <-]|].
  cbn [truthy negb orb]. cbv zeta.
  repeat lazymatch goal with
  | |- mbind _ ?m = Some _ -> _ =>
      destruct m; simpl; [by intros [= <-]|done]
  | |- Some _ = Some _ -> _ => by intros [= <-]
  | |- context [match ?x with _ => _ end] => destruct x
  end.
Qed.

(** The branch taken and the structure built depend on the input only
    through its cleaned text. *)
Lemma parseTypeBody_structure (f : string -> option TypeInfo)
    (T T' : string) (t t' : TypeInfo) :
  captureComplexTypes config = true ->
  truthy T = true -> truthy T' = true ->
  cleanTypeOf T = cleanTypeOf T' ->
  parseTypeBody config f T = Some t ->
  parseTypeBody config f T' = Some t' ->
  Observe.structure t = Observe.structure t'.
Proof.
  intros Hcfg HT HT' Hclean. unfold parseTypeBody.
  rewrite Hcfg, HT, HT'. cbn [negb orb]. cbv zeta. rewrite <- Hclean.
  generalize (cleanTypeOf T) as c. intros c.
  repeat lazymatch goal with
  | |- mbind _ ?m = Some _ -> _ =>
      destruct m; simpl; [by intros [= <-] [= <-]|done]
  | |- Some _ = Some _ -> _ => by intros [= <-] [= <-]
  | |- context [match ?x with _ => _ end] => destruct x
  end.
Qed.

(** More nested calls than the string has code units are enough ... *)
Lemma parseTypeF_enough (fuel : nat) (typeString : string) :
  len typeString < fuel -> is_Some (parseTypeF config fuel typeString).
Proof.
  revert typeString; induction fuel as [|fuel IH]; intros s Hs; [lia|].
  cbn [parseTypeF]. apply parseTypeBody_is_Some.
  intros s' Hs'. apply IH. lia.
Qed.

(** ... and then the result does not depend on the bound. *)
Lemma parseTypeF_fuel (fuel fuel' : nat) (typeString : string) :
  len typeString < fuel -> len typeString < fuel' ->
  parseTypeF config fuel typeString = parseTypeF config fuel' typeString.
Proof.
  revert fuel' typeString; induction fuel as [|fuel IH];
    intros [|fuel'] s Hs Hs'; try lia.
  cbn [parseTypeF]. apply parseTypeBody_ext.
  intros s' Hlt. apply IH; lia.
Qed.

Lemma parseTypeF_parseType (fuel : nat) (typeString : string) :
  len typeString < fuel ->
  parseTypeF config fuel typeString = Some (parseType config typeString).
Proof.
  intros Hs. unfold parseType.
  rewrite (parseTypeF_fuel fuel (S (len typeString))) by lia.
  by destruct (parseTypeF_enough (S (len typeString)) typeString) as [t ->];
    [lia|].
Qed.

(** [parseType] satisfies the recursive definition of the source. *)
Lemma parseType_unfold (typeString : string) :
  parseTypeBody config (fun s' => Some (parseType config s')) typeString
  = Some (parseType config typeString).
Proof.
  rewrite <- (parseTypeF_parseType (S (len typeString))) by lia.
  cbn [parseTypeF]. apply parseTypeBody_ext.
  intros s' Hs'. symmetry. by apply parseTypeF_parseType.
Qed.
End Body.

End TypeParserFacts.

(** ** The type normalizer: the properties of the specification *)

Module TypeParserSpec.
Import JsString Regex Types TypeParser Observe.
Import JsStringFacts RegexFacts TypeParserFacts.

#[local] Arguments len : simpl never.

(** C1: for every configuration and every type string [T], the call
    [parseType(T)] returns (the bound of one nested call more than the
    length of [T], or any larger one, is never exhausted) and the
    descriptor it returns has [rawType] equal to [T], whichever branch
    produced it. *)
Theorem parseType_rawType (config : ASTParserConfig) (T : string)
    (extra : nat) :
  parseTypeF config (S (len T) + extra) T = Some (parseType config T) /\
  rawType (parseType config T) = T.
Proof.
  split.
  - apply parseTypeF_parseType. lia.
  - eapply parseTypeBody_rawType. apply parseType_unfold.
Qed.

(** C5: ["A<B<C>>"] normalizes to a generic over [A] whose single
    argument is the generic ["B<C>"] over [B], whose single argument is
    [C]; the argument splitter keeps ["B<C>"] whole, and it does not cut
    at a comma inside angle brackets. *)
Theorem parseType_nested_generic :
  parseType DEFAULT_AST_CONFIG "A<B<C>>"
  = generic "A" [generic "B" [scalar "C"] "B<C>"] "A<B<C>>" /\
  splitGenericArgs "B<C>" = ["B<C>"] /\
  splitGenericArgs "K, M<X, Y>" = ["K"; "M<X, Y>"].
Proof. by vm_compute. Qed.

(** C6: ["string[]"] and ["Array<string>"] both normalize to base type
    ["Array"] with the single argument [string]; the two descriptors
    have the same structure. *)
Theorem parseType_array_spellings :
  parseType DEFAULT_AST_CONFIG "string[]"
  = generic "Array" [scalar "string"] "string[]" /\
  parseType DEFAULT_AST_CONFIG "Array<string>"
  = generic "Array" [scalar "string"] "Array<string>" /\
  structure (parseType DEFAULT_AST_CONFIG "string[]")
  = structure (parseType DEFAULT_AST_CONFIG "Array<string>").
Proof. by vm_compute. Qed.

(** Further evaluations: a promise, a union written with spaces, and a
    generic whose argument list holds an array, which the array branch
    claims first. *)
Example parseType_promise :
  parseType DEFAULT_AST_CONFIG "Promise<number>"
  = generic "Promise" [scalar "number"] "Promise<number>".
Proof. by vm_compute. Qed.

Example parseType_spaced_union :
  parseType DEFAULT_AST_CONFIG "string | undefined"
  = mkTypeInfo "string" None (Some [scalar "string"; scalar "undefined"])
      None false false "string | undefined".
Proof. by vm_compute. Qed.

Example parseType_tight_union :
  parseType DEFAULT_AST_CONFIG "string|undefined"
  = mkTypeInfo "string" None None None true false "string|undefined".
Proof. by vm_compute. Qed.

Example parseType_two_arguments :
  parseType DEFAULT_AST_CONFIG "Map<K, M<X, Y>>"
  = generic "Map"
      [scalar "K"; generic "M" [scalar "X"; scalar "Y"] "M<X, Y>"]
      "Map<K, M<X, Y>>".
Proof. by vm_compute. Qed.




End TypeParserSpec.

(** ** The walker: what each step writes *)

Module WalkerFacts.
Import JsString Types TypeParser Effects Syntax Comment ModuleParser Members.

(** *** The monad *)

Lemma succeeds_ret : succeeds (mret tt).
Proof. intros m. by exists m. Qed.

Lemma succeeds_assign (key : string) (info : MethodInfo) :
  succeeds (assign key info).
Proof. intros m. by eexists. Qed.

Lemma succeeds_bind (c : M unit) (k : unit -> M unit) :
  succeeds c -> (forall u, succeeds (k u)) -> succeeds (c ≫= k).
Proof.
  intros Hc Hk m. destruct (Hc m) as [m' Hm'].
  unfold mbind, M_bind. rewrite Hm'. apply Hk.
Qed.

Lemma succeeds_when (b : bool) (c : M unit) :
  succeeds c -> succeeds (when b c).
Proof. destruct b; [done|]. intros _. apply succeeds_ret. Qed.

(** A [try] with an empty [catch] returns normally whatever its body
    does. *)
Lemma succeeds_tryNoOp (c : M unit) : succeeds (tryNoOp c).
Proof.
  intros m. unfold tryNoOp.
  destruct (c m) as [[[]|e] m']; by eexists.
Qed.

Lemma succeeds_forEach {A : Type} (f : A -> M unit) (l : list A) :
  (forall x, succeeds (f x)) -> succeeds (forEach f l).
Proof.
  intros Hf. induction l as [|x l IH]; [apply succeeds_ret|].
  cbn [forEach]. apply succeeds_bind; [apply Hf|]. intros _. apply IH.
Qed.

(** A property of the record that every step keeps is kept by the loop,
    whether the loop runs to its end or is cut by an exception. *)
Lemma forEach_preserves {A : Type} (P : gmap string MethodInfo -> Prop)
    (f : A -> M unit) (l : list A) (methods : gmap string MethodInfo) :
  Forall (fun x => forall m, P m -> P (f x m).2) l ->
  P methods -> P (forEach f l methods).2.
Proof.
  intros Hf. revert methods.
  induction Hf as [|x l Hx _ IH]; intros m Hm; [done|].
  cbn [forEach]. unfold mbind, M_bind.
  specialize (Hx m Hm).
  destruct (f x m) as [[[]|e] m']; [by apply IH|done].
Qed.

Lemma bind_preserves (P : gmap string MethodInfo -> Prop)
    (c : M unit) (k : unit -> M unit) (methods : gmap string MethodInfo) :
  P (c methods).2 -> (forall u m, P m -> P (k u m).2) ->
  P ((c ≫= k) methods).2.
Proof.
  intros Hc Hk. unfold mbind, M_bind.
  destruct (c methods) as [[u|e] m']; [by apply Hk|done].
Qed.

Lemma when_preserves (P : gmap string MethodInfo -> Prop)
    (b : bool) (c : M unit) (methods : gmap string MethodInfo) :
  (P methods -> P (c methods).2) -> P methods -> P (when b c methods).2.
Proof. destruct b; [done|]. by intros _. Qed.

Section WithParser.
Variable commentParserDefault : string -> outcome (option (list Block)).
Variable config : ASTParserConfig.

Local Abbreviation parseJSDoc := (parseJSDoc commentParserDefault).
Local Abbreviation parsedDoc := (parsedDoc commentParserDefault).
Local Abbreviation extractParams := (extractParams config).
Local Abbreviation extractReturns := (extractReturns config).

(** *** The documentation extractor never throws *)

Lemma parseJSDoc_Ok (node : Node) :
  parseJSDoc node = Ok (parsedDoc node).
Proof.
  unfold Members.parsedDoc, ModuleParser.parseJSDoc.
  destruct (if negb _ then _ else _) as [|jsDocText rest]; [done|].
  destruct (commentParserDefault jsDocText) as [[[|first blocks]|]|e];
    simpl; try done.
  by destruct (existsb _ _).
Qed.

Lemma parseJSDoc_undocumented (node : Node) :
  undocumented node -> parsedDoc node = emptyJSDoc.
Proof.
  intros [Hkind Hdocs].
  unfold Members.parsedDoc, ModuleParser.parseJSDoc.
  apply String.eqb_neq in Hkind. rewrite Hkind. simpl.
  by destruct Hdocs as [-> | ->].
Qed.

Lemma parseJSDoc_throws (node : Node) (text : string)
    (rest : list string) (error : string) :
  getKindName node <> "JSDoc" ->
  getJsDocs node = Some (text :: rest) ->
  commentParserDefault text = Throw error ->
  parseJSDoc node = Ok emptyJSDoc.
Proof.
  intros Hkind Hdocs Hthrow. unfold ModuleParser.parseJSDoc.
  apply String.eqb_neq in Hkind. rewrite Hkind, Hdocs. simpl.
  by rewrite Hthrow.
Qed.

(** *** What each step writes *)

Lemma lift_parseJSDoc (node : Node) (k : JSDocInfo -> M unit)
    (methods : gmap string MethodInfo) :
  (lift (parseJSDoc node) ≫= k) methods = k (parsedDoc node) methods.
Proof. unfold mbind, M_bind, lift. by rewrite parseJSDoc_Ok. Qed.

Lemma processFunctionDeclaration_eq (declaration : FunctionDeclaration)
    (namePrefix : option string) (methods : gmap string MethodInfo) :
  let doc := parsedDoc (fnNode declaration) in
  let name :=
    orElse (default "" namePrefix) (default "" (fnGetName declaration)) in
  processFunctionDeclaration commentParserDefault config declaration
    namePrefix methods
  = (Ok tt,
     <[name := createMethodInfo name (docDescription doc)
                 (extractParams doc) (extractReturns doc) KFunction
                 (fnIsAsync declaration) Public]> methods).
Proof.
  unfold processFunctionDeclaration. cbv zeta.
  by rewrite lift_parseJSDoc.
Qed.

Lemma processVariableDeclaration_eq (declaration : VariableDeclaration)
    (namePrefix : option string) (methods : gmap string MethodInfo) :
  let doc := parsedDoc (varNode declaration) in
  let name := orElse (default "" namePrefix) (varGetName declaration) in
  processVariableDeclaration commentParserDefault config declaration
    namePrefix methods = (Ok tt, methods) \/
  exists isAsync,
    processVariableDeclaration commentParserDefault config declaration
      namePrefix methods
    = (Ok tt,
       <[name := createMethodInfo name (docDescription doc)
                   (extractParams doc) (extractReturns doc) KFunction
                   isAsync Public]> methods).
Proof.
  unfold processVariableDeclaration. cbv zeta.
  destruct (varInitializer declaration) as [text|]; [|by left].
  destruct (negb _ && negb _ && negb _); [by left|].
  right. eexists. by rewrite lift_parseJSDoc.
Qed.

Lemma processMethod_eq (method : MethodDeclaration) (className : string)
    (methodKind : MethodKind) (visibility : Visibility)
    (methods : gmap string MethodInfo) :
  let doc := parsedDoc (methNode method) in
  let fullName := className +:+ "." +:+ methGetName method in
  processMethod commentParserDefault config method className methodKind
    visibility methods
  = (Ok tt,
     <[fullName := createMethodInfo fullName (docDescription doc)
                     (extractParams doc) (extractReturns doc) methodKind
                     (methIsAsync method) visibility]> methods).
Proof. unfold processMethod. cbv zeta. by rewrite lift_parseJSDoc. Qed.

Lemma processPropertyMethod_eq (property : PropertyDeclaration)
    (className : string) (methods : gmap string MethodInfo) :
  let doc := parsedDoc (propNode property) in
  let fullName := className +:+ "." +:+ propGetName property in
  exists isAsync,
    processPropertyMethod commentParserDefault config property className
      methods
    = (Ok tt,
       <[fullName := createMethodInfo fullName (docDescription doc)
                       (extractParams doc) (extractReturns doc) KProperty
                       isAsync (visibilityOf (propModifiers property))]>
         methods).
Proof.
  unfold processPropertyMethod. cbv zeta. eexists.
  by rewrite lift_parseJSDoc.
Qed.

Lemma processGetter_eq (accessor : AccessorDeclaration)
    (className : string) (methods : gmap string MethodInfo) :
  let doc := parsedDoc (accNode accessor) in
  let fullName := className +:+ "." +:+ accGetName accessor in
  processAccessor commentParserDefault config accessor className KGetter
    methods
  = (Ok tt,
     <[fullName := createMethodInfo fullName (docDescription doc) []
                     (extractReturns doc) KGetter false
                     (visibilityOf (accModifiers accessor))]> methods).
Proof. unfold processAccessor. cbv zeta. by rewrite lift_parseJSDoc. Qed.

Lemma processSetter_eq (accessor : AccessorDeclaration)
    (className : string) (methods : gmap string MethodInfo) :
  let doc := parsedDoc (accNode accessor) in
  let fullName := className +:+ "." +:+ accGetName accessor in
  processAccessor commentParserDefault config accessor className KSetter
    methods
  = (Ok tt,
     <[fullName := createMethodInfo fullName (docDescription doc)
                     (declaredSetterParams config accessor doc) None
                     KSetter false
                     (visibilityOf (accModifiers accessor))]> methods).
Proof.
  unfold processAccessor, declaredSetterParams. cbv zeta.
  rewrite lift_parseJSDoc. by destruct (accParameters accessor).
Qed.

Lemma processConstructors_eq (declaration : ClassDeclaration)
    (className : string) (constructor : Node) (rest : list Node)
    (methods : gmap string MethodInfo) :
  getConstructors declaration = constructor :: rest ->
  let doc := parsedDoc constructor in
  processConstructors commentParserDefault config declaration className
    methods
  = (Ok tt,
     <[constructorKey className :=
         createMethodInfo (constructorKey className) (docDescription doc)
           (extractParams doc) None KConstructor false Public]> methods).
Proof.
  intros Hctor. unfold processConstructors. rewrite Hctor. cbv zeta.
  by rewrite lift_parseJSDoc.
Qed.

(** *** Loops and whole declarations return normally *)

Lemma succeeds_lift_parseJSDoc (node : Node) (k : JSDocInfo -> M unit) :
  (forall doc, succeeds (k doc)) -> succeeds (lift (parseJSDoc node) ≫= k).
Proof. intros Hk m. rewrite lift_parseJSDoc. apply Hk. Qed.

Lemma succeeds_processFunctionDeclaration
    (declaration : FunctionDeclaration) (namePrefix : option string) :
  succeeds (processFunctionDeclaration commentParserDefault config
              declaration namePrefix).
Proof. intros m. rewrite processFunctionDeclaration_eq. by eexists. Qed.

Lemma succeeds_processVariableDeclaration
    (declaration : VariableDeclaration) (namePrefix : option string) :
  succeeds (processVariableDeclaration commentParserDefault config
              declaration namePrefix).
Proof.
  intros m.
  destruct (processVariableDeclaration_eq declaration namePrefix m)
    as [->|[isAsync ->]]; by eexists.
Qed.

Lemma succeeds_processMethod (method : MethodDeclaration)
    (className : string) (methodKind : MethodKind) (visibility : Visibility) :
  succeeds (processMethod commentParserDefault config method className
              methodKind visibility).
Proof. intros m. rewrite processMethod_eq. by eexists. Qed.

Lemma succeeds_processPropertyMethod (property : PropertyDeclaration)
    (className : string) :
  succeeds (processPropertyMethod commentParserDefault config property
              className).
Proof.
  intros m. destruct (processPropertyMethod_eq property className m)
    as [isAsync ->]. by eexists.
Qed.

Lemma succeeds_processAccessor (accessor : AccessorDeclaration)
    (className : string) (methodKind : MethodKind) :
  succeeds (processAccessor commentParserDefault config accessor className
              methodKind).
Proof.
  unfold processAccessor. cbv zeta. apply succeeds_lift_parseJSDoc.
  intros doc. apply succeeds_assign.
Qed.

Lemma succeeds_processConstructors (declaration : ClassDeclaration)
    (className : string) :
  succeeds (processConstructors commentParserDefault config declaration
              className).
Proof.
  unfold processConstructors.
  destruct (getConstructors declaration) as [|constructor rest];
    [apply succeeds_ret|].
  apply succeeds_lift_parseJSDoc. intros doc. apply succeeds_assign.
Qed.

Lemma succeeds_processClassDeclaration (declaration : ClassDeclaration)
    (className : string) :
  succeeds (processClassDeclaration commentParserDefault config declaration
              className).
Proof.
  unfold processClassDeclaration.
  repeat (apply succeeds_bind; [|intros _]);
    try apply succeeds_processConstructors;
    apply succeeds_when, succeeds_forEach; intros x.
  - destruct (methIsStatic x);
      [apply succeeds_ret|apply succeeds_processMethod].
  - apply succeeds_processMethod.
  - destruct (propInitializer x); [|apply succeeds_ret].
    apply succeeds_when, succeeds_processPropertyMethod.
  - apply succeeds_processAccessor.
  - apply succeeds_processAccessor.
Qed.

Lemma succeeds_processNamespaceDeclaration (namespace : ModuleDeclaration)
    (namespaceName : string) :
  succeeds (processNamespaceDeclaration commentParserDefault config
              namespace namespaceName).
Proof.
  destruct namespace as [exported identifier [body|]];
    cbn [processNamespaceDeclaration]; [|apply succeeds_ret].
  repeat (apply succeeds_bind; [|intros _]);
    apply succeeds_forEach; intros x; apply succeeds_tryNoOp.
Qed.

Lemma succeeds_walk (sourceFile : SourceFile) :
  succeeds (walk commentParserDefault config sourceFile).
Proof.
  unfold walk.
  repeat (apply succeeds_bind; [|intros _]);
    apply succeeds_forEach; intros x.
  - apply succeeds_when, succeeds_processFunctionDeclaration.
  - apply succeeds_when, succeeds_processClassDeclaration.
  - apply succeeds_when, succeeds_processVariableDeclaration.
  - apply succeeds_tryNoOp.
Qed.

Lemma moduleInfoStep_Ok (vars : string * string) (jsDocText : string) :
  exists vars',
    moduleInfoStep commentParserDefault vars jsDocText = Ok vars'.
Proof.
  unfold moduleInfoStep.
  destruct (commentParserDefault jsDocText) as [[[|first blocks]|]|e];
    simpl; by eexists.
Qed.

Lemma forOf_moduleInfoStep_Ok (comments : list string)
    (vars : string * string) :
  exists vars',
    forOf (moduleInfoStep commentParserDefault) vars comments = Ok vars'.
Proof.
  revert vars; induction comments as [|text comments IH]; intros vars;
    cbn [forOf]; [by eexists|].
  destruct (moduleInfoStep_Ok vars text) as [vars' ->]. simpl. apply IH.
Qed.

Lemma extractModuleInfo_Ok (sourceFile : SourceFile) :
  exists moduleInfo,
    extractModuleInfo commentParserDefault sourceFile = Ok moduleInfo.
Proof.
  unfold extractModuleInfo. cbv zeta.
  destruct (forOf_moduleInfoStep_Ok (getJSDocComments sourceFile)
              (Regex.remove Regex.reExtension (getBaseName sourceFile), ""))
    as [vars ->].
  simpl. by eexists.
Qed.

Lemma parseSourceFile_Ok (sourceFile : SourceFile) :
  exists result,
    parseSourceFile commentParserDefault config sourceFile = Ok result.
Proof.
  unfold parseSourceFile.
  destruct (succeeds_walk sourceFile ∅) as [methods ->].
  destruct (extractModuleInfo_Ok sourceFile) as [moduleInfo ->].
  simpl. by eexists.
Qed.

(** *** A property kept by every member of a class is kept by the class *)

Lemma processClassDeclaration_preserves
    (P : gmap string MethodInfo -> Prop) (declaration : ClassDeclaration)
    (className : string) (methods : gmap string MethodInfo) :
  P (processConstructors commentParserDefault config declaration className
       methods).2 ->
  (forall method kind visibility m,
     method ∈ getMethods declaration -> kind <> KConstructor -> P m ->
     P (processMethod commentParserDefault config method className kind
          visibility m).2) ->
  (forall property m,
     property ∈ getProperties declaration -> P m ->
     P (processPropertyMethod commentParserDefault config property className
          m).2) ->
  (forall accessor kind m,
     accessor ∈ getGetAccessors declaration ++ getSetAccessors declaration ->
     kind <> KConstructor -> P m ->
     P (processAccessor commentParserDefault config accessor className kind
          m).2) ->
  P (processClassDeclaration commentParserDefault config declaration
       className methods).2.
Proof.
  intros Hctor Hmethod Hproperty Haccessor. unfold processClassDeclaration.
  apply bind_preserves; [done|]. clear methods Hctor. intros _ m Hm.
  apply bind_preserves.
  { apply when_preserves; [|done]. intros Hm'.
    apply forEach_preserves; [|done]. apply Forall_forall.
    intros method Hin m' Hm''. destruct (methIsStatic method); [done|].
    by apply Hmethod. }
  clear m Hm. intros _ m Hm. apply bind_preserves.
  { apply when_preserves; [|done]. intros Hm'.
    apply forEach_preserves; [|done]. apply Forall_forall.
    intros method Hin m' Hm''. apply Hmethod; [|done|done].
    unfold getStaticMethods in Hin.
    apply list_elem_of_In, filter_In in Hin as [Hin _].
    by apply list_elem_of_In. }
  clear m Hm. intros _ m Hm. apply bind_preserves.
  { apply when_preserves; [|done]. intros Hm'.
    apply forEach_preserves; [|done]. apply Forall_forall.
    intros property Hin m' Hm''.
    destruct (propInitializer property); [|done].
    apply when_preserves; [|done]. intros _. by apply Hproperty. }
  clear m Hm. intros _ m Hm. apply bind_preserves.
  { apply when_preserves; [|done]. intros Hm'.
    apply forEach_preserves; [|done]. apply Forall_forall.
    intros accessor Hin m' Hm''. apply Haccessor; [|done|done].
    apply elem_of_app. by left. }
  clear m Hm. intros _ m Hm.
  apply when_preserves; [|done]. intros Hm'.
  apply forEach_preserves; [|done]. apply Forall_forall.
  intros accessor Hin m' Hm''. apply Haccessor; [|done|done].
  apply elem_of_app. by right.
Qed.

End WithParser.

(** Keys: [className + "." + name] is the key of the constructor only for
    the name [constructor]. *)
Lemma append_inj_l (a x y : string) : a +:+ x = a +:+ y -> x = y.
Proof. induction a as [|c a IH]; simpl; [done|]. intros [= H]. by apply IH. Qed.

Lemma constructorKey_inj (className memberName : string) :
  className +:+ "." +:+ memberName = constructorKey className ->
  memberName = "constructor".
Proof.
  unfold constructorKey. intros H%append_inj_l. by injection H.
Qed.

End WalkerFacts.

(** ** The walker: the properties of the specification *)

Module WalkerSpec.
Import JsString Types TypeParser Effects Syntax Comment ModuleParser Members.
Import Samples WalkerFacts.

(** C9: when comment-parser throws on the comment block attached to a
    declaration, [parseJSDoc] returns the empty description and the empty
    tag list for that declaration, and the exception goes no further: the
    walk of any source file (the one that holds the declaration included)
    returns normally and [parseSourceFile] returns a result. *)
Theorem malformed_comment_is_swallowed
    (commentParserDefault : string -> outcome (option (list Block)))
    (config : ASTParserConfig) (node : Node) (text : string)
    (rest : list string) (error : string) (sourceFile : SourceFile)
    (Hkind : getKindName node <> "JSDoc")
    (Hdocs : getJsDocs node = Some (text :: rest))
    (Hthrow : commentParserDefault text = Throw error) :
  parseJSDoc commentParserDefault node = Ok emptyJSDoc /\
  (exists methods,
     walk commentParserDefault config sourceFile ∅ = (Ok tt, methods)) /\
  (exists result,
     parseSourceFile commentParserDefault config sourceFile = Ok result).
Proof.
  split_and!.
  - by eapply parseJSDoc_throws.
  - apply succeeds_walk.
  - apply parseSourceFile_Ok.
Qed.

Lemma malformed_comment_is_swallowed_witness :
  parseJSDoc sampleCommentParser (methNode brokenMethod) = Ok emptyJSDoc /\
  (exists methods,
     walk sampleCommentParser DEFAULT_AST_CONFIG (totalSourceFile "calc.ts") ∅
     = (Ok tt, methods)) /\
  (exists result,
     parseSourceFile sampleCommentParser DEFAULT_AST_CONFIG
       (totalSourceFile "calc.ts") = Ok result).
Proof.
  apply (malformed_comment_is_swallowed sampleCommentParser
           DEFAULT_AST_CONFIG (methNode brokenMethod) "/** @param {" []
           "SyntaxError: unclosed type" (totalSourceFile "calc.ts"));
    [discriminate|reflexivity|reflexivity].
Defined.

(** C2, as stated, fails on setters: a setter without a documentation
    comment still gets the parameter of its declared signature. *)
Lemma undocumented_setter_counterexample :
  ~ (forall (member : Member) (methods : gmap string MethodInfo)
            (key : string) (info : MethodInfo),
       (forall node, memberNode member = Some node -> undocumented node) ->
       processMember sampleCommentParser DEFAULT_AST_CONFIG member methods
       = (Ok tt, <[key := info]> methods) ->
       params info = [] /\ returns info = None).
Proof.
  intros H.
  edestruct (H (MSetter bareSetter "Total") ∅) as [Hparams _].
  - intros node [= <-]. split; [discriminate|by right].
  - cbn [processMember]. apply processSetter_eq.
  - discriminate Hparams.
Qed.

(** C2, amended: for every declaration of kind function, constructor,
    instance, static, property or getter, the walker either records
    nothing (a variable that holds no function, a class without
    constructor) or records one descriptor whose parameter list and return
    info are functions of the parsed documentation comment alone
    ([documentedParams], [documentedReturns]); with no documentation
    comment they are the empty list and null, whatever the declared
    signature.  A setter is different by design: its parameter list is
    taken from the first parameter of its declared signature, and its
    return info is null. *)
Theorem parameters_come_from_documentation
    (commentParserDefault : string -> outcome (option (list Block)))
    (config : ASTParserConfig) (member : Member)
    (methods : gmap string MethodInfo) :
  let doc := memberDoc commentParserDefault member in
  let run := processMember commentParserDefault config member methods in
  match member with
  | MSetter accessor className =>
      exists info,
        run = (Ok tt, <[className +:+ "." +:+ accGetName accessor := info]>
                        methods) /\
        methodKind info = KSetter /\
        params info = declaredSetterParams config accessor doc /\
        returns info = None
  | _ =>
      run = (Ok tt, methods) \/
      exists key info,
        run = (Ok tt, <[key := info]> methods) /\
        methodKind info = memberKind member /\
        params info = documentedParams config (memberKind member) doc /\
        returns info = documentedReturns config (memberKind member) doc /\
        ((forall node, memberNode member = Some node -> undocumented node) ->
         params info = [] /\ returns info = None)
  end.
Proof.
  assert (forall node, undocumented node ->
            extractParams config (parsedDoc commentParserDefault node) = [] /\
            extractReturns config (parsedDoc commentParserDefault node) = None)
    as Hempty.
  { intros node Hnode. by rewrite (parseJSDoc_undocumented _ _ Hnode). }
  destruct member as [declaration namePrefix|declaration namePrefix
                     |declaration className|method className static
                     |property className|accessor className
                     |accessor className]; cbv zeta;
    cbn [processMember memberKind memberDoc memberNode].
  - right. do 2 eexists. split; [apply processFunctionDeclaration_eq|].
    split_and!; try done. intros Hnode. by apply Hempty, Hnode.
  - destruct (processVariableDeclaration_eq commentParserDefault config
                declaration namePrefix methods) as [->|[isAsync ->]];
      [by left|right].
    do 2 eexists. split; [done|].
    split_and!; try done. intros Hnode. by apply Hempty, Hnode.
  - unfold processConstructors.
    destruct (getConstructors declaration) as [|constructor rest] eqn:Hctor;
      [by left|right]. cbv zeta. rewrite lift_parseJSDoc.
    unfold memberDoc. cbn [memberNode]. rewrite Hctor. cbn [head].
    do 2 eexists. split; [done|].
    split_and!; try done. intros Hnode.
    split; [by apply Hempty, Hnode|done].
  - right. do 2 eexists. split; [apply processMethod_eq|].
    split_and!; try done; try by destruct static.
    intros Hnode. by apply Hempty, Hnode.
  - right.
    destruct (processPropertyMethod_eq commentParserDefault config property
                className methods) as [isAsync ->].
    do 2 eexists. split; [done|].
    split_and!; try done. intros Hnode. by apply Hempty, Hnode.
  - right. do 2 eexists. split; [apply processGetter_eq|].
    split_and!; try done. intros Hnode.
    split; [done|by apply Hempty, Hnode].
  - eexists. split; [apply processSetter_eq|]. by split_and!.
Qed.

(** One class: the constructor step writes one descriptor, built from the
    first declared constructor, under the key [<className>.constructor];
    when no member of the class processed afterwards is itself named
    [constructor], that descriptor is still under that key when the whole
    class has been processed; and no other descriptor of kind
    [constructor] has been added. *)
Lemma processClassDeclaration_constructor
    (commentParserDefault : string -> outcome (option (list Block)))
    (config : ASTParserConfig) (declaration : ClassDeclaration)
    (className : string) (methods : gmap string MethodInfo)
    (constructor : Node) (overloads : list Node)
    (Hconstructors : getConstructors declaration = constructor :: overloads)
    (Hreserved : constructorNameReserved declaration) :
  let doc := parsedDoc commentParserDefault constructor in
  let info :=
    mkMethodInfo (constructorKey className) (docDescription doc)
      (extractParams config doc) None KConstructor false Public in
  let result :=
    (processClassDeclaration commentParserDefault config declaration
       className methods).2 in
  processConstructors commentParserDefault config declaration className
    methods = (Ok tt, <[constructorKey className := info]> methods) /\
  result !! constructorKey className = Some info /\
  (forall key other,
     result !! key = Some other -> methodKind other = KConstructor ->
     key = constructorKey className \/ methods !! key = Some other).
Proof.
  intros doc info result.
  pose proof (processConstructors_eq commentParserDefault config declaration
                className constructor overloads methods Hconstructors)
    as Hstep.
  cbv zeta in Hstep. fold doc in Hstep.
  destruct Hreserved as (Hmethods & Hproperties & Hgetters & Hsetters).
  split_and!; [exact Hstep| |].
  - apply processClassDeclaration_preserves.
    + rewrite Hstep. apply lookup_insert_eq.
    + intros method kind visibility m Hin _ Hm.
      rewrite processMethod_eq. cbn [snd]. rewrite lookup_insert_ne; [done|].
      intros Heq%constructorKey_inj.
      by eapply Forall_forall in Hmethods.
    + intros property m Hin Hm.
      destruct (processPropertyMethod_eq commentParserDefault config property
                  className m) as [isAsync ->].
      cbn [snd]. rewrite lookup_insert_ne; [done|].
      intros Heq%constructorKey_inj.
      by eapply Forall_forall in Hproperties.
    + intros accessor kind m Hin _ Hm.
      assert (accGetName accessor <> "constructor") as Hname.
      { apply elem_of_app in Hin as [Hin|Hin];
          [by eapply Forall_forall in Hgetters
          |by eapply Forall_forall in Hsetters]. }
      unfold processAccessor. cbv zeta. rewrite lift_parseJSDoc.
      cbn [assign snd]. rewrite lookup_insert_ne; [done|].
      by intros Heq%constructorKey_inj.
  - apply (processClassDeclaration_preserves commentParserDefault config
             (fun m => forall key other,
                m !! key = Some other -> methodKind other = KConstructor ->
                key = constructorKey className \/ methods !! key = Some other)).
    + rewrite Hstep. cbn [snd]. intros key other Hlookup Hkind.
      destruct (decide (key = constructorKey className)) as [->|Hne];
        [by left|right].
      by rewrite lookup_insert_ne in Hlookup.
    + intros method kind visibility m Hin Hkind Hm key other.
      rewrite processMethod_eq. cbn [snd]. intros Hlookup Hother.
      apply lookup_insert_Some in Hlookup as [[_ <-]|[_ Hlookup]];
        [done|by apply Hm].
    + intros property m Hin Hm key other.
      destruct (processPropertyMethod_eq commentParserDefault config property
                  className m) as [isAsync ->].
      cbn [snd]. intros Hlookup Hother.
      apply lookup_insert_Some in Hlookup as [[_ <-]|[_ Hlookup]];
        [done|by apply Hm].
    + intros accessor kind m Hin Hkind Hm key other.
      unfold processAccessor. cbv zeta. rewrite lift_parseJSDoc.
      cbn [assign snd]. intros Hlookup Hother.
      apply lookup_insert_Some in Hlookup as [[_ <-]|[_ Hlookup]];
        [done|by apply Hm].
Qed.

End WalkerSpec.

(** ** Parsing a file: module metadata and independence of the path *)

Module ParseSpec.
Import JsString Regex Types Effects Syntax Comment ModuleParser Print Cli.
Import Observe Samples MoreSamples WalkerFacts.

Section WithProject.
Variable commentParserDefault : string -> outcome (option (list Block)).
Variable Project : Type.
Variable newProject : Project.
Variable createSourceFile :
  Project -> string -> string -> outcome SourceFile * Project.
Variable isAbsolute : string -> bool.
Variable join : string -> string -> string.

Local Abbreviation get :=
  (get commentParserDefault Project newProject createSourceFile isAbsolute
     join).
Local Abbreviation resolved := (resolved isAbsolute join).
Local Abbreviation parse :=
  (parse commentParserDefault Project createSourceFile isAbsolute join).
Local Abbreviation new := (new Project newProject).
Local Abbreviation project := (project Project).

(** The name one turn of the loop leaves is the one it found, unless the
    comment block carries a [@module] tag with a name. *)
Lemma moduleInfoStep_name (name description text : string) :
  exists name' description',
    moduleInfoStep commentParserDefault (name, description) text
    = Ok (name', description') /\
    (name' = name \/
     exists first blocks t,
       commentParserDefault text = Ok (Some (first :: blocks)) /\
       List.find (fun t => String.eqb (tag t) "module") (blockTags first)
       = Some t /\
       truthy (tagName t) = true /\ name' = tagName t).
Proof.
  unfold moduleInfoStep. cbn [fst].
  destruct (commentParserDefault text) as [[[|first blocks]|]|e] eqn:Hparse;
    simpl; try (do 2 eexists; split; [done|by left]).
  destruct (List.find _ (blockTags first)) as [t|] eqn:Hfind;
    [|do 2 eexists; split; [done|by left]].
  destruct (truthy (tagName t)) eqn:Hname;
    [|do 2 eexists; split; [done|by left]].
  do 2 eexists. split; [done|right].
  by exists first, blocks, t.
Qed.

Lemma forOf_moduleInfoStep_name (comments : list string)
    (name description name' description' : string) :
  forOf (moduleInfoStep commentParserDefault) (name, description) comments
  = Ok (name', description') ->
  name' = name \/
  exists text first blocks t,
    text ∈ comments /\
    commentParserDefault text = Ok (Some (first :: blocks)) /\
    List.find (fun t => String.eqb (tag t) "module") (blockTags first)
    = Some t /\
    truthy (tagName t) = true /\ name' = tagName t.
Proof.
  revert name description.
  induction comments as [|text comments IH]; intros name description;
    cbn [forOf]; [intros [= <- <-]; by left|].
  destruct (moduleInfoStep_name name description text)
    as (name1 & description1 & -> & Hstep).
  simpl. intros [->|H]%IH.
  - destruct Hstep as [->|(first & blocks & t & Hstep)]; [by left|right].
    exists text, first, blocks, t. split; [by left|done].
  - right. destruct H as (text' & first & blocks & t & Hin & H).
    exists text', first, blocks, t. split; [by right|done].
Qed.

(** On a source file, [extractModuleInfo] does what the claim says: the
    file name is the base name, and the name is the base name without its
    extension unless a [@module] tag names the module. *)
Lemma extractModuleInfo_names (sourceFile : SourceFile)
    (moduleInfo : ModuleInfo) :
  extractModuleInfo commentParserDefault sourceFile = Ok moduleInfo ->
  fileName moduleInfo = getBaseName sourceFile /\
  (moduleInfoName moduleInfo = remove reExtension (getBaseName sourceFile) \/
   exists text first blocks t,
     text ∈ getJSDocComments sourceFile /\
     commentParserDefault text = Ok (Some (first :: blocks)) /\
     List.find (fun t => String.eqb (tag t) "module") (blockTags first)
     = Some t /\
     truthy (tagName t) = true /\ moduleInfoName moduleInfo = tagName t).
Proof.
  unfold extractModuleInfo. cbv zeta.
  destruct (forOf _ _ _) as [[name description]|e] eqn:Hloop; [|done].
  simpl. intros [= <-]. split; [done|].
  by apply forOf_moduleInfoStep_name in Hloop.
Qed.

Lemma get_unfold (filePath : string) (config : PartialConfig) (deno : Deno)
    (content : string) :
  readTextFile deno (resolved deno filePath) = Ok content ->
  get filePath config deno
  = match (createSourceFile newProject "temp.ts" content).1 with
    | Ok sourceFile =>
        parseSourceFile commentParserDefault (mergeConfig config) sourceFile
    | Throw error => Throw error
    end.
Proof.
  unfold ModuleParser.get, parse, new, ModuleParser.resolved.
  cbn [ModuleParser.filePath ModuleParser.project ModuleParser.config].
  intros ->. by destruct (createSourceFile _ _ _) as [[sourceFile|e] p].
Qed.

(** ts-morph names a source file after the path it is created at. *)
Hypothesis createSourceFile_baseName :
  forall project filePath text sourceFile project',
    createSourceFile project filePath text = (Ok sourceFile, project') ->
    getBaseName sourceFile = baseNameOf filePath.

(** C3: the code does not do what the claim says.  Whatever file is
    parsed, [parse] creates the source file under the fixed path
    ["temp.ts"], so the descriptor of every module has [fileName]
    ["temp.ts"], and its name is ["temp"] unless a [@module] tag names the
    module: the base name of the input file is never seen. *)
Theorem parse_names_every_module_temp (filePath : string)
    (config : PartialConfig) (deno : Deno) (result : ParsedModuleResult)
    (Hparsed : get filePath config deno = Ok result) :
  fileName (module result) = "temp.ts" /\
  (moduleInfoName (module result) = "temp" \/
   exists content sourceFile text first blocks t,
     (createSourceFile newProject "temp.ts" content).1 = Ok sourceFile /\
     text ∈ getJSDocComments sourceFile /\
     commentParserDefault text = Ok (Some (first :: blocks)) /\
     List.find (fun t => String.eqb (tag t) "module") (blockTags first)
     = Some t /\
     truthy (tagName t) = true /\
     moduleInfoName (module result) = tagName t).
Proof.
  destruct (readTextFile deno (resolved deno filePath)) as [content|e]
    eqn:Hread.
  - rewrite (get_unfold _ _ _ _ Hread) in Hparsed.
    destruct (createSourceFile newProject "temp.ts" content)
      as [[sourceFile|e] project'] eqn:Hcreate; [|done].
    cbn [fst] in Hparsed. unfold parseSourceFile in Hparsed.
    destruct (walk _ _ _ ∅) as [[[]|e] methods]; [|done].
    destruct (extractModuleInfo _ sourceFile) as [moduleInfo|e] eqn:Hinfo;
      [|done].
    simpl in Hparsed. injection Hparsed as <-. cbn [module].
    apply extractModuleInfo_names in Hinfo as [Hfile Hname].
    apply createSourceFile_baseName in Hcreate as Hbase.
    rewrite Hbase in Hfile, Hname.
    split; [exact Hfile|].
    destruct Hname as [Hname|(text & first & blocks & t & H)];
      [by left|right].
    exists content, sourceFile, text, first, blocks, t.
    by rewrite Hcreate.
  - unfold ModuleParser.get, parse, new in Hparsed.
    cbn [ModuleParser.filePath ModuleParser.project] in Hparsed.
    unfold ModuleParser.resolved in Hread.
    by rewrite Hread in Hparsed.
Qed.


End WithProject.

(** [extractModuleInfo] on three source files: the extension is stripped,
    a [@module] tag overrides the name, another extension is kept. *)
Example extractModuleInfo_default_name :
  extractModuleInfo sampleCommentParser (totalSourceFile "calc.tsx")
  = Ok (mkModuleInfo "calc" "" "calc.tsx" [] []).
Proof. by vm_compute. Qed.

Example extractModuleInfo_module_tag :
  extractModuleInfo sampleCommentParser (namedSourceFile "calc.ts")
  = Ok (mkModuleInfo "Calc" "A calculator" "calc.ts" [] []).
Proof. by vm_compute. Qed.

Example extractModuleInfo_other_extension :
  extractModuleInfo sampleCommentParser (totalSourceFile "calc.d.mts")
  = Ok (mkModuleInfo "calc.d.mts" "" "calc.d.mts" [] []).
Proof. by vm_compute. Qed.

Lemma sampleCreateSourceFile_baseName :
  forall project filePath text sourceFile project',
    sampleCreateSourceFile project filePath text = (Ok sourceFile, project') ->
    getBaseName sourceFile = baseNameOf filePath.
Proof. intros project filePath text sourceFile project' [= <- _]. done. Qed.

Lemma parse_names_every_module_temp_witness :
  exists result,
    sampleGet "calc.ts" sampleDeno = Ok result /\
    fileName (module result) = "temp.ts" /\
    moduleInfoName (module result) = "temp".
Proof.
  destruct (sampleGet "calc.ts" sampleDeno) as [result|e] eqn:Hget;
    [|by vm_compute in Hget].
  exists result. split; [done|].
  destruct (parse_names_every_module_temp sampleCommentParser (list string)
              [] sampleCreateSourceFile sampleIsAbsolute sampleJoin
              sampleCreateSourceFile_baseName "calc.ts" emptyConfig sampleDeno
              result Hget) as [Hfile [Hname|Htag]]; [done|].
  destruct Htag as (content & sourceFile & text & first & blocks & t
                    & [= <-] & Hin & _).
  by apply elem_of_nil in Hin.
Defined.



End ParseSpec.

(** ** The dispatcher: a method that is not public is not executed *)

Module CliSpec.
Import JsString Types Effects Syntax Comment ModuleParser Print Cli.
Import Samples.

Section WithRuntime.
Variable commentParserDefault : string -> outcome (option (list Block)).
Variable Project : Type.
Variable newProject : Project.
Variable createSourceFile :
  Project -> string -> string -> outcome SourceFile * Project.
Variable isAbsolute : string -> bool.
Variable join : string -> string -> string.
Variable runtime : Runtime.
Variable deno : Deno.

Local Abbreviation moduleToCLI_get :=
  (moduleToCLI_get commentParserDefault Project newProject createSourceFile
     isAbsolute join deno).
Local Abbreviation cliMain :=
  (cliMain commentParserDefault Project newProject createSourceFile
     isAbsolute join runtime deno).
Local Abbreviation main :=
  (main commentParserDefault Project newProject createSourceFile
     isAbsolute join runtime deno).

Local Abbreviation quiet := (Forall (fun e => isExecution e = false)).

(** The specification generator reads and prints; it executes nothing. *)
Lemma parseCommandLineArgs_quiet (denoArgs : list string) :
  quiet (parseCommandLineArgs runtime denoArgs).1.
Proof.
  unfold parseCommandLineArgs. cbv zeta.
  set (flags := parseArgs runtime _ specOptions).
  assert (quiet (map (fun arg => EConsoleWarn ("Warning: Unknown option " +:+ arg))
                   (List.filter (fun arg => startsWith arg "-")
                      (unknown flags)))) as Hwarn.
  { apply Forall_map. by apply Forall_true. }
  destruct (flagBool flags "help"); cbn [fst].
  { apply Forall_app. split; [done|]. by repeat constructor. }
  destruct (positional flags); cbn [fst]; [|done].
  apply Forall_app. split; [done|]. by repeat constructor.
Qed.

Lemma generateModuleSpecification_quiet (config : ModuleProcessingConfig) :
  quiet (generateModuleSpecification commentParserDefault Project newProject
           createSourceFile isAbsolute join deno config).1.
Proof.
  unfold generateModuleSpecification.
  destruct (Cli.moduleToCLI_get _ _ _ _ _ _ _ _) as [result|e];
    [|by repeat constructor].
  destruct (outputJson config); by repeat constructor.
Qed.

Lemma cliMain_quiet (denoArgs : list string) : quiet (cliMain denoArgs).1.
Proof.
  unfold Cli.cliMain.
  pose proof (parseCommandLineArgs_quiet denoArgs) as Hargs.
  destruct (parseCommandLineArgs runtime denoArgs) as [events result].
  cbn [fst] in Hargs.
  destruct (cmdConfig result) as [config|]; [|done].
  pose proof (generateModuleSpecification_quiet config) as Hgen.
  destruct (generateModuleSpecification _ _ _ _ _ _ _ config)
    as [events' outcome].
  cbn [fst] in Hgen.
  destruct outcome; cbn [fst]; apply Forall_app; by split.
Qed.

(** C10: when the method named on the command line (the second positional
    argument) has a descriptor whose visibility is not [public], no run of
    [main] imports the target module, constructs a class of it or calls a
    function of it; and a run that gets as far as the lookup (not the
    generator mode, no help flag, a name that is not empty) does exactly
    one thing: it reports that the method is not public, and returns. *)
Theorem non_public_method_is_not_executed (denoArgs : list string)
    (modulePath methodName : string) (others : list string)
    (parsedModule : ParsedModuleResult) (methodInfo : MethodInfo)
    (Hargs : positional (parseArgs runtime denoArgs mainOptions)
             = modulePath :: methodName :: others)
    (Hparsed : moduleToCLI_get modulePath = Ok parsedModule)
    (Hfound : methods parsedModule !! methodName = Some methodInfo)
    (Hvisibility : visibility methodInfo <> Public) :
  Forall (fun e => isExecution e = false) (main denoArgs).1 /\
  (head denoArgs <> Some "generate" ->
   flagBool (parseArgs runtime denoArgs mainOptions) "help" = false ->
   methodName <> "" ->
   main denoArgs
   = ([EConsoleError ("Method " +:+ methodName +:+ " is not public")],
      Returned)).
Proof.
  assert (visibility_eqb (visibility methodInfo) Public = false) as Hguard.
  { by destruct (visibility methodInfo). }
  assert (head denoArgs <> Some "generate" ->
          match denoArgs with
          | first :: _ => String.eqb first "generate"
          | [] => false
          end = false) as Hmode.
  { destruct denoArgs as [|first args]; [done|]. cbn [head]. intros Hne.
    apply String.eqb_neq. congruence. }
  unfold Cli.main. cbv zeta.
  set (generateMode := match denoArgs with
                       | first :: _ => String.eqb first "generate"
                       | [] => false
                       end) in *.
  set (flags := parseArgs runtime denoArgs mainOptions) in *.
  rewrite Hargs. cbn [length Nat.ltb Nat.leb lookup list_lookup default id].
  unfold parseModule. fold moduleToCLI_get. rewrite Hparsed.
  cbn [specMethods app]. rewrite Hfound, Hguard. cbn [negb].
  rewrite orb_false_r.
  split.
  - destruct generateMode; [apply cliMain_quiet|].
    destruct (flagBool flags "help"); [by repeat constructor|].
    destruct (truthy methodName); by repeat constructor.
  - intros Hgenerate Hhelp Hname.
    rewrite (Hmode Hgenerate), Hhelp. by destruct methodName.
Qed.

(** Past the guard, the first thing [main] does is to import the target
    module. *)
Lemma dispatch_imports (modulePath methodName : string)
    (methodInfo : MethodInfo) (flags : Flags) (spec : ModuleSpec)
    (constructorArgs : gmap string string) :
  exists moduleName events,
    dispatch runtime deno modulePath methodName methodInfo flags spec
      constructorArgs = EImport moduleName :: events.
Proof.
  unfold dispatch, importModule. cbv zeta.
  destruct (dynamicImport runtime _) as [module|e]; [|by do 2 eexists].
  destruct (methodKind methodInfo);
    try destruct (executeFunctionMethod _ _ _ _ _);
    try destruct (executeInstanceMethod _ _ _ _ _ _ _);
    try destruct (executeStaticMethod _ _ _ _ _);
    by do 2 eexists.
Qed.

End WithRuntime.

(** The same command line on a public and on a private method of the
    sample class: the public one is imported, constructed and called. *)
Example public_method_is_executed :
  importingMain ["calc.ts"; "Total.g"]
  = ([EImport "file:///work/calc.ts"; ENew "Total" [];
      ECall ["Total"; "g"] []; EInspect (JForeign "g was called")],
     Returned).
Proof. by vm_compute. Qed.

Example private_method_is_reported :
  importingMain ["calc.ts"; "Total.secret"]
  = ([EConsoleError "Method Total.secret is not public"], Returned).
Proof. by vm_compute. Qed.

Lemma non_public_method_is_not_executed_witness :
  Forall (fun e => isExecution e = false)
    (sampleMain ["calc.ts"; "Total.secret"]).1 /\
  (head ["calc.ts"; "Total.secret"] <> Some "generate" ->
   flagBool (parseArgs sampleRuntime ["calc.ts"; "Total.secret"] mainOptions)
     "help" = false ->
   "Total.secret" <> "" ->
   sampleMain ["calc.ts"; "Total.secret"]
   = ([EConsoleError "Method Total.secret is not public"], Returned)).
Proof.
  destruct (sampleGet "calc.ts" sampleDeno) as [parsedModule|e] eqn:Hget;
    [|by vm_compute in Hget].
  destruct (methods parsedModule !! "Total.secret") as [methodInfo|] eqn:Hfound;
    [|by vm_compute in Hget; injection Hget as <-; vm_compute in Hfound].
  apply (non_public_method_is_not_executed sampleCommentParser (list string)
           [] sampleCreateSourceFile sampleIsAbsolute sampleJoin sampleRuntime
           sampleDeno ["calc.ts"; "Total.secret"] "calc.ts" "Total.secret" []
           parsedModule methodInfo); [reflexivity|exact Hget|exact Hfound|].
  vm_compute in Hget. injection Hget as <-. vm_compute in Hfound.
  injection Hfound as <-. discriminate.
Defined.

End CliSpec.

(** ** More on strings: occurrences, absent patterns, white space *)

Module JsStringMore.
Import JsString Regex Checks JsStringFacts.

#[local] Arguments len : simpl never.

Lemma append_cons (c : ascii) (a b : string) :
  String c a +:+ b = String c (a +:+ b).
Proof. reflexivity. Qed.

Lemma append_nil_r (s : string) : s +:+ "" = s.
Proof. induction s as [|c s IH]; [done|]. by rewrite append_cons, IH. Qed.

Lemma append_assoc (a b c : string) : (a +:+ b) +:+ c = a +:+ (b +:+ c).
Proof.
  induction a as [|x a IH]; [done|]. by rewrite !append_cons, IH.
Qed.

Lemma allChars_append (p : ascii -> bool) (a b : string) :
  allChars p (a +:+ b) = allChars p a && allChars p b.
Proof.
  induction a as [|c a IH]; [done|].
  rewrite append_cons. simpl. by rewrite IH, andb_assoc.
Qed.

Lemma mentions_append (c : ascii) (a b : string) :
  mentions c (a +:+ b) = mentions c a || mentions c b.
Proof.
  induction a as [|x a IH]; [done|].
  rewrite append_cons. simpl. by rewrite IH, orb_assoc.
Qed.

Lemma allChars_mentions (p : ascii -> bool) (c : ascii) (s : string) :
  allChars p s = true -> p c = false -> mentions c s = false.
Proof.
  intros Hall Hc. induction s as [|x s IH]; simpl in *; [done|].
  apply andb_prop in Hall as [Hx Hs]. rewrite (IH Hs), orb_false_r.
  destruct (Ascii.eqb_spec x c) as [->|]; [congruence|done].
Qed.

Lemma allChars_impl (p q : ascii -> bool) (s : string) :
  (forall c, p c = true -> q c = true) ->
  allChars p s = true -> allChars q s = true.
Proof.
  intros Hpq. induction s as [|c s IH]; simpl; [done|].
  intros [Hc Hs]%andb_prop. by rewrite (Hpq c Hc), (IH Hs).
Qed.

Lemma mentions_drop (c : ascii) (n : nat) (s : string) :
  mentions c (drop n s) = true -> mentions c s = true.
Proof.
  revert n; induction s as [|x s IH]; intros [|n]; simpl; try done.
  intros H%IH. by rewrite H, orb_true_r.
Qed.

Lemma startsWith_mentions (c : ascii) (s p : string) :
  startsWith s p = true -> mentions c p = true -> mentions c s = true.
Proof.
  revert s; induction p as [|a p IH]; intros [|b s]; simpl; try done.
  intros [Hab Hsp]%andb_prop [Ha|Hp]%orb_prop.
  - apply Ascii.eqb_eq in Hab as ->. by rewrite Ha.
  - by rewrite (IH s Hsp Hp), orb_true_r.
Qed.

(** Every code unit of a pattern that occurs in a string occurs in it. *)
Lemma includes_mentions (c : ascii) (s p : string) :
  includes s p = true -> mentions c p = true -> mentions c s = true.
Proof.
  intros Hin Hp. induction s as [|x s IH]; cbn [includes] in Hin.
  - rewrite orb_false_r in Hin. by eapply startsWith_mentions.
  - apply orb_prop in Hin as [H|H]; [by eapply startsWith_mentions|].
    simpl. by rewrite (IH H), orb_true_r.
Qed.

Lemma endsWith_mentions (c : ascii) (s p : string) :
  endsWith s p = true -> mentions c p = true -> mentions c s = true.
Proof.
  unfold endsWith. intros [_ Heq]%andb_prop Hp.
  apply String.eqb_eq in Heq. rewrite <- Heq in Hp.
  by eapply mentions_drop.
Qed.

Lemma includes_absent (c : ascii) (s p : string) :
  mentions c p = true -> mentions c s = false -> includes s p = false.
Proof.
  intros Hp Hs. destruct (includes s p) eqn:E; [|done].
  by rewrite (includes_mentions c s p E Hp) in Hs.
Qed.

Lemma endsWith_absent (c : ascii) (s p : string) :
  mentions c p = true -> mentions c s = false -> endsWith s p = false.
Proof.
  intros Hp Hs. destruct (endsWith s p) eqn:E; [|done].
  by rewrite (endsWith_mentions c s p E Hp) in Hs.
Qed.

Lemma startsWith_absent (c : ascii) (s p : string) :
  mentions c p = true -> mentions c s = false -> startsWith s p = false.
Proof.
  intros Hp Hs. destruct (startsWith s p) eqn:E; [|done].
  by rewrite (startsWith_mentions c s p E Hp) in Hs.
Qed.

(** Replacing a pattern that does not occur changes nothing. *)
Lemma replace_absent (s p r : string) :
  includes s p = false -> replace s p r = s.
Proof.
  induction s as [|c s IH]; cbn [includes replace].
  - rewrite orb_false_r. by intros ->.
  - intros [-> Hs]%orb_false_elim. by rewrite (IH Hs).
Qed.

Lemma startsWith_append (p s : string) : startsWith (p +:+ s) p = true.
Proof.
  induction p as [|c p IH]; [by destruct s|].
  rewrite append_cons. simpl. by rewrite Ascii.eqb_refl, IH.
Qed.

Lemma startsWith_head (c : ascii) (s : string) :
  startsWith (String c s) (String c "") = true.
Proof. simpl. rewrite Ascii.eqb_refl. by destruct s. Qed.

Lemma drop_append (p s : string) : drop (len p) (p +:+ s) = s.
Proof.
  induction p as [|c p IH]; [done|]. by rewrite append_cons, len_cons.
Qed.

Lemma take_append (p s : string) : take (len p) (p +:+ s) = p.
Proof.
  induction p as [|c p IH]; [by destruct s|].
  rewrite append_cons, len_cons. simpl. by rewrite IH.
Qed.

Lemma take_append_eq (n : nat) (p s : string) :
  n = len p -> take n (p +:+ s) = p.
Proof. intros ->. apply take_append. Qed.

Lemma endsWith_append (s p : string) : endsWith (s +:+ p) p = true.
Proof.
  unfold endsWith. rewrite len_append.
  replace (len s + len p - len p) with (len s) by lia.
  rewrite drop_append, String.eqb_refl, andb_true_r.
  apply Nat.leb_le. lia.
Qed.

(** A string whose code units are all black is its own trimming. *)
Lemma trimStart_black (s : string) :
  allChars (fun c => negb (isWhiteSpace c)) s = true -> trimStart s = s.
Proof.
  destruct s as [|c s]; simpl; [done|].
  intros [Hc _]%andb_prop. by destruct (isWhiteSpace c).
Qed.

Lemma trimEnd_black (s : string) :
  allChars (fun c => negb (isWhiteSpace c)) s = true -> trimEnd s = s.
Proof.
  induction s as [|c s IH]; simpl; [done|].
  intros [Hc Hs]%andb_prop. rewrite (IH Hs).
  destruct s; [by destruct (isWhiteSpace c)|done].
Qed.

Lemma trim_black (s : string) :
  allChars (fun c => negb (isWhiteSpace c)) s = true -> trim s = s.
Proof.
  intros H. unfold trim. by rewrite (trimStart_black s H), (trimEnd_black s H).
Qed.

(** White space in front of a black string is trimmed away. *)
Lemma trim_space_black (s : string) :
  allChars (fun c => negb (isWhiteSpace c)) s = true ->
  trim (String " " s) = s.
Proof.
  intros H. unfold trim. cbn [trimStart].
  change (isWhiteSpace " ") with true. cbv iota.
  by rewrite (trimStart_black s H), (trimEnd_black s H).
Qed.

(** What [\w] excludes. *)
Lemma word_black (c : ascii) : word c = true -> negb (isWhiteSpace c) = true.
Proof. destruct c as [[] [] [] [] [] [] [] []]; by vm_compute. Qed.

Lemma word_dot (c : ascii) : word c = true -> dot c = true.
Proof. destruct c as [[] [] [] [] [] [] [] []]; by vm_compute. Qed.

Lemma notChar_mentions (c : ascii) (s : string) :
  allChars (notChar c) s = true -> mentions c s = false.
Proof.
  induction s as [|x s IH]; simpl; [done|].
  intros [Hx Hs]%andb_prop. unfold notChar in Hx.
  apply negb_true_iff in Hx. by rewrite Hx, (IH Hs).
Qed.

Lemma mentions_notChar (c : ascii) (s : string) :
  mentions c s = false -> allChars (notChar c) s = true.
Proof.
  induction s as [|x s IH]; simpl; [done|].
  intros [Hx Hs]%orb_false_elim. unfold notChar at 1.
  by rewrite Hx, (IH Hs).
Qed.

Lemma identifier_black (s : string) :
  allChars word s = true ->
  allChars (fun c => negb (isWhiteSpace c)) s = true.
Proof. apply allChars_impl, word_black. Qed.

Lemma identifier_mentions (c : ascii) (s : string) :
  allChars word s = true -> word c = false -> mentions c s = false.
Proof. apply allChars_mentions. Qed.

End JsStringMore.

(** ** More on the matcher: what a greedy [+] settles on *)

Module RegexMore.
Import JsString Regex Checks JsStringFacts RegexFacts JsStringMore.

#[local] Arguments len : simpl never.

(** The code units a greedy [+] consumed are all in its class. *)
Lemma plus_sound_class {R : Type} (cls : ascii -> bool) (pos : nat)
    (s : string) (k : nat -> string -> option R) (res : R) :
  plus cls pos s k = Some res ->
  exists n, 0 < n /\ n <= len s /\ allChars cls (take n s) = true /\
            k (pos + n) (drop n s) = Some res.
Proof.
  revert pos; induction s as [|c s IH]; intros pos; simpl; [done|].
  destruct (cls c) eqn:Hc; [|done].
  destruct (plus cls (S pos) s k) eqn:E.
  - intros [= ->]. apply IH in E as (n & Hn & Hle & Hall & Hk).
    exists (S n). rewrite len_cons. split_and!; [lia|lia| |].
    + simpl. by rewrite Hc, Hall.
    + simpl. by replace (pos + S n) with (S pos + n) by lia.
  - intros Hk. exists 1. rewrite len_cons. split_and!; [lia|lia| |].
    + simpl. rewrite Hc. by destruct s.
    + simpl. replace (pos + 1) with (S pos) by lia. by destruct s.
Qed.

(** A greedy [+] stops in front of the first code unit outside its class,
    when the continuation accepts there. *)
Lemma plus_stops {R : Type} (cls : ascii -> bool) (pos : nat)
    (x : string) (d : ascii) (rest : string)
    (k : nat -> string -> option R) (res : R) :
  allChars cls x = true -> x <> "" -> cls d = false ->
  k (pos + len x) (String d rest) = Some res ->
  plus cls pos (x +:+ String d rest) k = Some res.
Proof.
  intros Hall Hx Hd. revert pos.
  induction x as [|c x IH]; intros pos Hk; [done|].
  rewrite append_cons. cbn [plus]. simpl in Hall.
  apply andb_prop in Hall as [-> Hall]. rewrite len_cons in Hk.
  destruct x as [|c' x].
  - simpl. rewrite Hd. rewrite len_nil in Hk.
    by replace (S pos) with (pos + 1) by lia.
  - rewrite (IH Hall ltac:(done) (S pos)); [done|].
    by replace (S pos + len (String c' x)) with (pos + S (len (String c' x)))
      by lia.
Qed.

(** In front of a closing [>] that ends the input, a greedy [+] gives
    back at most that [>]. *)
Lemma plus_close {R : Type} (cls : ascii -> bool) (pos : nat) (x : string)
    (k : nat -> string -> option R) (res : R) :
  allChars cls x = true -> x <> "" ->
  (forall p, k p "" = None) ->
  k (pos + len x) ">" = Some res ->
  plus cls pos (x +:+ ">") k = Some res.
Proof.
  intros Hall Hx Hend. revert pos.
  induction x as [|c x IH]; intros pos Hk; [done|].
  rewrite append_cons. cbn [plus]. simpl in Hall.
  apply andb_prop in Hall as [-> Hall]. rewrite len_cons in Hk.
  destruct x as [|c' x].
  - simpl. rewrite Hend. rewrite len_nil in Hk.
    replace (S pos) with (pos + 1) by lia.
    by destruct (cls ">"%char).
  - rewrite (IH Hall ltac:(done) (S pos)); [done|].
    by replace (S pos + len (String c' x)) with (pos + S (len (String c' x)))
      by lia.
Qed.

Lemma searchFrom_first (r : regex) (pos : nat) (s : string)
    (m : MatchResult) :
  run r pos s [] (fun pos' _ caps => Some (mkMatch pos pos' caps)) = Some m ->
  searchFrom r pos s = Some m.
Proof. intros H. destruct s; simpl; by rewrite H. Qed.

(** [/a(cls+)>/] on [a x >]: the capture is [x]. *)
Lemma exec_delimited_exact (a x : string) (cls : ascii -> bool) :
  allChars cls x = true -> x <> "" ->
  exec (Seq (Lit a) (Seq (Group (Plus cls)) (Lit ">"))) (a +:+ x +:+ ">")
  = Some (mkMatch 0 (len a + len x + 1) [x]).
Proof.
  intros Hall Hx. apply searchFrom_first. cbn [run].
  rewrite startsWith_append, drop_append.
  apply plus_close; [done|done|done|]. cbv beta.
  change (startsWith ">" ">") with true. cbv iota.
  change (len ">") with 1. simpl app.
  rewrite (take_append_eq _ x ">") by lia. by rewrite Nat.add_0_l.
Qed.

(** [/\{([^}]+)\}/] on [{x}...]: the capture is [x]. *)
Lemma exec_braces_exact (x rest : string) :
  mentions "}" x = false -> x <> "" ->
  exists stop,
    exec reBraces ("{" +:+ x +:+ "}" +:+ rest) = Some (mkMatch 0 stop [x]).
Proof.
  intros Hx Hne. eexists. apply searchFrom_first. unfold reBraces. cbn [run].
  rewrite (startsWith_append "{"), (drop_append "{").
  change (x +:+ "}" +:+ rest) with (x +:+ String "}" rest).
  apply plus_stops; [by apply mentions_notChar|done|done|].
  cbv beta. rewrite startsWith_head.
  change (len "{") with 1. simpl app.
  by rewrite (take_append_eq _ x (String "}" rest)) by lia.
Qed.

(** A match of [/\{([^}]+)\}/] needs a closing brace, and captures none. *)
Lemma exec_braces_sound (s : string) (m : MatchResult) :
  exec reBraces s = Some m ->
  mentions "}" s = true /\ mentions "}" (group m 1) = false.
Proof.
  intros (i & Hi & Hrun)%searchFrom_sound. unfold reBraces in Hrun.
  cbn [run] in Hrun.
  destruct (startsWith (drop i s) "{") eqn:Ha; [|done].
  apply plus_sound_class in Hrun as (n & Hn & Hle & Hall & H). cbv beta in H.
  destruct (startsWith _ "}") eqn:Hb in H; [|done].
  injection H as <-. unfold group. cbn [mGroups app lookup list_lookup].
  replace (1 - 1) with 0 by done. cbn [lookup list_lookup default].
  split.
  - eapply mentions_drop, mentions_drop, mentions_drop.
    by eapply (startsWith_mentions "}" _ "}").
  - replace (i + len "{" + n - (i + len "{")) with n by lia.
    apply notChar_mentions. exact Hall.
Qed.

(** [/(\w+)<(.+)>/] needs an opening angle bracket. *)
Lemma exec_generic_mentions (s : string) (m : MatchResult) :
  exec reGeneric s = Some m -> mentions "<" s = true.
Proof.
  intros (i & Hi & Hrun)%searchFrom_sound. unfold reGeneric in Hrun.
  cbn [run] in Hrun.
  apply plus_sound in Hrun as (n1 & Hn1 & Hle1 & H). cbv beta in H.
  destruct (startsWith (drop n1 (drop i s)) "<") eqn:Ha; [|done].
  eapply mentions_drop, mentions_drop.
  by eapply (startsWith_mentions "<" _ "<").
Qed.

(** [/(\w+)<(.+)>/] on [b<x>] for an identifier [b]: the captures are [b]
    and [x]. *)
Lemma exec_generic_exact (b x : string) :
  isIdentifier b = true -> allChars dot x = true -> x <> "" ->
  exec reGeneric (b +:+ "<" +:+ x +:+ ">")
  = Some (mkMatch 0 (len b + 1 + len x + 1) [b; x]).
Proof.
  unfold isIdentifier. intros [Hb Hword]%andb_prop Hall Hx.
  assert (b <> "") as Hne by (by destruct b).
  apply searchFrom_first. unfold reGeneric. cbn [run].
  change (b +:+ "<" +:+ x +:+ ">") with (b +:+ String "<" (x +:+ ">")).
  apply plus_stops; [done|done|done|]. cbv beta.
  rewrite startsWith_head.
  change (drop (len "<") (String "<" (x +:+ ">"))) with (x +:+ ">").
  apply plus_close; [done|done|done|]. cbv beta.
  change (startsWith ">" ">") with true. cbv iota.
  change (len ">") with 1. change (len "<") with 1. simpl app.
  rewrite (take_append_eq _ b (String "<" (x +:+ ">"))) by lia.
  rewrite (take_append_eq _ x ">") by lia.
  by rewrite Nat.add_0_l.
Qed.

(** A match at some start position makes the search succeed. *)
Lemma searchFrom_complete (r : regex) (pos i : nat) (s : string)
    (m' : MatchResult) :
  i <= len s ->
  run r (pos + i) (drop i s) []
    (fun pos' _ caps => Some (mkMatch (pos + i) pos' caps)) = Some m' ->
  exists m, searchFrom r pos s = Some m.
Proof.
  revert pos i. induction s as [|c s IH]; intros pos i Hi Hrun;
    cbn [searchFrom].
  - rewrite len_nil in Hi. assert (i = 0) as -> by lia.
    cbn [drop] in Hrun. rewrite Nat.add_0_r in Hrun. rewrite Hrun.
    by eexists.
  - destruct (run r pos (String c s) [] _) eqn:E; [by eexists|].
    destruct i as [|i].
    + cbn [drop] in Hrun. rewrite Nat.add_0_r in Hrun. congruence.
    + cbn [drop] in Hrun. rewrite len_cons in Hi. apply (IH (S pos) i).
      * lia.
      * by replace (S pos + i) with (pos + S i) by lia.
Qed.

Lemma run_delimited_exact (pos : nat) (a x : string) (cls : ascii -> bool) :
  allChars cls x = true -> x <> "" ->
  run (Seq (Lit a) (Seq (Group (Plus cls)) (Lit ">"))) pos
    (a +:+ x +:+ ">") []
    (fun pos' _ caps => Some (mkMatch pos pos' caps))
  = Some (mkMatch pos (pos + len a + len x + 1) [x]).
Proof.
  intros Hall Hx. cbn [run].
  rewrite startsWith_append, drop_append.
  apply plus_close; [done|done|done|]. cbv beta.
  change (startsWith ">" ">") with true. cbv iota.
  change (len ">") with 1. simpl app.
  by rewrite (take_append_eq _ x ">") by lia.
Qed.

(** [/a(cls+)>/] finds a match in every text that ends with [a x >]. *)
Lemma exec_delimited_inside (pre a x : string) (cls : ascii -> bool) :
  allChars cls x = true -> x <> "" ->
  exists m,
    exec (Seq (Lit a) (Seq (Group (Plus cls)) (Lit ">")))
      (pre +:+ a +:+ x +:+ ">") = Some m.
Proof.
  intros Hall Hx. unfold exec.
  eapply (searchFrom_complete _ 0 (len pre)).
  - rewrite len_append. lia.
  - rewrite drop_append. by apply run_delimited_exact.
Qed.

End RegexMore.

(** ** The type normalizer on identifiers and on flat composites *)

Module TypeParserMore.
Import JsString Regex Types TypeParser Observe Display Checks.
Import JsStringFacts RegexFacts TypeParserFacts JsStringMore RegexMore.

#[local] Arguments len : simpl never.

Lemma parseType_from_body (config : ASTParserConfig) (T : string)
    (t : TypeInfo) :
  parseTypeBody config (fun s' => Some (parseType config s')) T = Some t ->
  parseType config T = t.
Proof. rewrite parseType_unfold. by intros [= ->]. Qed.

Lemma cleanTypeOf_plain (T : string) :
  mentions "?" T = false -> mentions "|" T = false -> trim T = T ->
  cleanTypeOf T = T.
Proof.
  intros Hq Hbar Htrim. unfold cleanTypeOf.
  rewrite (replace_absent T "?") by (by apply (includes_absent "?")).
  rewrite (replace_absent T "|undefined") by (by apply (includes_absent "|")).
  by rewrite (replace_absent T "|null") by (by apply (includes_absent "|")).
Qed.

(** A string that starts and ends with a black code unit is its own
    trimming, whatever lies between. *)
Lemma trimEnd_last (s : string) (d : ascii) :
  isWhiteSpace d = false -> trimEnd (s +:+ String d "") = s +:+ String d "".
Proof.
  intros Hd. induction s as [|c s IH]; [simpl; by rewrite Hd|].
  rewrite append_cons. cbn [trimEnd]. rewrite IH. by destruct s.
Qed.

Lemma trim_ends (c d : ascii) (s : string) :
  isWhiteSpace c = false -> isWhiteSpace d = false ->
  trim (String c (s +:+ String d "")) = String c (s +:+ String d "").
Proof.
  intros Hc Hd. unfold trim. cbn [trimStart]. rewrite Hc.
  by rewrite <- append_cons, trimEnd_last.
Qed.

Lemma identifier_inv (s : string) :
  isIdentifier s = true ->
  allChars word s = true /\
  exists c s', s = String c s' /\ word c = true.
Proof.
  unfold isIdentifier. intros [Hs Hall]%andb_prop. split; [done|].
  destruct s as [|c s']; [done|]. simpl in Hall.
  apply andb_prop in Hall as [Hc _]. by exists c, s'.
Qed.

(** *** The argument splitter *)

(** Code units other than [<], [>] and [,] go to the current argument. *)
Lemma splitLoop_plain (x rest : string) (result : list string)
    (currentArg : string) (depth : Z) :
  mentions "<" x = false -> mentions ">" x = false -> mentions "," x = false ->
  splitLoop (x +:+ rest) result currentArg depth
  = splitLoop rest result (currentArg +:+ x) depth.
Proof.
  revert currentArg.
  induction x as [|c x IH]; intros cur Hlt Hgt Hcomma;
    [by rewrite append_nil_r|].
  simpl in Hlt, Hgt, Hcomma.
  apply orb_false_elim in Hlt as [Hlt Hlt'].
  apply orb_false_elim in Hgt as [Hgt Hgt'].
  apply orb_false_elim in Hcomma as [Hcomma Hcomma'].
  rewrite append_cons. cbn [splitLoop]. rewrite Hlt, Hgt, Hcomma.
  cbn [andb]. rewrite (IH _ Hlt' Hgt' Hcomma').
  by rewrite append_assoc.
Qed.

(** Inside angle brackets a comma goes to the current argument too. *)
Lemma splitLoop_nested (x rest : string) (result : list string)
    (currentArg : string) (depth : Z) :
  mentions "<" x = false -> mentions ">" x = false -> depth <> 0%Z ->
  splitLoop (x +:+ rest) result currentArg depth
  = splitLoop rest result (currentArg +:+ x) depth.
Proof.
  intros Hlt Hgt Hdepth. revert currentArg.
  induction x as [|c x IH]; intros cur; [by rewrite append_nil_r|].
  simpl in Hlt, Hgt.
  apply orb_false_elim in Hlt as [Hlt Hlt'].
  apply orb_false_elim in Hgt as [Hgt Hgt'].
  rewrite append_cons. cbn [splitLoop]. rewrite Hlt, Hgt.
  replace (depth =? 0)%Z with false by (symmetry; by apply Z.eqb_neq).
  rewrite andb_false_r, (IH Hlt' Hgt').
  by rewrite append_assoc.
Qed.

Lemma identifier_plain (c : ascii) (s : string) :
  isIdentifier s = true -> word c = false -> mentions c s = false.
Proof.
  intros [Hall _]%identifier_inv. by apply identifier_mentions.
Qed.

Lemma identifier_trim (s : string) : isIdentifier s = true -> trim s = s.
Proof.
  intros [Hall _]%identifier_inv. by apply trim_black, identifier_black.
Qed.

Lemma identifier_truthy (s : string) :
  isIdentifier s = true -> truthy s = true.
Proof. unfold isIdentifier. by intros [? _]%andb_prop. Qed.

Lemma splitLoop_identifiers (names : list string) (name : string)
    (result : list string) (lead : string) (r : list string) (c : string) :
  lead = "" \/ lead = " " ->
  Forall (fun n => isIdentifier n = true) (name :: names) ->
  splitLoop (String.concat ", " (name :: names)) result lead 0 = (r, c) ->
  (if truthy (trim c) then r ++ [trim c] else r) = result ++ name :: names.
Proof.
  revert name result lead.
  induction names as [|next names IH]; intros name result lead Hlead Hall.
  - apply Forall_cons in Hall as [Hname _]. cbn [String.concat].
    rewrite <- (append_nil_r name) at 1.
    rewrite splitLoop_plain by (by apply identifier_plain).
    cbn [splitLoop]. intros [= <- <-].
    assert (trim (lead +:+ name) = name) as ->.
    { destruct Hlead as [-> | ->]; [by apply identifier_trim|].
      apply trim_space_black, identifier_black.
      by apply identifier_inv in Hname as [? _]. }
    by rewrite (identifier_truthy name Hname).
  - apply Forall_cons in Hall as [Hname Hall].
    change (String.concat ", " (name :: next :: names))
      with (name +:+ ", " +:+ String.concat ", " (next :: names)).
    rewrite splitLoop_plain by (by apply identifier_plain).
    change (", " +:+ String.concat ", " (next :: names))
      with (String "," (String " " (String.concat ", " (next :: names)))).
    cbn [splitLoop]. change (Ascii.eqb "," "<") with false.
    change (Ascii.eqb "," ">") with false.
    change (Ascii.eqb "," "," && (0 =? 0)%Z) with true.
    change (Ascii.eqb " " "<") with false.
    change (Ascii.eqb " " ">") with false.
    change (Ascii.eqb " " "," && (0 =? 0)%Z) with false. cbv iota.
    assert (trim (lead +:+ name) = name) as ->.
    { destruct Hlead as [-> | ->]; [by apply identifier_trim|].
      apply trim_space_black, identifier_black.
      by apply identifier_inv in Hname as [? _]. }
    intros Hloop.
    rewrite (IH next (result ++ [name]) ("" +:+ " ") (or_intror eq_refl)
               Hall Hloop).
    by rewrite <- app_assoc.
Qed.

(** *** Searching past a code unit the pattern does not have *)

Lemma startsWith_snoc (d : ascii) (s p : string) :
  mentions d p = false ->
  startsWith (s +:+ String d "") p = startsWith s p.
Proof.
  revert p. induction s as [|c s IH]; intros [|x p] Hp; try done.
  - simpl in Hp. apply orb_false_elim in Hp as [Hx _].
    change (startsWith ("" +:+ String d "") (String x p))
      with (Ascii.eqb x d && startsWith "" p).
    by rewrite Hx.
  - simpl in Hp. apply orb_false_elim in Hp as [_ Hp].
    rewrite append_cons. cbn [startsWith]. by rewrite IH.
Qed.

Lemma includes_snoc (d : ascii) (s p : string) :
  mentions d p = false ->
  includes (s +:+ String d "") p = includes s p.
Proof.
  intros Hp. induction s as [|c s IH].
  - pose proof (startsWith_snoc d "" p Hp) as Hs.
    change ("" +:+ String d "") with (String d "") in *.
    cbn [includes]. rewrite Hs. by destruct (startsWith "" p).
  - rewrite append_cons. cbn [includes]. rewrite IH.
    by rewrite <- append_cons, startsWith_snoc.
Qed.

Lemma drop_0 (s : string) : drop 0 s = s.
Proof. by destruct s. Qed.

Lemma slice_suffix (E : string) : slice (E +:+ "[]") 0 (-2) = E.
Proof.
  unfold slice, sliceIndex. rewrite len_append.
  change (len "[]") with 2. cbn [Z.ltb Z.compare].
  rewrite Nat.min_0_l, drop_0.
  apply take_append_eq. lia.
Qed.

Lemma trim_trimStart (s : string) : trim s = s -> trimStart s = s.
Proof.
  intros Htrim. destruct s as [|c s]; [done|]. cbn [trimStart].
  destruct (isWhiteSpace c) eqn:Hc; [|done]. exfalso.
  assert (len (trim (String c s)) <= len s) as Hle.
  { unfold trim. cbn [trimStart]. rewrite Hc.
    etrans; [apply len_trimEnd_le|apply len_trimStart_le]. }
  rewrite Htrim, len_cons in Hle. lia.
Qed.

Lemma trim_append_black (s : string) (d : ascii) :
  trim s = s -> truthy s = true -> isWhiteSpace d = false ->
  trim (s +:+ String d "") = s +:+ String d "".
Proof.
  intros Htrim Hs Hd. apply trim_trimStart in Htrim.
  destruct s as [|c s]; [done|]. cbn [trimStart] in Htrim.
  destruct (isWhiteSpace c) eqn:Hc.
  - exfalso. pose proof (len_trimStart_le s) as Hle.
    rewrite Htrim, len_cons in Hle. lia.
  - rewrite append_cons. by apply trim_ends.
Qed.

Lemma drop_snoc (n : nat) (s x : string) :
  n <= len s -> drop n (s +:+ x) = drop n s +:+ x.
Proof.
  revert n. induction s as [|c s IH]; intros [|n] Hn; try done.
  - rewrite len_nil in Hn. lia.
  - rewrite append_cons. cbn [drop]. apply IH. rewrite len_cons in Hn. lia.
Qed.

Lemma len_drop_exact (n : nat) (s : string) :
  len (drop n s) = len s - n.
Proof.
  revert n. induction s as [|c s IH]; intros [|n]; try done.
  cbn [drop]. rewrite len_cons, IH. lia.
Qed.

(** A string that ends with [>] does not end with the array suffix. *)
Lemma endsWith_close (s : string) : endsWith (s +:+ ">") "[]" = false.
Proof.
  unfold endsWith. rewrite len_append. change (len ">") with 1.
  change (len "[]") with 2.
  destruct (len s) as [|n] eqn:Hlen; [done|].
  replace (2 <=? S n + 1) with true by (symmetry; apply Nat.leb_le; lia).
  cbn [andb]. replace (S n + 1 - 2) with n by lia.
  rewrite drop_snoc by lia.
  pose proof (len_drop_exact n s) as Hd. rewrite Hlen in Hd.
  destruct (drop n s) as [|c [|c' rest]]; rewrite ?len_cons, ?len_nil in Hd;
    try lia.
  change (String c "" +:+ ">") with (String c (String ">" "")).
  cbn [String.eqb]. by destruct (Ascii.eqb c "[").
Qed.

Lemma includes_startsWith (s p : string) :
  startsWith s p = true -> includes s p = true.
Proof. intros H. destruct s; cbn [includes]; by rewrite H. Qed.

Lemma mapM_total {A B : Type} (f : A -> B) (l : list A) :
  mapM (fun x => Some (f x)) l = Some (map f l).
Proof. induction l as [|x l IH]; [done|]. cbn. by rewrite IH. Qed.

Lemma truthy_ne (s : string) : truthy s = true -> s <> "".
Proof. by destruct s. Qed.

(** A text without markers is read as it stands. *)
Lemma parseTypeBody_unmarked (config : ASTParserConfig)
    (self : string -> option TypeInfo) (T : string) :
  captureComplexTypes config = true -> truthy T = true ->
  mentions "?" T = false -> mentions "|" T = false -> trim T = T ->
  parseTypeBody config self T
  = match guardedMatch "Promise<" rePromise T with
    | Some m =>
        arg ← self (group m 1);
        Some (mkTypeInfo "Promise" (Some [arg]) None None false false T)
    | None =>
    if endsWith T "[]" then
      arg ← self (slice T 0 (-2));
      Some (mkTypeInfo "Array" (Some [arg]) None None false false T)
    else
    match guardedMatch "Array<" reArray T with
    | Some m =>
        arg ← self (group m 1);
        Some (mkTypeInfo "Array" (Some [arg]) None None false false T)
    | None =>
    match exec reGeneric T with
    | Some genericMatch =>
        targs ← mapM self (splitGenericArgs (group genericMatch 2));
        Some (mkTypeInfo (group genericMatch 1) (Some targs) None None
                false false T)
    | None =>
    if startsWith T "[" && endsWith T "]"
       && truthy (trim (slice T 1 (-1))) then
      Some (mkTypeInfo T None None None false false T)
    else if includes T "&" then
      its ← mapM self (map trim (split "&" T));
      Some (mkTypeInfo (default "" (head (map trim (split "&" T))))
              None None (Some its) false false T)
    else
      Some (mkTypeInfo T None None None false false T)
    end end end.
Proof.
  intros Hcfg HT Hq Hbar Htrim. unfold parseTypeBody.
  rewrite Hcfg, HT. cbn [negb orb]. cbv zeta.
  rewrite (cleanTypeOf_plain T Hq Hbar Htrim).
  rewrite (endsWith_absent "?" T "?" eq_refl Hq).
  rewrite (includes_absent "|" T "|undefined" eq_refl Hbar).
  rewrite (includes_absent "|" T "|null" eq_refl Hbar).
  rewrite (includes_absent "|" T "|" eq_refl Hbar).
  done.
Qed.

(** *** The shape of every descriptor *)

Lemma split_length (sep : ascii) (s : string) :
  includes s (String sep "") = true -> 2 <= length (split sep s).
Proof.
  induction s as [|c s IH]; [done|].
  cbn [includes startsWith split].
  assert (1 <= length (split sep s)) as Hone.
  { clear IH. induction s as [|c' s IH]; cbn [split]; [done|].
    destruct (split sep s) as [|h t]; [done|].
    destruct (Ascii.eqb c' sep); cbn [length]; lia. }
  destruct (split sep s) as [|h t] eqn:Hsplit; [cbn [length] in Hone; lia|].
  destruct (Ascii.eqb sep c) eqn:Hc.
  - apply Ascii.eqb_eq in Hc as <-. rewrite Ascii.eqb_refl.
    cbn [length]. lia.
  - intros Hin. replace (startsWith s "") with true in Hin by (by destruct s).
    rewrite andb_false_l, orb_false_l in Hin. specialize (IH Hin).
    destruct (Ascii.eqb c sep); cbn [length] in *; lia.
Qed.

Lemma mapM_forallb {A B : Type} (f : A -> option B) (P : B -> bool)
    (l : list A) (k : list B) :
  (forall x y, f x = Some y -> P y = true) ->
  mapM f l = Some k -> forallb P k = true.
Proof.
  intros Hf Hk. apply mapM_Some_1 in Hk.
  induction Hk as [|x y l k Hxy _ IH]; [done|].
  cbn [forallb]. by rewrite (Hf x y Hxy), IH.
Qed.

Lemma wellShaped_generic (b : string) (l : list TypeInfo) (o n : bool)
    (raw : string) :
  forallb wellShaped l = true ->
  wellShaped (mkTypeInfo b (Some l) None None o n raw) = true.
Proof. intros Hl. cbn. by rewrite Hl. Qed.

Lemma wellShaped_union (b : string) (l : list TypeInfo) (o n : bool)
    (raw : string) :
  forallb wellShaped l = true -> 2 <= length l ->
  wellShaped (mkTypeInfo b None (Some l) None o n raw) = true.
Proof.
  intros Hl Hlen. cbn. rewrite Hl.
  destruct l as [|x [|y l]]; cbn [length] in Hlen; try lia. done.
Qed.

Lemma wellShaped_intersection (b : string) (l : list TypeInfo) (o n : bool)
    (raw : string) :
  forallb wellShaped l = true -> 2 <= length l ->
  wellShaped (mkTypeInfo b None None (Some l) o n raw) = true.
Proof.
  intros Hl Hlen. cbn. rewrite Hl.
  destruct l as [|x [|y l]]; cbn [length] in Hlen; try lia. done.
Qed.

Lemma parseTypeBody_wellShaped (config : ASTParserConfig)
    (self : string -> option TypeInfo) (T : string) (t : TypeInfo) :
  (forall s t', self s = Some t' -> wellShaped t' = true) ->
  parseTypeBody config self T = Some t -> wellShaped t = true.
Proof.
  intros Hself. unfold parseTypeBody. cbv zeta.
  destruct (negb (truthy T) || negb (captureComplexTypes config));
    [by intros [= <-]|].
  destruct (guardedMatch "Promise<" rePromise _).
  { destruct (self _) eqn:E; simpl; [|done]. intros [= <-].
    apply wellShaped_generic. cbn [forallb]. by rewrite (Hself _ _ E). }
  destruct (endsWith _ "[]").
  { destruct (self _) eqn:E; simpl; [|done]. intros [= <-].
    apply wellShaped_generic. cbn [forallb]. by rewrite (Hself _ _ E). }
  destruct (guardedMatch "Array<" reArray _).
  { destruct (self _) eqn:E; simpl; [|done]. intros [= <-].
    apply wellShaped_generic. cbn [forallb]. by rewrite (Hself _ _ E). }
  destruct (exec reGeneric _).
  { destruct (mapM self _) eqn:E; simpl; [|done]. intros [= <-].
    apply wellShaped_generic. by apply (mapM_forallb self _ _ _ Hself E). }
  destruct (startsWith _ "[" && endsWith _ "]" && _); [by intros [= <-]|].
  destruct (includes _ "|") eqn:Hbar.
  { destruct (mapM self _) eqn:E; simpl; [|done]. intros [= <-].
    apply wellShaped_union; [by apply (mapM_forallb self _ _ _ Hself E)|].
    rewrite <- (length_mapM _ _ _ E), length_map. by apply split_length. }
  destruct (includes _ "&") eqn:Hamp; [|by intros [= <-]].
  destruct (mapM self _) eqn:E; simpl; [|done]. intros [= <-].
  apply wellShaped_intersection;
    [by apply (mapM_forallb self _ _ _ Hself E)|].
  rewrite <- (length_mapM _ _ _ E), length_map. by apply split_length.
Qed.

Lemma parseTypeF_wellShaped (config : ASTParserConfig) (fuel : nat)
    (T : string) (t : TypeInfo) :
  parseTypeF config fuel T = Some t -> wellShaped t = true.
Proof.
  revert T t. induction fuel as [|fuel IH]; intros T t; [done|].
  cbn [parseTypeF]. apply parseTypeBody_wellShaped. exact IH.
Qed.

(** *** The two spellings of an array *)

Lemma parseType_arraySuffix (config : ASTParserConfig) (E : string) :
  captureComplexTypes config = true ->
  truthy E = true -> trim E = E ->
  mentions "?" E = false -> mentions "|" E = false ->
  includes E "Promise<" = false ->
  parseType config (E +:+ "[]")
  = Observe.generic "Array" [parseType config E] (E +:+ "[]").
Proof.
  intros Hcfg HE Htrim Hq Hbar Hpromise.
  apply parseType_from_body.
  rewrite parseTypeBody_unmarked; [|done| | | |].
  - unfold guardedMatch.
    change (E +:+ "[]") with (E +:+ String "[" (String "]" "")).
    assert (includes (E +:+ "[]") "Promise<" = false) as ->.
    { change (E +:+ "[]") with (E +:+ ("[" +:+ "]")).
      rewrite <- append_assoc. by rewrite !includes_snoc. }
    by rewrite endsWith_append, slice_suffix.
  - destruct E; [done|]. by rewrite append_cons.
  - by rewrite mentions_append, Hq.
  - by rewrite mentions_append, Hbar.
  - change (E +:+ "[]") with (E +:+ ("[" +:+ "]")).
    rewrite <- append_assoc. apply trim_append_black; [|by destruct E|done].
    by apply trim_append_black.
Qed.

Lemma parseType_arrayGeneric (config : ASTParserConfig) (E : string) :
  captureComplexTypes config = true ->
  truthy E = true -> allChars dot E = true ->
  mentions "?" E = false -> mentions "|" E = false ->
  includes E "Promise<" = false ->
  parseType config ("Array<" +:+ E +:+ ">")
  = Observe.generic "Array" [parseType config E] ("Array<" +:+ E +:+ ">").
Proof.
  intros Hcfg HE Hdot Hq Hbar Hpromise.
  apply parseType_from_body.
  rewrite parseTypeBody_unmarked; [|done|done| | |].
  - unfold guardedMatch.
    assert (includes ("Array<" +:+ E +:+ ">") "Promise<" = false) as ->.
    { change (includes ("Array<" +:+ E +:+ ">") "Promise<")
        with (includes (E +:+ ">") "Promise<").
      by rewrite includes_snoc. }
    rewrite <- append_assoc, endsWith_close, append_assoc.
    rewrite (includes_startsWith _ _ (startsWith_append "Array<" _)).
    unfold reArray.
    by rewrite (exec_delimited_exact "Array<" E dot Hdot (truthy_ne E HE)).
  - by rewrite !mentions_append, Hq.
  - by rewrite !mentions_append, Hbar.
  - change ("Array<" +:+ E +:+ ">")
      with (String "A" ("rray<" +:+ (E +:+ ">"))).
    rewrite <- append_assoc. by apply trim_ends.
Qed.

Lemma includes_append_r (pre s p : string) :
  startsWith s p = true -> includes (pre +:+ s) p = true.
Proof.
  intros Hs. induction pre as [|c pre IH].
  - by apply includes_startsWith.
  - rewrite append_cons. cbn [includes]. rewrite IH. apply orb_true_r.
Qed.

End TypeParserMore.

(** ** The type normalizer: what each form of type text gives *)

Module TypeParserProps.
Import JsString Regex Types TypeParser Observe Display Checks.
Import JsStringFacts RegexFacts TypeParserFacts JsStringMore RegexMore.
Import TypeParserMore.

#[local] Arguments len : simpl never.

(** X1: the argument splitter gives back the identifiers of a list written
    with a comma and a space between them, in order. *)
Theorem splitGenericArgs_identifiers (names : list string) :
  Forall (fun n => isIdentifier n = true) names ->
  splitGenericArgs (String.concat ", " names) = names.
Proof.
  intros Hall. destruct names as [|name names]; [done|].
  unfold splitGenericArgs.
  destruct (splitLoop _ [] "" 0) as [r c] eqn:Hloop.
  by apply (splitLoop_identifiers names name [] "" r c (or_introl eq_refl)).
Qed.

Lemma splitGenericArgs_identifiers_witness :
  splitGenericArgs (String.concat ", " ["string"; "number"; "K_1"])
  = ["string"; "number"; "K_1"].
Proof.
  apply (splitGenericArgs_identifiers ["string"; "number"; "K_1"]).
  repeat constructor.
Defined.

(** X2: the argument splitter cuts at the comma after the first argument and
    keeps a generic second argument whole, whatever commas stand between its
    angle brackets. *)
Theorem splitGenericArgs_keeps_nested (first base inner : string) :
  isIdentifier first = true -> isIdentifier base = true ->
  mentions "<" inner = false -> mentions ">" inner = false ->
  splitGenericArgs (first +:+ ", " +:+ base +:+ "<" +:+ inner +:+ ">")
  = [first; base +:+ "<" +:+ inner +:+ ">"].
Proof.
  intros Hfirst Hbase Hlt Hgt. unfold splitGenericArgs.
  rewrite splitLoop_plain by (by apply identifier_plain).
  change (", " +:+ base +:+ "<" +:+ inner +:+ ">")
    with (String "," (String " " (base +:+ "<" +:+ inner +:+ ">"))).
  cbn [splitLoop]. change (Ascii.eqb "," "<") with false.
  change (Ascii.eqb "," ">") with false.
  change (Ascii.eqb "," "," && (0 =? 0)%Z) with true.
  change (Ascii.eqb " " "<") with false.
  change (Ascii.eqb " " ">") with false.
  change (Ascii.eqb " " "," && (0 =? 0)%Z) with false. cbv iota.
  rewrite splitLoop_plain by (by apply identifier_plain).
  change ("<" +:+ inner +:+ ">") with (String "<" (inner +:+ ">")).
  cbn [splitLoop]. change (Ascii.eqb "<" "<") with true. cbv iota.
  rewrite splitLoop_nested by done.
  cbn [splitLoop append]. change (Ascii.eqb ">" "<") with false.
  change (Ascii.eqb ">" ">") with true. cbv iota.
  change ("" +:+ first) with first. change ("" +:+ " ") with " ".
  rewrite (identifier_trim first Hfirst).
  rewrite !append_assoc.
  apply identifier_inv in Hbase as (_ & c & base' & -> & Hc).
  assert (trim (" " +:+ String c base' +:+ "<" +:+ inner +:+ ">")
          = String c base' +:+ "<" +:+ inner +:+ ">") as ->.
  { unfold trim.
    change (trimStart (" " +:+ String c base' +:+ "<" +:+ inner +:+ ">"))
      with (trimStart (String c (base' +:+ "<" +:+ inner +:+ ">"))).
    fold (trim (String c (base' +:+ "<" +:+ inner +:+ ">"))).
    rewrite <- !append_assoc.
    rewrite (trim_ends c ">" ((base' +:+ "<") +:+ inner)); [done| |done].
    apply word_black in Hc. by destruct (isWhiteSpace c). }
  done.
Qed.

Lemma splitGenericArgs_keeps_nested_witness :
  splitGenericArgs ("string" +:+ ", " +:+ "Map" +:+ "<" +:+ "K, V" +:+ ">")
  = ["string"; "Map" +:+ "<" +:+ "K, V" +:+ ">"].
Proof.
  apply (splitGenericArgs_keeps_nested "string" "Map" "K, V");
    reflexivity.
Defined.

(** X3: an identifier normalizes to a descriptor with that base type, no
    composite field and no marker, under every configuration. *)
Theorem parseType_identifier (config : ASTParserConfig) (T : string) :
  isIdentifier T = true -> parseType config T = scalar T.
Proof.
  intros Hid. apply parseType_from_body.
  destruct (captureComplexTypes config) eqn:Hcfg.
  2:{ unfold parseTypeBody. rewrite Hcfg. by rewrite orb_true_r. }
  pose proof (identifier_plain) as Hm.
  rewrite parseTypeBody_unmarked;
    [|done|by apply identifier_truthy|by apply Hm|by apply Hm
     |by apply identifier_trim].
  unfold guardedMatch.
  rewrite (includes_absent "<" T "Promise<" eq_refl
             (Hm "<"%char T Hid eq_refl)).
  rewrite (endsWith_absent "[" T "[]" eq_refl (Hm "["%char T Hid eq_refl)).
  rewrite (includes_absent "<" T "Array<" eq_refl (Hm "<"%char T Hid eq_refl)).
  destruct (exec reGeneric T) eqn:E.
  { apply exec_generic_mentions in E.
    by rewrite (Hm "<"%char T Hid eq_refl) in E. }
  rewrite (startsWith_absent "[" T "[" eq_refl (Hm "["%char T Hid eq_refl)).
  rewrite (includes_absent "&" T "&" eq_refl (Hm "&"%char T Hid eq_refl)).
  done.
Qed.

Lemma parseType_identifier_witness :
  parseType DEFAULT_AST_CONFIG "string" = scalar "string".
Proof. by apply (parseType_identifier DEFAULT_AST_CONFIG "string"). Defined.

(** X4: [Promise<E>] normalizes to base type [Promise] with one argument,
    the descriptor of [E], for every non-empty [E] on one line that has no
    [?] and no [|]: the argument is everything up to the last [>]. *)
Theorem parseType_promise_of (config : ASTParserConfig) (E : string) :
  captureComplexTypes config = true ->
  truthy E = true -> allChars dot E = true ->
  mentions "?" E = false -> mentions "|" E = false ->
  parseType config ("Promise<" +:+ E +:+ ">")
  = generic "Promise" [parseType config E] ("Promise<" +:+ E +:+ ">").
Proof.
  intros Hcfg HE Hdot Hq Hbar. apply parseType_from_body.
  rewrite parseTypeBody_unmarked; [|done|done| | |].
  - unfold guardedMatch.
    rewrite (includes_startsWith _ _ (startsWith_append "Promise<" _)).
    unfold rePromise.
    by rewrite (exec_delimited_exact "Promise<" E dot Hdot (truthy_ne E HE)).
  - by rewrite !mentions_append, Hq.
  - by rewrite !mentions_append, Hbar.
  - change ("Promise<" +:+ E +:+ ">")
      with (String "P" ("romise<" +:+ (E +:+ ">"))).
    rewrite <- append_assoc. by apply trim_ends.
Qed.

Lemma parseType_promise_of_witness :
  parseType DEFAULT_AST_CONFIG ("Promise<" +:+ "Map<K, V>" +:+ ">")
  = generic "Promise" [parseType DEFAULT_AST_CONFIG "Map<K, V>"]
      ("Promise<" +:+ "Map<K, V>" +:+ ">").
Proof.
  by apply (parseType_promise_of DEFAULT_AST_CONFIG "Map<K, V>").
Defined.

(** X5: a [Promise<...>] anywhere in the type text wins: a text that ends
    with [Promise<E>] normalizes to base type [Promise] with one argument,
    whatever stands before it, the name and the opening bracket of an
    enclosing generic included. *)
Theorem parseType_promise_anywhere (config : ASTParserConfig)
    (before E : string) :
  captureComplexTypes config = true ->
  trimStart before = before ->
  mentions "?" before = false -> mentions "|" before = false ->
  truthy E = true -> allChars dot E = true ->
  mentions "?" E = false -> mentions "|" E = false ->
  exists argument,
    parseType config (before +:+ "Promise<" +:+ E +:+ ">")
    = generic "Promise" [argument] (before +:+ "Promise<" +:+ E +:+ ">").
Proof.
  intros Hcfg Hstart Hq Hbar HE Hdot HqE HbarE.
  destruct (exec_delimited_inside before "Promise<" E dot Hdot
              (truthy_ne E HE)) as [m Hm].
  exists (parseType config (group m 1)). apply parseType_from_body.
  rewrite parseTypeBody_unmarked; [|done| | | |].
  - unfold guardedMatch.
    rewrite (includes_append_r before _ "Promise<"
               (startsWith_append "Promise<" _)).
    unfold rePromise. by rewrite Hm.
  - destruct before; [done|]. by rewrite append_cons.
  - by rewrite !mentions_append, Hq, HqE.
  - by rewrite !mentions_append, Hbar, HbarE.
  - destruct before as [|c before].
    + change ("" +:+ "Promise<" +:+ E +:+ ">")
        with (String "P" ("romise<" +:+ (E +:+ ">"))).
      rewrite <- append_assoc. by apply trim_ends.
    + cbn [trimStart] in Hstart.
      destruct (isWhiteSpace c) eqn:Hc.
      { exfalso. pose proof (len_trimStart_le before) as Hle.
        rewrite Hstart, len_cons in Hle. lia. }
      rewrite append_cons, <- !append_assoc. by apply trim_ends.
Qed.

Lemma parseType_promise_anywhere_witness :
  exists argument,
    parseType DEFAULT_AST_CONFIG
      ("Map<string, " +:+ "Promise<" +:+ "number>" +:+ ">")
    = generic "Promise" [argument]
        ("Map<string, " +:+ "Promise<" +:+ "number>" +:+ ">").
Proof.
  by apply (parseType_promise_anywhere DEFAULT_AST_CONFIG "Map<string, "
              "number>").
Defined.

(** X6: the two spellings of an array, [E[]] and [Array<E>], normalize to
    base type [Array] with the same single argument, the descriptor of [E],
    for every trimmed non-empty [E] on one line that has no [?], no [|] and
    no [Promise<]. *)
Theorem parseType_array_of (config : ASTParserConfig) (E : string) :
  captureComplexTypes config = true ->
  truthy E = true -> allChars dot E = true -> trim E = E ->
  mentions "?" E = false -> mentions "|" E = false ->
  includes E "Promise<" = false ->
  parseType config (E +:+ "[]")
  = generic "Array" [parseType config E] (E +:+ "[]") /\
  parseType config ("Array<" +:+ E +:+ ">")
  = generic "Array" [parseType config E] ("Array<" +:+ E +:+ ">").
Proof.
  intros Hcfg HE Hdot Htrim Hq Hbar Hpromise. split.
  - by apply parseType_arraySuffix.
  - by apply parseType_arrayGeneric.
Qed.

Lemma parseType_array_of_witness :
  parseType DEFAULT_AST_CONFIG ("number[]" +:+ "[]")
  = generic "Array" [parseType DEFAULT_AST_CONFIG "number[]"]
      ("number[]" +:+ "[]") /\
  parseType DEFAULT_AST_CONFIG ("Array<" +:+ "number[]" +:+ ">")
  = generic "Array" [parseType DEFAULT_AST_CONFIG "number[]"]
      ("Array<" +:+ "number[]" +:+ ">").
Proof.
  by apply (parseType_array_of DEFAULT_AST_CONFIG "number[]").
Defined.

(** X7: a generic [B<args>] whose text holds neither [Promise<] nor [Array<]
    normalizes to base type [B] with one argument for each piece the
    splitter cuts [args] into, in order. *)
Theorem parseType_generic_of (config : ASTParserConfig)
    (base args : string) :
  captureComplexTypes config = true ->
  isIdentifier base = true ->
  truthy args = true -> allChars dot args = true ->
  mentions "?" args = false -> mentions "|" args = false ->
  includes (base +:+ "<" +:+ args +:+ ">") "Promise<" = false ->
  includes (base +:+ "<" +:+ args +:+ ">") "Array<" = false ->
  parseType config (base +:+ "<" +:+ args +:+ ">")
  = generic base (map (parseType config) (splitGenericArgs args))
      (base +:+ "<" +:+ args +:+ ">").
Proof.
  intros Hcfg Hbase Hargs Hdot Hq Hbar Hpromise Harray.
  apply parseType_from_body.
  rewrite parseTypeBody_unmarked; [|done| | | |].
  - unfold guardedMatch. rewrite Hpromise, Harray.
    assert (endsWith (base +:+ "<" +:+ args +:+ ">") "[]" = false) as ->.
    { rewrite <- !append_assoc. apply endsWith_close. }
    rewrite (exec_generic_exact base args Hbase Hdot (truthy_ne args Hargs)).
    change (group _ 1) with base. change (group _ 2) with args.
    by rewrite mapM_total.
  - apply identifier_inv in Hbase as (_ & c & base' & -> & _). done.
  - rewrite !mentions_append, Hq.
    by rewrite (identifier_plain "?" base Hbase).
  - rewrite !mentions_append, Hbar.
    by rewrite (identifier_plain "|" base Hbase).
  - apply identifier_inv in Hbase as (_ & c & base' & -> & Hc).
    rewrite <- !append_assoc, !append_cons. apply trim_ends; [|done].
    apply word_black in Hc. by destruct (isWhiteSpace c).
Qed.

Lemma parseType_generic_of_witness :
  parseType DEFAULT_AST_CONFIG ("Map" +:+ "<" +:+ "string, Set<K>" +:+ ">")
  = generic "Map"
      (map (parseType DEFAULT_AST_CONFIG)
         (splitGenericArgs "string, Set<K>"))
      ("Map" +:+ "<" +:+ "string, Set<K>" +:+ ">").
Proof.
  by apply (parseType_generic_of DEFAULT_AST_CONFIG "Map" "string, Set<K>").
Defined.

(** X8: every descriptor [parseType] returns, and every descriptor nested in
    it, has at most one of the three composite fields, and a union or an
    intersection in it has at least two members. *)
Theorem parseType_wellShaped (config : ASTParserConfig) (T : string) :
  wellShaped (parseType config T) = true.
Proof.
  apply (parseTypeF_wellShaped config (S (len T)) T).
  apply parseTypeF_parseType. lia.
Qed.

(** X9: [printTypeInfo] shows a descriptor that [parseType] returned as the
    type text it was made from. *)
Theorem printTypeInfo_parseType (config : ASTParserConfig) (T : string) :
  printTypeInfo (Some (parseType config T)) = T.
Proof.
  pose proof (parseTypeBody_rawType config _ T _ (parseType_unfold config T))
    as Hraw.
  destruct T as [|c T].
  - by rewrite (parseType_from_body config "" (scalar "")).
  - destruct (parseType config (String c T)) as [b a u i o n raw].
    cbn [rawType] in Hraw. subst raw. done.
Qed.

(** Without the [rawType], the text is put together from the other
    fields: the first argument or member is printed with the rest. *)
Example printTypeInfo_generic :
  printTypeInfo
    (Some (withoutRawType (parseType DEFAULT_AST_CONFIG "Map<K, V>")))
  = "Map<K, V>".
Proof. by vm_compute. Qed.

Example printTypeInfo_union :
  printTypeInfo (Some (withoutRawType (parseType DEFAULT_AST_CONFIG "a | b")))
  = "a | b".
Proof. by vm_compute. Qed.

Example printTypeInfo_intersection :
  printTypeInfo (Some (withoutRawType (parseType DEFAULT_AST_CONFIG "a & b")))
  = "a & b".
Proof. by vm_compute. Qed.

Example printTypeInfo_optional :
  printTypeInfo
    (Some (withoutRawType (parseType DEFAULT_AST_CONFIG "string?")))
  = "string | undefined".
Proof. by vm_compute. Qed.

Example printTypeInfo_no_rawType_anywhere :
  printTypeInfo
    (Some (mkTypeInfo "Map"
             (Some [mkTypeInfo "K" None None None false false "";
                    mkTypeInfo "V" None None None false false "";
                    mkTypeInfo "W" None None None false false ""])
             None None false true ""))
  = "Map<K, V, W> | null".
Proof. by vm_compute. Qed.

End TypeParserProps.

(** ** The documentation extractor *)

Module DocProps.
Import JsString Regex Types TypeParser Effects Syntax Comment ModuleParser.
Import Observe Checks.
Import JsStringFacts RegexFacts TypeParserFacts JsStringMore RegexMore.
Import TypeParserMore.

#[local] Arguments len : simpl never.

(** An anchored pattern does not match after the start of the text. *)
Lemma searchFrom_bol (r : regex) (pos : nat) (s : string) :
  0 < pos -> searchFrom (Seq Bol r) pos s = None.
Proof.
  revert pos. induction s as [|c s IH]; intros pos Hpos;
    cbn [searchFrom run]; destruct pos as [|pos]; try lia; cbn [Nat.eqb].
  - done.
  - apply IH. lia.
Qed.

Lemma remove_leading_underscore (name : string) :
  Regex.remove reLeadingUnderscore name
  = if startsWith name "_" then drop 1 name else name.
Proof.
  unfold Regex.remove, exec, reLeadingUnderscore.
  destruct name as [|c name]; [done|].
  cbn [searchFrom run Nat.eqb].
  destruct (startsWith (String c name) "_") eqn:Hs; [done|].
  by rewrite searchFrom_bol by lia.
Qed.

(** X10: [extractedType] takes what stands between the first opening brace
    and the closing brace that follows it. *)
Theorem extractedType_braces (inner rest : string) :
  truthy inner = true -> mentions "}" inner = false ->
  extractedType ("{" +:+ inner +:+ "}" +:+ rest) = inner.
Proof.
  intros Hinner Hclose. unfold extractedType.
  by destruct (exec_braces_exact inner rest Hclose (truthy_ne _ Hinner))
    as [stop ->].
Qed.

Lemma extractedType_braces_witness :
  extractedType ("{" +:+ "Map<string, number>" +:+ "}" +:+ " - the map")
  = "Map<string, number>".
Proof.
  by apply (extractedType_braces "Map<string, number>" " - the map").
Defined.

(** X11: a type text without a closing brace is kept as it is, and what
    [extractedType] returns has nothing left to extract: extracting again
    changes nothing. *)
Theorem extractedType_idempotent (type : string) :
  (mentions "}" type = false -> extractedType type = type) /\
  extractedType (extractedType type) = extractedType type.
Proof.
  assert (forall s, mentions "}" s = false -> extractedType s = s) as Hkeep.
  { intros s Hs. unfold extractedType.
    destruct (exec reBraces s) as [m|] eqn:E; [|done].
    apply exec_braces_sound in E as [E _]. by rewrite Hs in E. }
  split; [apply Hkeep|].
  unfold extractedType at 2 3.
  destruct (exec reBraces type) as [m|] eqn:E.
  - apply Hkeep. by apply exec_braces_sound in E as [_ E].
  - unfold extractedType. by rewrite E.
Qed.

(** X12: the parameters [extractParams] returns are the [param] tags of the
    comment, in order; a documented name loses one leading underscore and no
    other code unit, and the parameter is optional exactly when the
    documented name starts with an underscore or the description holds
    [(optional)]. *)
Theorem extractParams_names (config : ASTParserConfig) (jsDoc : JSDocInfo) :
  let paramTags :=
    List.filter (fun t => String.eqb (tag t) "param") (docTags jsDoc) in
  map paramName (extractParams config jsDoc)
  = map (fun t => if startsWith (tagName t) "_" then drop 1 (tagName t)
                  else tagName t) paramTags /\
  map paramOptional (extractParams config jsDoc)
  = map (fun t => startsWith (tagName t) "_" ||
                  includes (tagDescription t) "(optional)") paramTags /\
  map (fun p => rawType (paramType p)) (extractParams config jsDoc)
  = map tagType paramTags.
Proof.
  cbv zeta. unfold extractParams. rewrite !map_map.
  cbn [paramName paramOptional paramType].
  split; [|split]; apply map_ext; intros t.
  - apply remove_leading_underscore.
  - done.
  - eapply parseTypeBody_rawType. apply parseType_unfold.
Qed.

End DocProps.

(** ** The walker: what every recorded descriptor satisfies *)

Module WalkerMore.
Import JsString Types TypeParser Effects Syntax Comment ModuleParser Members.
Import Checks JsStringFacts JsStringMore WalkerFacts.

Lemma tryNoOp_preserves (P : gmap string MethodInfo -> Prop) (c : M unit)
    (methods : gmap string MethodInfo) :
  P (c methods).2 -> P (tryNoOp c methods).2.
Proof. unfold tryNoOp. by destruct (c methods) as [[u|e] m']. Qed.

Lemma insert_Forall (Q : string -> MethodInfo -> Prop) (key : string)
    (info : MethodInfo) (methods : gmap string MethodInfo) :
  Q key info -> map_Forall Q methods ->
  map_Forall Q (<[key := info]> methods).
Proof. intros Hinfo Hm. by apply map_Forall_insert_2. Qed.

Section WithParser.
Variable commentParserDefault : string -> outcome (option (list Block)).
Variable config : ASTParserConfig.
(** A property of the entries of the record that every assignment of the
    walker establishes. *)
Variable Q : string -> MethodInfo -> Prop.
Hypothesis Q_function :
  forall name description params returns isAsync,
    Q name (createMethodInfo name description params returns KFunction
              isAsync Public).
Hypothesis Q_constructor :
  forall className description params,
    Q (constructorKey className)
      (createMethodInfo (constructorKey className) description params None
         KConstructor false Public).
Hypothesis Q_instance :
  captureInstanceMethods config = true ->
  forall name description params returns isAsync visibility,
    Q name (createMethodInfo name description params returns KInstance
              isAsync visibility).
Hypothesis Q_static :
  captureStaticMethods config = true ->
  forall name description params returns isAsync visibility,
    Q name (createMethodInfo name description params returns KStatic
              isAsync visibility).
Hypothesis Q_property :
  capturePropertyMethods config = true ->
  forall name description params returns isAsync visibility,
    Q name (createMethodInfo name description params returns KProperty
              isAsync visibility).
Hypothesis Q_getter :
  captureGetAccessors config = true ->
  forall name description returns visibility,
    Q name (createMethodInfo name description [] returns KGetter false
              visibility).
Hypothesis Q_setter :
  captureSetAccessors config = true ->
  forall name description accessor doc visibility,
    Q name (createMethodInfo name description
              (declaredSetterParams config accessor doc) None KSetter false
              visibility).

Local Abbreviation P := (map_Forall Q).

Lemma processFunctionDeclaration_Forall (declaration : FunctionDeclaration)
    (namePrefix : option string) (methods : gmap string MethodInfo) :
  P methods ->
  P (processFunctionDeclaration commentParserDefault config declaration
       namePrefix methods).2.
Proof.
  intros Hm. rewrite processFunctionDeclaration_eq. cbn [snd].
  by apply insert_Forall.
Qed.

Lemma processVariableDeclaration_Forall (declaration : VariableDeclaration)
    (namePrefix : option string) (methods : gmap string MethodInfo) :
  P methods ->
  P (processVariableDeclaration commentParserDefault config declaration
       namePrefix methods).2.
Proof.
  intros Hm.
  destruct (processVariableDeclaration_eq commentParserDefault config
              declaration namePrefix methods) as [->|[isAsync ->]];
    [done|].
  cbn [snd]. by apply insert_Forall.
Qed.

Lemma processClassDeclaration_Forall (declaration : ClassDeclaration)
    (className : string) (methods : gmap string MethodInfo) :
  P methods ->
  P (processClassDeclaration commentParserDefault config declaration
       className methods).2.
Proof.
  intros Hm. unfold processClassDeclaration.
  apply bind_preserves.
  { unfold processConstructors.
    destruct (getConstructors declaration) as [|constructor rest]; [done|].
    rewrite lift_parseJSDoc. cbn [assign snd].
    apply insert_Forall; [apply (Q_constructor className)|done]. }
  intros _ m1 Hm1. apply bind_preserves.
  { destruct (captureInstanceMethods config) eqn:Hcfg; [|done].
    cbn [when]. apply forEach_preserves; [|done].
    apply Forall_forall. intros method _ m Hmm.
    destruct (methIsStatic method); [done|].
    rewrite processMethod_eq. cbn [snd].
    by apply insert_Forall; [apply Q_instance|]. }
  intros _ m2 Hm2. apply bind_preserves.
  { destruct (captureStaticMethods config) eqn:Hcfg; [|done].
    cbn [when]. apply forEach_preserves; [|done].
    apply Forall_forall. intros method _ m Hmm.
    rewrite processMethod_eq. cbn [snd].
    by apply insert_Forall; [apply Q_static|]. }
  intros _ m3 Hm3. apply bind_preserves.
  { destruct (capturePropertyMethods config) eqn:Hcfg; [|done].
    cbn [when]. apply forEach_preserves; [|done].
    apply Forall_forall. intros property _ m Hmm.
    destruct (propInitializer property) as [text|]; [|done].
    apply when_preserves; [|done]. intros _.
    destruct (processPropertyMethod_eq commentParserDefault config property
                className m) as [isAsync ->].
    cbn [snd]. by apply insert_Forall; [apply Q_property|]. }
  intros _ m4 Hm4. apply bind_preserves.
  { destruct (captureGetAccessors config) eqn:Hcfg; [|done].
    cbn [when]. apply forEach_preserves; [|done].
    apply Forall_forall. intros accessor _ m Hmm.
    rewrite processGetter_eq. cbn [snd].
    by apply insert_Forall; [apply Q_getter|]. }
  intros _ m5 Hm5.
  destruct (captureSetAccessors config) eqn:Hcfg; [|done].
  cbn [when]. apply forEach_preserves; [|done].
  apply Forall_forall. intros accessor _ m Hmm.
  rewrite processSetter_eq. cbn [snd].
  by apply insert_Forall; [apply Q_setter|].
Qed.

Lemma processNamespaceDeclaration_Forall :
  forall (namespace : ModuleDeclaration) (namespaceName : string)
         (methods : gmap string MethodInfo),
    P methods ->
    P (processNamespaceDeclaration commentParserDefault config namespace
         namespaceName methods).2.
Proof.
  fix IH 1.
  intros [exported identifier [[functions classes statements nested]|]]
    namespaceName methods Hm; cbn [processNamespaceDeclaration]; [|done].
  cbn [blockFunctions blockClasses blockVariableStatements blockModules].
  apply bind_preserves.
  { apply forEach_preserves; [|done].
    apply Forall_forall. intros funcNode _ m Hmm.
    apply tryNoOp_preserves, when_preserves; [|done].
    apply processFunctionDeclaration_Forall. }
  intros _ m1 Hm1. apply bind_preserves.
  { apply forEach_preserves; [|done].
    apply Forall_forall. intros clsNode _ m Hmm.
    apply tryNoOp_preserves, when_preserves; [|done].
    apply processClassDeclaration_Forall. }
  intros _ m2 Hm2. apply bind_preserves.
  { apply forEach_preserves; [|done].
    apply Forall_forall. intros stmtNode _ m Hmm.
    apply tryNoOp_preserves, when_preserves; [|done]. intros Hmm'.
    apply forEach_preserves; [|done].
    apply Forall_forall. intros declaration _ m' Hmm''.
    by apply processVariableDeclaration_Forall. }
  intros _ m3 Hm3.
  apply forEach_preserves; [|done].
  induction nested as [|nestedNode nested IHnested]; constructor;
    [|exact IHnested].
  intros m Hmm. apply tryNoOp_preserves, when_preserves; [|done].
  apply IH.
Qed.

Lemma walk_Forall (sourceFile : SourceFile)
    (methods : gmap string MethodInfo) :
  P methods -> P (walk commentParserDefault config sourceFile methods).2.
Proof.
  intros Hm. unfold walk.
  apply bind_preserves.
  { apply forEach_preserves; [|done].
    apply Forall_forall. intros func _ m Hmm.
    apply when_preserves; [|done]. apply processFunctionDeclaration_Forall. }
  intros _ m1 Hm1. apply bind_preserves.
  { apply forEach_preserves; [|done].
    apply Forall_forall. intros cls _ m Hmm.
    apply when_preserves; [|done]. apply processClassDeclaration_Forall. }
  intros _ m2 Hm2. apply bind_preserves.
  { apply forEach_preserves; [|done].
    apply Forall_forall. intros declaration _ m Hmm.
    apply when_preserves; [|done]. apply processVariableDeclaration_Forall. }
  intros _ m3 Hm3.
  apply forEach_preserves; [|done].
  apply Forall_forall. intros namespaceNode _ m Hmm.
  apply tryNoOp_preserves, when_preserves; [|done].
  apply processNamespaceDeclaration_Forall.
Qed.

Lemma parseSourceFile_Forall (sourceFile : SourceFile)
    (result : ParsedModuleResult) :
  parseSourceFile commentParserDefault config sourceFile = Ok result ->
  P (methods result).
Proof.
  unfold parseSourceFile.
  pose proof (walk_Forall sourceFile ∅ (map_Forall_empty Q)) as Hwalk.
  destruct (walk _ _ sourceFile ∅) as [[[]|e] m]; [|done].
  destruct (extractModuleInfo _ sourceFile) as [info|e]; [|done].
  simpl. by intros [= <-].
Qed.
End WithParser.

(** *** Declarations the walker passes over *)

Lemma forEach_filter {A : Type} (p : A -> bool) (g : A -> M unit)
    (l : list A) (methods : gmap string MethodInfo) :
  (forall x m, p x = false -> g x m = (Ok tt, m)) ->
  forEach g (List.filter p l) methods = forEach g l methods.
Proof.
  intros Hskip. revert methods.
  induction l as [|x l IH]; intros m; [done|].
  cbn [List.filter forEach]. destruct (p x) eqn:Hp.
  - cbn [forEach]. unfold mbind, M_bind.
    by destruct (g x m) as [[u|e] m'].
  - rewrite IH. unfold mbind, M_bind. by rewrite Hskip.
Qed.

Lemma walk_withoutSkipped
    (commentParserDefault : string -> outcome (option (list Block)))
    (config : ASTParserConfig) (sourceFile : SourceFile)
    (methods : gmap string MethodInfo) :
  walk commentParserDefault config (withoutSkipped sourceFile) methods
  = walk commentParserDefault config sourceFile methods.
Proof.
  unfold walk, withoutSkipped.
  cbn [getFunctions getClasses getVariableDeclarations
       getModuleDeclarations].
  unfold mbind, M_bind.
  rewrite forEach_filter by (by intros x m ->).
  destruct (forEach _ (getFunctions sourceFile) methods) as [[u1|e1] m1];
    [|done].
  rewrite forEach_filter by (by intros x m ->).
  destruct (forEach _ (getClasses sourceFile) m1) as [[u2|e2] m2]; [|done].
  rewrite forEach_filter by (by intros x m ->).
  destruct (forEach _ (getVariableDeclarations sourceFile) m2)
    as [[u3|e3] m3]; [|done].
  by rewrite forEach_filter by (by intros x m ->).
Qed.

(** *** Two configurations that agree on the options the walker reads *)

Lemma bind_ext (c c' : M unit) (k k' : unit -> M unit)
    (methods : gmap string MethodInfo) :
  c methods = c' methods -> (forall u m, k u m = k' u m) ->
  (c ≫= k) methods = (c' ≫= k') methods.
Proof.
  intros Hc Hk. unfold mbind, M_bind. rewrite Hc.
  by destruct (c' methods) as [[u|e] m'].
Qed.

Lemma forEach_ext {A : Type} (f g : A -> M unit) (l : list A)
    (methods : gmap string MethodInfo) :
  Forall (fun x => forall m, f x m = g x m) l ->
  forEach f l methods = forEach g l methods.
Proof.
  intros Hfg. revert methods.
  induction Hfg as [|x l Hx _ IH]; intros m; [done|].
  cbn [forEach]. apply bind_ext; [apply Hx|]. intros _ m'. apply IH.
Qed.

Lemma when_ext (b : bool) (c c' : M unit)
    (methods : gmap string MethodInfo) :
  c methods = c' methods -> when b c methods = when b c' methods.
Proof. by destruct b. Qed.

Lemma tryNoOp_ext (c c' : M unit) (methods : gmap string MethodInfo) :
  c methods = c' methods -> tryNoOp c methods = tryNoOp c' methods.
Proof. unfold tryNoOp. by intros ->. Qed.

Section TwoConfigurations.
Variable commentParserDefault : string -> outcome (option (list Block)).
Variables a b : ASTParserConfig.
Hypothesis instanceMethods :
  captureInstanceMethods a = captureInstanceMethods b.
Hypothesis staticMethods : captureStaticMethods a = captureStaticMethods b.
Hypothesis propertyMethods :
  capturePropertyMethods a = capturePropertyMethods b.
Hypothesis getAccessors : captureGetAccessors a = captureGetAccessors b.
Hypothesis setAccessors : captureSetAccessors a = captureSetAccessors b.
Hypothesis complexTypes : captureComplexTypes a = captureComplexTypes b.

Lemma parseTypeF_config (fuel : nat) (typeString : string) :
  parseTypeF a fuel typeString = parseTypeF b fuel typeString.
Proof.
  revert typeString. induction fuel as [|fuel IH]; intros T; [done|].
  cbn [parseTypeF].
  rewrite (TypeParserFacts.parseTypeBody_ext a _ (parseTypeF b fuel) T)
    by (intros; apply IH).
  unfold parseTypeBody. by rewrite complexTypes.
Qed.

Lemma parseType_config (typeString : string) :
  parseType a typeString = parseType b typeString.
Proof. unfold parseType. by rewrite parseTypeF_config. Qed.

Lemma extractParams_config (jsDoc : JSDocInfo) :
  extractParams a jsDoc = extractParams b jsDoc.
Proof.
  unfold extractParams. apply map_ext. intros t.
  by rewrite parseType_config.
Qed.

Lemma extractReturns_config (jsDoc : JSDocInfo) :
  extractReturns a jsDoc = extractReturns b jsDoc.
Proof.
  unfold extractReturns. destruct (List.find _ _); [|done].
  by rewrite parseType_config.
Qed.

Lemma processFunctionDeclaration_config
    (declaration : FunctionDeclaration) (namePrefix : option string)
    (methods : gmap string MethodInfo) :
  processFunctionDeclaration commentParserDefault a declaration namePrefix
    methods
  = processFunctionDeclaration commentParserDefault b declaration namePrefix
      methods.
Proof.
  rewrite !processFunctionDeclaration_eq. cbv zeta.
  by rewrite extractParams_config, extractReturns_config.
Qed.

Lemma processVariableDeclaration_config
    (declaration : VariableDeclaration) (namePrefix : option string)
    (methods : gmap string MethodInfo) :
  processVariableDeclaration commentParserDefault a declaration namePrefix
    methods
  = processVariableDeclaration commentParserDefault b declaration namePrefix
      methods.
Proof.
  unfold processVariableDeclaration.
  destruct (varInitializer declaration) as [text|]; [|done].
  destruct (negb _ && negb _ && negb _); [done|].
  rewrite !lift_parseJSDoc.
  by rewrite extractParams_config, extractReturns_config.
Qed.

Lemma processMethod_config (method : MethodDeclaration)
    (className : string) (kind : MethodKind) (visibility : Visibility)
    (methods : gmap string MethodInfo) :
  processMethod commentParserDefault a method className kind visibility
    methods
  = processMethod commentParserDefault b method className kind visibility
      methods.
Proof.
  rewrite !processMethod_eq. cbv zeta.
  by rewrite extractParams_config, extractReturns_config.
Qed.

Lemma processPropertyMethod_config (property : PropertyDeclaration)
    (className : string) (methods : gmap string MethodInfo) :
  processPropertyMethod commentParserDefault a property className methods
  = processPropertyMethod commentParserDefault b property className methods.
Proof.
  unfold processPropertyMethod. cbv zeta. rewrite !lift_parseJSDoc.
  by rewrite extractParams_config, extractReturns_config.
Qed.

Lemma processAccessor_config (accessor : AccessorDeclaration)
    (className : string) (kind : MethodKind)
    (methods : gmap string MethodInfo) :
  processAccessor commentParserDefault a accessor className kind methods
  = processAccessor commentParserDefault b accessor className kind methods.
Proof.
  unfold processAccessor. cbv zeta. rewrite !lift_parseJSDoc.
  rewrite extractReturns_config.
  destruct kind, (accParameters accessor) as [|param rest]; try done.
  by rewrite parseType_config.
Qed.

Lemma processClassDeclaration_config (declaration : ClassDeclaration)
    (className : string) (methods : gmap string MethodInfo) :
  processClassDeclaration commentParserDefault a declaration className
    methods
  = processClassDeclaration commentParserDefault b declaration className
      methods.
Proof.
  unfold processClassDeclaration.
  rewrite instanceMethods, staticMethods, propertyMethods, getAccessors,
    setAccessors.
  apply bind_ext.
  { unfold processConstructors.
    destruct (getConstructors declaration) as [|constructor rest]; [done|].
    rewrite !lift_parseJSDoc. by rewrite extractParams_config. }
  intros _ m1. apply bind_ext.
  { apply when_ext, forEach_ext, Forall_forall. intros method _ m.
    destruct (methIsStatic method); [done|]. apply processMethod_config. }
  intros _ m2. apply bind_ext.
  { apply when_ext, forEach_ext, Forall_forall. intros method _ m.
    apply processMethod_config. }
  intros _ m3. apply bind_ext.
  { apply when_ext, forEach_ext, Forall_forall. intros property _ m.
    destruct (propInitializer property) as [text|]; [|done].
    apply when_ext, processPropertyMethod_config. }
  intros _ m4. apply bind_ext.
  { apply when_ext, forEach_ext, Forall_forall. intros accessor _ m.
    apply processAccessor_config. }
  intros _ m5.
  apply when_ext, forEach_ext, Forall_forall. intros accessor _ m.
  apply processAccessor_config.
Qed.

Lemma processNamespaceDeclaration_config :
  forall (namespace : ModuleDeclaration) (namespaceName : string)
         (methods : gmap string MethodInfo),
    processNamespaceDeclaration commentParserDefault a namespace
      namespaceName methods
    = processNamespaceDeclaration commentParserDefault b namespace
        namespaceName methods.
Proof.
  fix IH 1.
  intros [exported identifier [[functions classes statements nested]|]]
    namespaceName methods; cbn [processNamespaceDeclaration]; [|done].
  cbn [blockFunctions blockClasses blockVariableStatements blockModules].
  apply bind_ext.
  { apply forEach_ext, Forall_forall. intros funcNode _ m.
    apply tryNoOp_ext, when_ext, processFunctionDeclaration_config. }
  intros _ m1. apply bind_ext.
  { apply forEach_ext, Forall_forall. intros clsNode _ m.
    apply tryNoOp_ext, when_ext, processClassDeclaration_config. }
  intros _ m2. apply bind_ext.
  { apply forEach_ext, Forall_forall. intros stmtNode _ m.
    apply tryNoOp_ext, when_ext, forEach_ext, Forall_forall.
    intros declaration _ m'. apply processVariableDeclaration_config. }
  intros _ m3. apply forEach_ext.
  induction nested as [|nestedNode nested IHnested]; constructor;
    [|exact IHnested].
  intros m. apply tryNoOp_ext, when_ext, IH.
Qed.

Lemma walk_config (sourceFile : SourceFile)
    (methods : gmap string MethodInfo) :
  walk commentParserDefault a sourceFile methods
  = walk commentParserDefault b sourceFile methods.
Proof.
  unfold walk. apply bind_ext.
  { apply forEach_ext, Forall_forall. intros func _ m.
    apply when_ext, processFunctionDeclaration_config. }
  intros _ m1. apply bind_ext.
  { apply forEach_ext, Forall_forall. intros cls _ m.
    apply when_ext, processClassDeclaration_config. }
  intros _ m2. apply bind_ext.
  { apply forEach_ext, Forall_forall. intros declaration _ m.
    apply when_ext, processVariableDeclaration_config. }
  intros _ m3. apply forEach_ext, Forall_forall. intros namespaceNode _ m.
  apply tryNoOp_ext, when_ext, processNamespaceDeclaration_config.
Qed.
End TwoConfigurations.

(** *** Qualified names *)

Lemma startsWith_prefix (s p q : string) :
  startsWith s (p +:+ q) = true -> startsWith s p = true.
Proof.
  revert s. induction p as [|c p IH]; intros s; [by destruct s|].
  rewrite append_cons. destruct s as [|d s]; [done|]. cbn [startsWith].
  intros [-> H]%andb_prop. by rewrite (IH s H).
Qed.

Lemma startsWith_qualified (owner member : string) :
  startsWith (owner +:+ "." +:+ member) (owner +:+ ".") = true.
Proof.
  change (owner +:+ "." +:+ member) with (owner +:+ ("." +:+ member)).
  rewrite <- append_assoc. apply startsWith_append.
Qed.

Lemma startsWith_nested (key owner member : string) :
  startsWith key ((owner +:+ "." +:+ member) +:+ ".") = true ->
  startsWith key (owner +:+ ".") = true.
Proof.
  change ((owner +:+ "." +:+ member) +:+ ".")
    with ((owner +:+ ("." +:+ member)) +:+ ".").
  rewrite <- (append_assoc owner "." member), append_assoc.
  apply startsWith_prefix.
Qed.

Lemma orElse_qualified (owner member other : string) :
  orElse (default "" (Some (owner +:+ "." +:+ member))) other
  = owner +:+ "." +:+ member.
Proof. unfold orElse. by destruct owner. Qed.

(** The entries of [methods'] are those of [methods] and entries whose
    key starts with [prefix]. *)
Local Abbreviation within prefix methods methods' :=
  (forall (key : string) (info : MethodInfo),
     methods' !! key = Some info ->
     methods !! key = Some info \/ startsWith key prefix = true).

Lemma within_insert (prefix key : string) (info : MethodInfo)
    (methods m : gmap string MethodInfo) :
  startsWith key prefix = true -> within prefix methods m ->
  within prefix methods (<[key := info]> m).
Proof.
  intros Hkey Hm key' info' Hlookup.
  apply lookup_insert_Some in Hlookup as [[<- _]|[_ Hlookup]];
    [by right|by apply Hm].
Qed.

Section WithParser.
Variable commentParserDefault : string -> outcome (option (list Block)).
Variable config : ASTParserConfig.

Lemma processClassDeclaration_within (declaration : ClassDeclaration)
    (className : string) (methods m : gmap string MethodInfo) :
  within (className +:+ ".") methods m ->
  within (className +:+ ".") methods
    (processClassDeclaration commentParserDefault config declaration
       className m).2.
Proof.
  intros Hm.
  apply (processClassDeclaration_preserves commentParserDefault config
           (fun m' => within (className +:+ ".") methods m')).
  - unfold processConstructors.
    destruct (getConstructors declaration) as [|constructor rest]; [done|].
    rewrite lift_parseJSDoc. cbn [assign snd].
    apply within_insert; [|done].
    apply (startsWith_qualified className "constructor").
  - intros method kind visibility m' _ _ Hm'.
    rewrite processMethod_eq. cbn [snd].
    apply within_insert; [apply startsWith_qualified|done].
  - intros property m' _ Hm'.
    destruct (processPropertyMethod_eq commentParserDefault config property
                className m') as [isAsync ->].
    cbn [snd]. apply within_insert; [apply startsWith_qualified|done].
  - intros accessor kind m' _ _ Hm'.
    unfold processAccessor. cbv zeta. rewrite lift_parseJSDoc.
    cbn [assign snd]. apply within_insert; [apply startsWith_qualified|done].
Qed.

Lemma processNamespaceDeclaration_within :
  forall (namespace : ModuleDeclaration) (namespaceName : string)
         (methods m : gmap string MethodInfo),
    within (namespaceName +:+ ".") methods m ->
    within (namespaceName +:+ ".") methods
      (processNamespaceDeclaration commentParserDefault config namespace
         namespaceName m).2.
Proof.
  fix IH 1.
  intros [exported identifier [[functions classes statements nested]|]]
    namespaceName methods m Hm; cbn [processNamespaceDeclaration]; [|done].
  cbn [blockFunctions blockClasses blockVariableStatements blockModules].
  set (P := fun m' : gmap string MethodInfo =>
              within (namespaceName +:+ ".") methods m').
  assert (forall (m' m'' : gmap string MethodInfo) child,
            P m' ->
            within ((namespaceName +:+ "." +:+ child) +:+ ".") m' m'' ->
            P m'') as Hnest.
  { intros m' m'' child Hm' Hm'' key info Hlookup.
    destruct (Hm'' key info Hlookup) as [Hold|Hnew]; [by apply Hm'|].
    right. by apply (startsWith_nested key namespaceName child). }
  change (P m) in Hm. change (P (?x).2) with (P x.2).
  apply (bind_preserves P).
  { apply forEach_preserves; [|done].
    apply Forall_forall. intros funcNode _ m' Hm'.
    apply tryNoOp_preserves, when_preserves; [|done]. intros _.
    rewrite processFunctionDeclaration_eq. cbn [snd].
    rewrite orElse_qualified. unfold P.
    apply within_insert; [apply startsWith_qualified|done]. }
  intros _ m1 Hm1. apply (bind_preserves P).
  { apply forEach_preserves; [|done].
    apply Forall_forall. intros clsNode _ m' Hm'.
    apply tryNoOp_preserves, when_preserves; [|done]. intros _.
    apply (Hnest m' _ (default "" (clsFirstIdentifier clsNode)) Hm').
    apply processClassDeclaration_within. intros ? ? ?. by left. }
  intros _ m2 Hm2. apply (bind_preserves P).
  { apply forEach_preserves; [|done].
    apply Forall_forall. intros stmtNode _ m' Hm'.
    apply tryNoOp_preserves, when_preserves; [|done]. intros _.
    apply forEach_preserves; [|done].
    apply Forall_forall. intros declaration _ m'' Hm''.
    destruct (processVariableDeclaration_eq commentParserDefault config
                declaration
                (Some (namespaceName +:+ "." +:+
                       default "" (varFirstIdentifier declaration))) m'')
      as [->|[isAsync ->]]; [done|].
    cbn [snd]. rewrite orElse_qualified. unfold P.
    apply within_insert; [apply startsWith_qualified|done]. }
  intros _ m3 Hm3.
  apply forEach_preserves; [|done].
  induction nested as [|nestedNode nested IHnested]; constructor;
    [|exact IHnested].
  intros m' Hm'. apply tryNoOp_preserves, when_preserves; [|done]. intros _.
  apply (Hnest m' _ (default "" (nsFirstIdentifier nestedNode)) Hm').
  apply IH. intros ? ? ?. by left.
Qed.
End WithParser.

End WalkerMore.

(** ** Keys a later step of the walker leaves alone *)

Module WalkerKeys.
Import JsString Types TypeParser Effects Syntax Comment ModuleParser Members.
Import Checks JsStringFacts JsStringMore WalkerFacts WalkerMore.

Lemma forEach_app {A : Type} (f : A -> M unit) (l1 l2 : list A)
    (methods : gmap string MethodInfo) :
  forEach f (l1 ++ l2) methods
  = (forEach f l1 ≫= fun _ => forEach f l2) methods.
Proof.
  revert methods. induction l1 as [|x l1 IH]; intros m; [done|].
  cbn [app forEach]. unfold mbind, M_bind in *.
  destruct (f x m) as [[u|e] m']; [apply IH|done].
Qed.

Lemma bind_snd (c : M unit) (k : unit -> M unit)
    (methods : gmap string MethodInfo) :
  succeeds c -> ((c ≫= k) methods).2 = (k tt (c methods).2).2.
Proof.
  intros Hc. destruct (Hc methods) as [m' Hm].
  unfold mbind, M_bind. by rewrite Hm.
Qed.

Lemma insert_untouched (prefix key key' : string) (info : MethodInfo)
    (methods : gmap string MethodInfo) :
  startsWith key' prefix = true -> startsWith key prefix = false ->
  <[key' := info]> methods !! key = methods !! key.
Proof.
  intros Hkey' Hkey. apply lookup_insert_ne. intros ->. congruence.
Qed.

Lemma startsWith_not_nested (key owner member : string) :
  startsWith key (owner +:+ ".") = false ->
  startsWith key ((owner +:+ "." +:+ member) +:+ ".") = false.
Proof.
  intros Hkey.
  destruct (startsWith key ((owner +:+ "." +:+ member) +:+ ".")) eqn:E;
    [|done].
  apply startsWith_nested in E. congruence.
Qed.

Section WithParser.
Variable commentParserDefault : string -> outcome (option (list Block)).
Variable config : ASTParserConfig.

(** A class leaves alone the keys that do not start with its name and a
    dot. *)
Lemma processClassDeclaration_untouched (declaration : ClassDeclaration)
    (className key : string) (methods : gmap string MethodInfo) :
  startsWith key (className +:+ ".") = false ->
  (processClassDeclaration commentParserDefault config declaration className
     methods).2 !! key = methods !! key.
Proof.
  intros Hkey.
  apply (processClassDeclaration_preserves commentParserDefault config
           (fun m' => m' !! key = methods !! key)).
  - unfold processConstructors.
    destruct (getConstructors declaration) as [|constructor rest]; [done|].
    rewrite lift_parseJSDoc. cbn [assign snd].
    rewrite (insert_untouched (className +:+ ".")); [done| |done].
    apply (startsWith_qualified className "constructor").
  - intros method kind visibility m' _ _ Hm'.
    rewrite processMethod_eq. cbn [snd].
    by rewrite (insert_untouched (className +:+ "."));
      [|apply startsWith_qualified|].
  - intros property m' _ Hm'.
    destruct (processPropertyMethod_eq commentParserDefault config property
                className m') as [isAsync ->].
    cbn [snd].
    by rewrite (insert_untouched (className +:+ "."));
      [|apply startsWith_qualified|].
  - intros accessor kind m' _ _ Hm'.
    unfold processAccessor. cbv zeta. rewrite lift_parseJSDoc.
    cbn [assign snd].
    by rewrite (insert_untouched (className +:+ "."));
      [|apply startsWith_qualified|].
Qed.

(** So does a namespace, at any depth. *)
Lemma processNamespaceDeclaration_untouched :
  forall (namespace : ModuleDeclaration) (namespaceName key : string)
         (methods : gmap string MethodInfo),
    startsWith key (namespaceName +:+ ".") = false ->
    (processNamespaceDeclaration commentParserDefault config namespace
       namespaceName methods).2 !! key = methods !! key.
Proof.
  fix IH 1.
  intros [exported identifier [[functions classes statements nested]|]]
    namespaceName key methods Hkey; cbn [processNamespaceDeclaration];
    [|done].
  cbn [blockFunctions blockClasses blockVariableStatements blockModules].
  apply (bind_preserves (fun m' => m' !! key = methods !! key)).
  { apply forEach_preserves; [|done].
    apply Forall_forall. intros funcNode _ m' Hm'.
    apply tryNoOp_preserves, when_preserves; [|done]. intros _.
    rewrite processFunctionDeclaration_eq. cbn [snd].
    rewrite orElse_qualified.
    by rewrite (insert_untouched (namespaceName +:+ "."));
      [|apply startsWith_qualified|]. }
  intros _ m1 Hm1.
  apply (bind_preserves (fun m' => m' !! key = methods !! key)).
  { apply forEach_preserves; [|done].
    apply Forall_forall. intros clsNode _ m' Hm'.
    apply tryNoOp_preserves, when_preserves; [|done]. intros _.
    rewrite processClassDeclaration_untouched; [done|].
    by apply startsWith_not_nested. }
  intros _ m2 Hm2.
  apply (bind_preserves (fun m' => m' !! key = methods !! key)).
  { apply forEach_preserves; [|done].
    apply Forall_forall. intros stmtNode _ m' Hm'.
    apply tryNoOp_preserves, when_preserves; [|done]. intros _.
    apply forEach_preserves; [|done].
    apply Forall_forall. intros declaration _ m'' Hm''.
    destruct (processVariableDeclaration_eq commentParserDefault config
                declaration
                (Some (namespaceName +:+ "." +:+
                       default "" (varFirstIdentifier declaration))) m'')
      as [->|[isAsync ->]]; [done|].
    cbn [snd]. rewrite orElse_qualified.
    by rewrite (insert_untouched (namespaceName +:+ "."));
      [|apply startsWith_qualified|]. }
  intros _ m3 Hm3.
  apply forEach_preserves; [|done].
  induction nested as [|nestedNode nested IHnested]; constructor;
    [|exact IHnested].
  intros m' Hm'. apply tryNoOp_preserves, when_preserves; [|done]. intros _.
  rewrite IH; [done|]. by apply startsWith_not_nested.
Qed.

(** The entry a class has written under the key of its constructor is
    the one the walk ends with, when nothing processed later writes under
    that key. *)
Lemma walk_keeps_constructor (sourceFile : SourceFile)
    (earlier later : list ClassDeclaration) (declaration : ClassDeclaration)
    (className : string) (info : MethodInfo)
    (methods : gmap string MethodInfo) :
  getClasses sourceFile = earlier ++ declaration :: later ->
  clsIsExported declaration = true ->
  default "" (clsGetName declaration) = className ->
  (forall m,
     (processClassDeclaration commentParserDefault config declaration
        className m).2 !! constructorKey className = Some info) ->
  constructorKeyKept sourceFile later className ->
  (walk commentParserDefault config sourceFile methods).2
  !! constructorKey className = Some info.
Proof.
  intros Hclasses Hexported Hname Hclass (Hlater & Hvariables & Hnamespaces).
  unfold walk.
  rewrite bind_snd
    by (apply succeeds_forEach; intros func;
        apply succeeds_when, succeeds_processFunctionDeclaration).
  set (P := fun m : gmap string MethodInfo =>
              m !! constructorKey className = Some info).
  apply (bind_preserves P).
  { rewrite Hclasses, forEach_app.
    rewrite bind_snd
      by (apply succeeds_forEach; intros cls;
          apply succeeds_when, succeeds_processClassDeclaration).
    cbn [forEach]. apply (bind_preserves P).
    - rewrite Hexported, Hname. cbn [when]. apply Hclass.
    - intros _ m Hm. apply forEach_preserves; [|done].
      eapply Forall_impl; [exact Hlater|]. intros cls Hcls m' Hm'.
      destruct (clsIsExported cls) eqn:Eexported; [|done].
      cbn [when]. unfold P.
      by rewrite processClassDeclaration_untouched by (by apply Hcls). }
  intros _ m1 Hm1. apply (bind_preserves P).
  { apply forEach_preserves; [|done].
    eapply Forall_impl; [exact Hvariables|]. intros declaration' Hvar m Hm.
    destruct (varIsExported declaration') eqn:Eexported; [|done].
    cbn [when].
    destruct (processVariableDeclaration_eq commentParserDefault config
                declaration' None m) as [->|[isAsync ->]]; [done|].
    cbn [snd]. unfold P. rewrite lookup_insert_ne; [done|].
    unfold orElse. cbn [default truthy]. by apply Hvar. }
  intros _ m2 Hm2. apply forEach_preserves; [|done].
  eapply Forall_impl; [exact Hnamespaces|]. intros ns Hns m Hm.
  apply tryNoOp_preserves.
  destruct (nsHasExportKeyword ns) eqn:Eexported; [|done].
  cbn [when]. unfold P.
  by rewrite processNamespaceDeclaration_untouched by (by apply Hns).
Qed.
End WithParser.

End WalkerKeys.

Module ConstructorSpec.
Import JsString Types TypeParser Effects Syntax Comment ModuleParser Members.
Import Samples MoreSamples WalkerFacts WalkerSpec WalkerMore WalkerKeys.

Section WithProject.
Variable commentParserDefault : string -> outcome (option (list Block)).
Variable Project : Type.
Variable newProject : Project.
Variable createSourceFile :
  Project -> string -> string -> outcome SourceFile * Project.
Variable isAbsolute : string -> bool.
Variable join : string -> string -> string.

Local Abbreviation get :=
  (get commentParserDefault Project newProject createSourceFile isAbsolute
     join).
Local Abbreviation resolved := (resolved isAbsolute join).

End WithProject.



End ConstructorSpec.

Module WalkerProps.
Import JsString Types TypeParser Effects Syntax Comment ModuleParser Members.
Import Checks Samples MoreSamples WalkerFacts WalkerMore.

(** X13: every entry of the record [parseSourceFile] returns is filed under
    the [name] it carries, and has what its kind implies: a function or a
    constructor is public, a constructor or a setter has no return info, a
    getter has no parameter, a setter has at most one parameter and that one
    is required, and none of the three is async. *)
Theorem parseSourceFile_invariant
    (commentParserDefault : string -> outcome (option (list Block)))
    (config : ASTParserConfig) (sourceFile : SourceFile)
    (result : ParsedModuleResult) (key : string) (info : MethodInfo) :
  parseSourceFile commentParserDefault config sourceFile = Ok result ->
  methods result !! key = Some info ->
  name info = key /\ kindInvariant info.
Proof.
  intros Hparse Hlookup.
  refine (parseSourceFile_Forall commentParserDefault config
            (fun key info => name info = key /\ kindInvariant info)
            _ _ _ _ _ _ _ sourceFile result Hparse key info Hlookup);
    try done.
  intros _ n d accessor doc v. split; [done|].
  unfold kindInvariant, declaredSetterParams. cbn.
  destruct (accParameters accessor) as [|param rest]; cbn;
    by repeat constructor.
Qed.

Lemma parseSourceFile_invariant_witness :
  let info :=
    mkMethodInfo "Outer.Inner.deeper" "" [] None KFunction false Public in
  methods richParsed !! "Outer.Inner.deeper" = Some info /\
  name info = "Outer.Inner.deeper" /\ kindInvariant info.
Proof.
  split; [by vm_compute|].
  apply (parseSourceFile_invariant sampleCommentParser DEFAULT_AST_CONFIG
           richSourceFile richParsed); by vm_compute.
Defined.

(** X14: a descriptor that is not a function is recorded only when the
    option of the configuration for its kind is on. *)
Theorem parseSourceFile_captured
    (commentParserDefault : string -> outcome (option (list Block)))
    (config : ASTParserConfig) (sourceFile : SourceFile)
    (result : ParsedModuleResult) (key : string) (info : MethodInfo) :
  parseSourceFile commentParserDefault config sourceFile = Ok result ->
  methods result !! key = Some info ->
  methodKind info <> KFunction ->
  captured config (methodKind info) = true.
Proof.
  intros Hparse Hlookup.
  refine (parseSourceFile_Forall commentParserDefault config
            (fun key info => methodKind info <> KFunction ->
                             captured config (methodKind info) = true)
            _ _ _ _ _ _ _ sourceFile result Hparse key info Hlookup);
    try done.
Qed.

Lemma parseSourceFile_captured_witness :
  let info :=
    mkMethodInfo "Total.level" ""
      [mkParamInfo "v" (Observe.scalar "number") "" false] None KSetter false
      Public in
  methods richParsed !! "Total.level" = Some info /\
  captured DEFAULT_AST_CONFIG (methodKind info) = true.
Proof.
  split; [by vm_compute|].
  apply (parseSourceFile_captured sampleCommentParser DEFAULT_AST_CONFIG
           richSourceFile richParsed "Total.level");
    [by vm_compute|by vm_compute|discriminate].
Defined.

(** X15: the top-level functions, classes and variable declarations that
    are not exported, and the module declarations with no export keyword
    anywhere below them, have no effect on what [parseSourceFile] returns:
    leaving them out of the four lists gives the same result.  (A namespace
    that is not exported itself but holds an exported member has an export
    keyword below it, and is walked: see [hidden_namespace_is_walked].) *)
Theorem parseSourceFile_withoutSkipped
    (commentParserDefault : string -> outcome (option (list Block)))
    (config : ASTParserConfig) (sourceFile : SourceFile) :
  parseSourceFile commentParserDefault config (withoutSkipped sourceFile)
  = parseSourceFile commentParserDefault config sourceFile.
Proof.
  unfold parseSourceFile. by rewrite walk_withoutSkipped.
Qed.

(** [namespace Hidden { export function f() {} }] is not exported, and its
    function is recorded all the same. *)
Example hidden_namespace_is_walked :
  match parseSourceFile sampleCommentParser DEFAULT_AST_CONFIG
          hiddenSourceFile with
  | Ok result =>
      methods result
      = {[ "Hidden.f" :=
             mkMethodInfo "Hidden.f" "" [] None KFunction false Public ]}
  | Throw _ => False
  end.
Proof. by vm_compute. Qed.

(** X16: the option [captureArrowFunctions] is never read: two
    configurations that agree on the six other options give the same result
    on every source file. *)
Theorem parseSourceFile_ignores_captureArrowFunctions
    (commentParserDefault : string -> outcome (option (list Block)))
    (a b : ASTParserConfig) (sourceFile : SourceFile) :
  sameButArrowFunctions a b ->
  parseSourceFile commentParserDefault a sourceFile
  = parseSourceFile commentParserDefault b sourceFile.
Proof.
  intros (H1 & H2 & H3 & H4 & H5 & H6). unfold parseSourceFile.
  by rewrite (walk_config commentParserDefault a b H1 H2 H3 H4 H5 H6).
Qed.

Lemma parseSourceFile_ignores_captureArrowFunctions_witness :
  parseSourceFile sampleCommentParser DEFAULT_AST_CONFIG richSourceFile
  = parseSourceFile sampleCommentParser
      (mkConfig true true true true true false true) richSourceFile.
Proof.
  apply (parseSourceFile_ignores_captureArrowFunctions sampleCommentParser
           DEFAULT_AST_CONFIG (mkConfig true true true true true false true)
           richSourceFile).
  by repeat split.
Defined.

(** X17: every entry of the record after a class declaration was processed
    either was there before, unchanged, or is filed under a key that starts
    with the name of the class and a dot. *)
Theorem processClassDeclaration_qualified
    (commentParserDefault : string -> outcome (option (list Block)))
    (config : ASTParserConfig) (declaration : ClassDeclaration)
    (className : string) (methods : gmap string MethodInfo)
    (key : string) (info : MethodInfo) :
  (processClassDeclaration commentParserDefault config declaration className
     methods).2 !! key = Some info ->
  methods !! key = Some info \/ startsWith key (className +:+ ".") = true.
Proof.
  apply (processClassDeclaration_within commentParserDefault config
           declaration className methods methods).
  intros ? ? ?. by left.
Qed.

Lemma processClassDeclaration_qualified_witness :
  (∅ : gmap string MethodInfo) !! "Total.secret"
  = Some (mkMethodInfo "Total.secret" "" [] None KInstance false Private) \/
  startsWith "Total.secret" ("Total" +:+ ".") = true.
Proof.
  apply (processClassDeclaration_qualified sampleCommentParser
           DEFAULT_AST_CONFIG totalClass "Total" ∅ "Total.secret").
  by vm_compute.
Defined.

(** X18: every entry of the record after a namespace was processed, with
    its functions, classes and variables and the namespaces nested in it at
    any depth, either was there before, unchanged, or is filed under a key
    that starts with the name of the namespace and a dot. *)
Theorem processNamespaceDeclaration_qualified
    (commentParserDefault : string -> outcome (option (list Block)))
    (config : ASTParserConfig) (namespace : ModuleDeclaration)
    (namespaceName : string) (methods : gmap string MethodInfo)
    (key : string) (info : MethodInfo) :
  (processNamespaceDeclaration commentParserDefault config namespace
     namespaceName methods).2 !! key = Some info ->
  methods !! key = Some info \/
  startsWith key (namespaceName +:+ ".") = true.
Proof.
  apply (processNamespaceDeclaration_within commentParserDefault config
           namespace namespaceName methods methods).
  intros ? ? ?. by left.
Qed.

Lemma processNamespaceDeclaration_qualified_witness :
  (∅ : gmap string MethodInfo) !! "Outer.Inner.deeper"
  = Some (mkMethodInfo "Outer.Inner.deeper" "" [] None KFunction false
            Public) \/
  startsWith "Outer.Inner.deeper" ("Outer" +:+ ".") = true.
Proof.
  apply (processNamespaceDeclaration_qualified sampleCommentParser
           DEFAULT_AST_CONFIG outerNamespace "Outer" ∅ "Outer.Inner.deeper").
  by vm_compute.
Defined.

End WalkerProps.

(** ** Module metadata *)

Module ModuleInfoProps.
Import JsString Regex Types Effects Syntax Comment ModuleParser.
Import Checks Samples MoreSamples.
Import JsStringFacts RegexFacts JsStringMore RegexMore WalkerFacts.

#[local] Arguments len : simpl never.

(** The search skips a stretch that does not hold the first code unit of
    the pattern. *)
Lemma searchFrom_skip (c : ascii) (l : string) (r : regex) (pos : nat)
    (x rest : string) :
  mentions c x = false ->
  searchFrom (Seq (Lit (String c l)) r) pos (x +:+ rest)
  = searchFrom (Seq (Lit (String c l)) r) (pos + len x) rest.
Proof.
  revert pos. induction x as [|d x IH]; intros pos Hx.
  - by rewrite len_nil, Nat.add_0_r.
  - simpl in Hx. apply orb_false_elim in Hx as [Hd Hx].
    rewrite append_cons. cbn [searchFrom run startsWith].
    rewrite Ascii.eqb_sym, Hd. cbn [andb].
    rewrite IH by done. rewrite len_cons. f_equal. lia.
Qed.

Lemma drop_append_more (n : nat) (p s : string) :
  drop (len p + n) (p +:+ s) = drop n s.
Proof.
  induction p as [|c p IH]; [done|].
  rewrite len_cons, append_cons. cbn [Nat.add drop]. apply IH.
Qed.

Lemma drop_all (s : string) : drop (len s) s = "".
Proof. induction s as [|c s IH]; [done|]. by rewrite len_cons. Qed.

Lemma remove_extension (base extension : string) :
  mentions "." base = false ->
  In extension ["ts"; "js"; "tsx"; "jsx"] ->
  Regex.remove reExtension (base +:+ "." +:+ extension) = base.
Proof.
  intros Hbase Hext. unfold Regex.remove, exec, reExtension.
  rewrite searchFrom_skip by done. cbn [Nat.add].
  assert (exists groups,
            searchFrom
              (Seq (Lit ".")
                 (Seq (Group (Alt (Lit "ts") (Alt (Lit "js")
                                 (Alt (Lit "tsx") (Lit "jsx"))))) Eol))
              (len base) ("." +:+ extension)
            = Some (mkMatch (len base) (len base + 1 + len extension) groups))
    as [groups ->].
  { generalize (len base) as n. intros n.
    destruct Hext as [<-|[<-|[<-|[<-|[]]]]]; eexists; reflexivity. }
  cbn [mStart mEnd]. rewrite take_append.
  replace (len base + 1 + len extension)
    with (len base + S (len extension)) by lia.
  rewrite drop_append_more.
  change ("." +:+ extension) with (String "." extension). cbn [drop].
  by rewrite drop_all, append_nil_r.
Qed.

(** X19: a source file without comment blocks of its own is named after its
    file: the base name less its extension [.ts], [.js], [.tsx] or [.jsx],
    with an empty description. *)
Theorem extractModuleInfo_file_name
    (commentParserDefault : string -> outcome (option (list Block)))
    (sourceFile : SourceFile) (base extension : string) :
  getJSDocComments sourceFile = [] ->
  getBaseName sourceFile = base +:+ "." +:+ extension ->
  mentions "." base = false ->
  In extension ["ts"; "js"; "tsx"; "jsx"] ->
  extractModuleInfo commentParserDefault sourceFile
  = Ok (mkModuleInfo base "" (base +:+ "." +:+ extension)
          (extractImports sourceFile) (extractExports sourceFile)).
Proof.
  intros Hcomments Hname Hbase Hext. unfold extractModuleInfo.
  rewrite Hcomments, Hname. cbn [forOf].
  by rewrite (remove_extension base extension Hbase Hext).
Qed.

Lemma extractModuleInfo_file_name_witness :
  extractModuleInfo sampleCommentParser (totalSourceFile "my-module.tsx")
  = Ok (mkModuleInfo "my-module" "" ("my-module" +:+ "." +:+ "tsx")
          (extractImports (totalSourceFile "my-module.tsx"))
          (extractExports (totalSourceFile "my-module.tsx"))).
Proof.
  apply (extractModuleInfo_file_name sampleCommentParser
           (totalSourceFile "my-module.tsx") "my-module" "tsx");
    [reflexivity|reflexivity|reflexivity|].
  right. right. left. reflexivity.
Defined.

(** X21: an export is marked as a re-export exactly when it carries a source
    module, and a source module it carries is never the empty string. *)
Theorem extractExports_reexport (sourceFile : SourceFile) (e : ExportInfo) :
  In e (extractExports sourceFile) ->
  (isReexport e = true <-> is_Some (sourceModule e)) /\
  (forall source, sourceModule e = Some source -> truthy source = true).
Proof.
  assert (forall specifier name isDefault,
            let e := mkExportInfo name isDefault
                       (truthy (default "" specifier))
                       (orUndefined specifier) in
            (isReexport e = true <-> is_Some (sourceModule e)) /\
            (forall source,
               sourceModule e = Some source -> truthy source = true))
    as Hdeclared.
  { intros [[|c s]|] n d; cbn; (split; [split|]); try done;
      try by intros [source [=]].
    by intros source [= <-]. }
  assert (forall name isDefault,
            let e := mkExportInfo name isDefault false None in
            (isReexport e = true <-> is_Some (sourceModule e)) /\
            (forall source,
               sourceModule e = Some source -> truthy source = true))
    as Hlocal.
  { intros n d. cbn. split; [split; [done|by intros [source [=]]]|done]. }
  unfold extractExports.
  intros [Hin|[Hin|Hin]%in_app_or]%in_app_or.
  - apply in_concat in Hin as (l & Hl & Hin).
    apply in_map_iff in Hl as (exportDecl & <- & _).
    destruct (getNamedExports exportDecl) as [|named rest].
    + destruct (expHasDefaultKeyword exportDecl); [|done].
      destruct Hin as [<-|[]]. apply Hdeclared.
    + apply in_map_iff in Hin as (n & <- & _). apply Hdeclared.
  - apply in_map_iff in Hin as (exportAssign & <- & _). apply Hlocal.
  - apply in_map_iff in Hin as (keyStr & <- & _). apply Hlocal.
Qed.

Lemma extractExports_reexport_witness :
  let e := mkExportInfo "a" false true (Some "./other.ts") in
  (isReexport e = true <-> is_Some (sourceModule e)) /\
  (forall source, sourceModule e = Some source -> truthy source = true).
Proof.
  apply (extractExports_reexport richSourceFile). left. reflexivity.
Defined.

End ModuleInfoProps.

(** ** The command line: what a run does to the target module *)

Module CliProps.
Import JsString Types TypeParser Effects Syntax Comment ModuleParser Print.
Import Cli Observe Checks Traces Samples MoreSamples.
Import JsStringFacts JsStringMore TypeParserMore.

#[local] Arguments len : simpl never.

(** A branch of [main] whose events are all printing. *)
Ltac quiet_branch Hquiet Hin :=
  exfalso; cbn [orb fst] in Hin; (eapply Hquiet; [|exact Hin]);
  by repeat constructor.

Lemma quiet_In (events : list Event) (e : Event) :
  Forall (fun e => isExecution e = false) events ->
  In e events -> isExecution e = true -> False.
Proof.
  intros Hquiet Hin He. rewrite Forall_forall in Hquiet.
  apply list_elem_of_In in Hin. specialize (Hquiet e Hin). congruence.
Qed.

Lemma split_nonempty (sep : ascii) (s : string) : split sep s <> [].
Proof.
  induction s as [|c s IH]; cbn [split]; [done|].
  destruct (split sep s); [done|]. by destruct (Ascii.eqb c sep).
Qed.

(** [split] cuts at the first separator. *)
Lemma split_append (sep : ascii) (x rest : string) :
  mentions sep x = false ->
  split sep (x +:+ String sep rest) = x :: split sep rest.
Proof.
  intros Hx. induction x as [|c x IH].
  - change ("" +:+ String sep rest) with (String sep rest). cbn [split].
    pose proof (split_nonempty sep rest) as Hne.
    destruct (split sep rest) as [|h t]; [done|].
    by rewrite Ascii.eqb_refl.
  - simpl in Hx. apply orb_false_elim in Hx as [Hc Hx].
    rewrite append_cons. cbn [split]. rewrite (IH Hx), Hc. done.
Qed.

(** Joining the pieces with the separator gives the string back. *)
Lemma concat_split (sep : ascii) (s : string) :
  String.concat (String sep "") (split sep s) = s.
Proof.
  induction s as [|c s IH]; [done|]. cbn [split].
  pose proof (split_nonempty sep s) as Hne.
  destruct (split sep s) as [|h t]; [done|].
  destruct (Ascii.eqb c sep) eqn:Hc.
  - apply Ascii.eqb_eq in Hc as ->.
    change (String.concat (String sep "") ("" :: h :: t))
      with (String sep (String.concat (String sep "") (h :: t))).
    by rewrite IH.
  - destruct t as [|h' t].
    + cbn [String.concat] in *. by rewrite IH.
    + change (String.concat (String sep "") (String c h :: h' :: t))
        with (String c (String.concat (String sep "") (h :: h' :: t))).
      by rewrite IH.
Qed.

Section WithRuntime.
Variable commentParserDefault : string -> outcome (option (list Block)).
Variable Project : Type.
Variable newProject : Project.
Variable createSourceFile :
  Project -> string -> string -> outcome SourceFile * Project.
Variable isAbsolute : string -> bool.
Variable join : string -> string -> string.
Variable runtime : Runtime.
Variable deno : Deno.

Local Abbreviation moduleToCLI_get :=
  (moduleToCLI_get commentParserDefault Project newProject createSourceFile
     isAbsolute join deno).
Local Abbreviation cliMain :=
  (cliMain commentParserDefault Project newProject createSourceFile
     isAbsolute join runtime deno).
Local Abbreviation main :=
  (main commentParserDefault Project newProject createSourceFile
     isAbsolute join runtime deno).

Lemma executeFunctionMethod_shape (module : string -> option JsObject)
    (methodName : string) (methodInfo : MethodInfo) (flags : Flags) :
  let events :=
    (executeFunctionMethod runtime module methodName methodInfo flags).1 in
  List.filter isExecution events = [] \/
  exists callee args, List.filter isExecution events = [ECall callee args].
Proof.
  unfold executeFunctionMethod. cbv zeta.
  destruct (module _) as [fn|]; [|by left].
  destruct (objCall fn _); right; by do 2 eexists.
Qed.

Lemma executeStaticMethod_shape (module : string -> option JsObject)
    (methodName : string) (methodInfo : MethodInfo) (flags : Flags) :
  let events :=
    (executeStaticMethod runtime module methodName methodInfo flags).1 in
  List.filter isExecution events = [] \/
  exists callee args, List.filter isExecution events = [ECall callee args].
Proof.
  unfold executeStaticMethod. cbv zeta.
  destruct (part methodName 0) as [className|]; [|by left].
  destruct (part methodName 1) as [method|]; [|by left].
  destruct (module _) as [ClassConstructor|]; [|by left].
  destruct (callMember _ _); right; by do 2 eexists.
Qed.

Lemma executeInstanceMethod_shape (module : string -> option JsObject)
    (methodName : string) (methodInfo : MethodInfo) (flags : Flags)
    (spec : ModuleSpec) (constructorArgs : gmap string string) :
  let events :=
    (executeInstanceMethod runtime module methodName methodInfo flags spec
       constructorArgs).1 in
  List.filter isExecution events = [] \/
  (exists className values,
     List.filter isExecution events = [ENew className values]) \/
  exists className values callee args,
    List.filter isExecution events
    = [ENew className values; ECall callee args].
Proof.
  unfold executeInstanceMethod. cbv zeta.
  destruct (part methodName 0) as [className|]; [|by left].
  destruct (part methodName 1) as [method|]; [|by left].
  destruct (module _) as [ClassConstructor|]; [|by left].
  destruct (objConstruct _ _) as [instance|e];
    [|right; left; by do 2 eexists].
  destruct (callMember _ _); right; right; by do 4 eexists.
Qed.

Lemma filter_quiet (events : list Event) :
  Forall (fun e => isExecution e = false) events ->
  List.filter isExecution events = [].
Proof.
  intros Hquiet. induction Hquiet as [|e rest He _ IH]; [done|].
  cbn [List.filter]. by rewrite He.
Qed.

Lemma filter_app_quiet (events rest : list Event) :
  Forall (fun e => isExecution e = false) rest ->
  List.filter isExecution (events ++ rest) = List.filter isExecution events.
Proof.
  intros Hrest. by rewrite List.filter_app, (filter_quiet rest), app_nil_r.
Qed.

Lemma dispatch_orderly (modulePath methodName : string)
    (methodInfo : MethodInfo) (flags : Flags) (spec : ModuleSpec)
    (constructorArgs : gmap string string) :
  orderly (dispatch runtime deno modulePath methodName methodInfo flags spec
             constructorArgs) = true.
Proof.
  unfold dispatch, importModule. cbv zeta.
  destruct (dynamicImport runtime _) as [module|e]; [|done].
  assert (forall result : JsValue,
            Forall (fun e => isExecution e = false)
              match result with JNull => [] | _ => [EInspect result] end)
    as Hinspect by (intros []; by repeat constructor).
  unfold orderly.
  destruct (methodKind methodInfo); try done.
  - pose proof (executeInstanceMethod_shape module methodName methodInfo
                  flags spec constructorArgs) as Hshape.
    destruct (executeInstanceMethod _ _ _ _ _ _ _) as [events result].
    cbn [fst] in Hshape. cbn [app List.filter isExecution].
    rewrite filter_app_quiet by apply Hinspect.
    by destruct Hshape as [->|[(c & v & ->)|(c & v & callee & args & ->)]].
  - pose proof (executeStaticMethod_shape module methodName methodInfo flags)
      as Hshape.
    destruct (executeStaticMethod _ _ _ _ _) as [events result].
    cbn [fst] in Hshape. cbn [app List.filter isExecution].
    rewrite filter_app_quiet by apply Hinspect.
    by destruct Hshape as [->|(callee & args & ->)].
  - pose proof (executeFunctionMethod_shape module methodName methodInfo
                  flags) as Hshape.
    destruct (executeFunctionMethod _ _ _ _ _) as [events result].
    cbn [fst] in Hshape. cbn [app List.filter isExecution].
    rewrite filter_app_quiet by apply Hinspect.
    by destruct Hshape as [->|(callee & args & ->)].
Qed.

Lemma quiet_orderly (events : list Event) :
  Forall (fun e => isExecution e = false) events -> orderly events = true.
Proof.
  intros Hquiet. unfold orderly. by rewrite filter_quiet.
Qed.

Lemma parseModule_quiet (modulePath : string) :
  Forall (fun e => isExecution e = false)
    (parseModule commentParserDefault Project newProject createSourceFile
       isAbsolute join deno modulePath).1.
Proof.
  unfold parseModule.
  destruct (Cli.moduleToCLI_get _ _ _ _ _ _ _ _); by repeat constructor.
Qed.

(** X22: whatever the command line, a run of [main] touches the target
    module in this order and no more: at most one import, then at most one
    construction, then at most one call. *)
Theorem main_orderly (denoArgs : list string) :
  orderly (main denoArgs).1 = true.
Proof.
  unfold Cli.main. cbv zeta.
  destruct (match denoArgs with
            | first :: _ => String.eqb first "generate"
            | [] => false
            end).
  { apply quiet_orderly, CliSpec.cliMain_quiet. }
  destruct (flagBool _ "help" || _); [done|].
  pose proof (parseModule_quiet
                (default "" (positional (parseArgs runtime denoArgs
                                           mainOptions) !! 0))) as Hparsed.
  destruct (parseModule _ _ _ _ _ _ _ _) as [parsed [spec|]];
    cbn [fst] in Hparsed; [|by apply quiet_orderly].
  assert (forall rest, Forall (fun e => isExecution e = false) rest ->
                       orderly (parsed ++ rest) = true) as Hquiet.
  { intros rest Hrest. apply quiet_orderly, Forall_app. by split. }
  destruct (positional _ !! 1) as [methodName|];
    [|by apply Hquiet; repeat constructor].
  destruct (negb (truthy methodName));
    [by apply Hquiet; repeat constructor|].
  destruct (specMethods spec !! methodName) as [methodInfo|];
    [|destruct (bool_decide _); by apply Hquiet; repeat constructor].
  destruct (negb (visibility_eqb _ _));
    [by apply Hquiet; repeat constructor|].
  destruct (getMissingParams methodInfo _);
    [|by apply Hquiet; repeat constructor].
  cbn [fst]. unfold orderly.
  rewrite List.filter_app, (filter_quiet parsed Hparsed). cbn [app].
  apply dispatch_orderly.
Qed.

(** X23: an effect on the target module in a run of [main] means that every
    guard was passed: the run is not in generator mode, no help was asked
    for, the module was parsed, the method named on the command line was
    found, it is public and none of its required parameters is missing; and
    a construction or a call means that its kind is function, instance or
    static. *)
Theorem main_execution_guarded (denoArgs : list string) (e : Event) :
  In e (main denoArgs).1 -> isExecution e = true ->
  let flags := parseArgs runtime denoArgs mainOptions in
  head denoArgs <> Some "generate" /\
  flagBool flags "help" = false /\
  exists modulePath methodName parsedModule methodInfo,
    positional flags !! 0 = Some modulePath /\
    positional flags !! 1 = Some methodName /\
    moduleToCLI_get modulePath = Ok parsedModule /\
    methods parsedModule !! methodName = Some methodInfo /\
    visibility methodInfo = Public /\
    getMissingParams methodInfo flags = [] /\
    ((forall moduleName, e <> EImport moduleName) ->
     In (methodKind methodInfo) [KFunction; KInstance; KStatic]).
Proof.
  unfold Cli.main. cbv zeta. intros Hin He.
  set (flags := parseArgs runtime denoArgs mainOptions) in *.
  assert (forall events,
            Forall (fun e => isExecution e = false) events ->
            In e events -> False) as Hquiet.
  { intros events Hq Hi. exact (quiet_In events e Hq Hi He). }
  destruct (match denoArgs with
            | first :: _ => String.eqb first "generate"
            | [] => false
            end) eqn:Hmode.
  { exfalso. exact (Hquiet _ (CliSpec.cliMain_quiet _ _ _ _ _ _ _ _ _) Hin). }
  destruct (flagBool flags "help") eqn:Hhelp.
  { quiet_branch Hquiet Hin. }
  cbn [orb] in Hin.
  destruct (positional flags) as [|modulePath rest] eqn:Hpositional.
  { quiet_branch Hquiet Hin. }
  cbn [length Nat.ltb Nat.leb lookup list_lookup default id] in Hin.
  unfold parseModule in Hin. fold moduleToCLI_get in Hin.
  destruct (moduleToCLI_get modulePath) as [parsedModule|error] eqn:Hparsed.
  2:{ quiet_branch Hquiet Hin. }
  cbn [app specMethods] in Hin.
  destruct rest as [|methodName rest].
  { quiet_branch Hquiet Hin. }
  cbn [lookup list_lookup] in Hin.
  destruct (negb (truthy methodName)).
  { quiet_branch Hquiet Hin. }
  destruct (methods parsedModule !! methodName) as [methodInfo|] eqn:Hfound.
  2:{ destruct (bool_decide _); quiet_branch Hquiet Hin. }
  destruct (visibility methodInfo) eqn:Hvisibility; cbn [visibility_eqb negb]
    in Hin;
    [|quiet_branch Hquiet Hin..].
  destruct (getMissingParams methodInfo flags) as [|missing others]
    eqn:Hmissing.
  2:{ quiet_branch Hquiet Hin. }
  cbn [fst] in Hin. split.
  { destruct denoArgs as [|first args]; [done|]. cbn [head].
    intros [= ->]. by rewrite String.eqb_refl in Hmode. }
  split; [done|].
  exists modulePath, methodName, parsedModule, methodInfo.
  repeat (split; [done|]).
  intros Hcall. unfold dispatch, importModule in Hin. cbv zeta in Hin.
  destruct (dynamicImport runtime _) as [module|error].
  2:{ exfalso. destruct Hin as [<-|[<-|[]]]; [by eapply Hcall|done]. }
  destruct (methodKind methodInfo); cbn [In]; try tauto; exfalso;
    (destruct Hin as [<-|[<-|[]]]; [by eapply Hcall|done]).
Qed.

(** X24: the specification generator never ends by throwing; it ends with
    exit status 1 exactly when it wrote an error to [console.error], and
    otherwise it returns or ends with exit status 0. *)
Theorem cliMain_exit_status (denoArgs : list string) :
  let run := cliMain denoArgs in
  (forall error, run.2 <> Thrown error) /\
  (run.2 = Exited 1 <-> exists text, In (EConsoleError text) run.1) /\
  (run.2 = Exited 1 \/ run.2 = Exited 0 \/ run.2 = Returned).
Proof.
  cbv zeta. unfold Cli.cliMain, parseCommandLineArgs. cbv zeta.
  set (flags := parseArgs runtime _ specOptions).
  set (warnings := map _ _).
  assert (forall text rest,
            In (EConsoleError text) (warnings ++ rest) ->
            In (EConsoleError text) rest) as Hwarn.
  { intros text rest [Hin|Hin]%in_app_or; [|done]. exfalso.
    unfold warnings in Hin. by apply in_map_iff in Hin as (arg & [=] & _). }
  destruct (flagBool flags "help"); cbn [cmdConfig exitCode fst snd].
  { split; [done|]. split; [|by right; left]. split; [done|].
    intros [text Hin]. apply Hwarn in Hin. by destruct Hin as [|[]]. }
  destruct (positional flags) as [|path rest];
    cbn [cmdConfig exitCode fst snd].
  { split; [done|]. split; [|by left]. split; [|done]. intros _.
    eexists. apply in_or_app. right. by left. }
  unfold generateModuleSpecification.
  cbn [cfgFilePath outputJson useSimpleFormat].
  destruct (Cli.moduleToCLI_get _ _ _ _ _ _ _ path) as [result|error].
  - destruct (flagBool flags "json"); cbn [fst snd].
    + split; [done|]. split; [|by right; left]. split; [done|].
      intros [text Hin]. apply Hwarn in Hin. by destruct Hin as [|[]].
    + split; [done|]. split; [|by right; right]. split; [done|].
      intros [text Hin]. apply Hwarn in Hin.
      by destruct Hin as [|[|[|[]]]].
  - cbn [fst snd]. split; [done|]. split; [|by left]. split; [|done].
    intros _. eexists. apply in_or_app. right. by left.
Qed.

End WithRuntime.

(** The run [ping.ts ping] on the module of [ping.ts], whose function
    [ping] is imported and called. *)
Lemma main_execution_guarded_witness :
  let flags := parseArgs pingRuntime ["ping.ts"; "ping"] mainOptions in
  head ["ping.ts"; "ping"] <> Some "generate" /\
  flagBool flags "help" = false /\
  exists modulePath methodName parsedModule methodInfo,
    positional flags !! 0 = Some modulePath /\
    positional flags !! 1 = Some methodName /\
    pingGet modulePath = Ok parsedModule /\
    methods parsedModule !! methodName = Some methodInfo /\
    visibility methodInfo = Public /\
    getMissingParams methodInfo flags = [] /\
    ((forall moduleName, ECall ["ping"] [] <> EImport moduleName) ->
     In (methodKind methodInfo) [KFunction; KInstance; KStatic]).
Proof.
  apply (main_execution_guarded sampleCommentParser (list string) []
           strictCreateSourceFile sampleIsAbsolute sampleJoin
           pingRuntime pingDeno ["ping.ts"; "ping"]
           (ECall ["ping"] [])); [|reflexivity].
  vm_compute. right. left. reflexivity.
Defined.


(** X25: the loop of [main] over the raw arguments keeps, for a last
    argument [--constructor.K=V], the whole of [V] under the key
    [constructor.K], equals signs included, whatever the arguments before
    it. *)
Theorem collectConstructorArgs_last (rawArgs : list string)
    (key value : string) :
  mentions "=" key = false ->
  collectConstructorArgs
    (rawArgs ++ ["--constructor." +:+ key +:+ "=" +:+ value])
  !! ("constructor." +:+ key) = Some value.
Proof.
  intros Hkey. unfold collectConstructorArgs. rewrite foldl_app.
  cbn [foldl]. rewrite startsWith_append.
  change (drop 2 ("--constructor." +:+ key +:+ "=" +:+ value))
    with (("constructor." +:+ key) +:+ String "=" value).
  rewrite split_append by (by rewrite mentions_append, Hkey).
  pose proof (split_nonempty "=" value) as Hne.
  pose proof (concat_split "=" value) as Hjoin.
  destruct (split "=" value) as [|h t]; [done|].
  rewrite Hjoin. apply lookup_insert_eq.
Qed.

Lemma collectConstructorArgs_last_witness :
  collectConstructorArgs
    (["calc.ts"; "--constructor.a=1"]
     ++ ["--constructor." +:+ "filter" +:+ "=" +:+ "x=1&y=2"])
  !! ("constructor." +:+ "filter") = Some "x=1&y=2".
Proof.
  by apply (collectConstructorArgs_last ["calc.ts"; "--constructor.a=1"]
              "filter" "x=1&y=2").
Defined.


(** X26: a command-line value for a parameter documented with one of the two
    array spellings reaches the target as the text given: the descriptor has
    base type [Array], which none of the conversions of [convertValue] is
    for. The conversion to an array is for the type text [array] alone. *)
Theorem convertValue_array_text (runtime : Runtime)
    (config : ASTParserConfig) (E value : string) :
  captureComplexTypes config = true ->
  truthy E = true -> allChars Regex.dot E = true -> trim E = E ->
  mentions "?" E = false -> mentions "|" E = false ->
  includes E "Promise<" = false ->
  convertValue runtime value (parseType config (E +:+ "[]")) = JString value /\
  convertValue runtime value (parseType config ("Array<" +:+ E +:+ ">"))
  = JString value /\
  convertValue runtime value (parseType config "array")
  = match jsonParse runtime value with
    | Some v => v
    | None => JArray (map (fun item => JString (trim item)) (split "," value))
    end.
Proof.
  intros Hcfg HE Hdot Htrim Hq Hbar Hpromise. split; [|split].
  - by rewrite parseType_arraySuffix.
  - by rewrite parseType_arrayGeneric.
  - destruct config as [? ? ? ? ? ? complexTypes].
    cbn in Hcfg. by subst complexTypes.
Qed.

Lemma convertValue_array_text_witness :
  convertValue sampleRuntime "1,2"
    (parseType DEFAULT_AST_CONFIG ("number" +:+ "[]"))
  = JString "1,2" /\
  convertValue sampleRuntime "1,2"
    (parseType DEFAULT_AST_CONFIG ("Array<" +:+ "number" +:+ ">"))
  = JString "1,2" /\
  convertValue sampleRuntime "1,2" (parseType DEFAULT_AST_CONFIG "array")
  = match jsonParse sampleRuntime "1,2" with
    | Some v => v
    | None => JArray (map (fun item => JString (trim item)) (split "," "1,2"))
    end.
Proof.
  by apply (convertValue_array_text sampleRuntime DEFAULT_AST_CONFIG
              "number" "1,2").
Defined.

End CliProps.
